(** * listmonk-go: the request/response plumbing of the client

    A shallow embedding of [client.go] (the transport primitives [do] and
    [multipart], the envelope decoder [decode], [request]) and of the
    endpoint functions that the properties below talk about, together with
    models of the library calls they rely on: [encoding/json] decoding,
    [go-querystring]'s [query.Values], [net/url]'s query escaping and
    parsing, and [mime/multipart]'s writer. *)

From Stdlib Require Import ZArith String Ascii List Bool Lia.
From Stdlib Require Import DecimalString DecimalPos DecimalZ.
From stdpp Require Import gmap strings list fin_maps sorting.
Import ListNotations.

Local Open Scope string_scope.
Local Set Warnings "-register-all".

(** ** Characters and strings

    Go strings and byte slices are byte sequences: [string]. *)

Definition byte_of (n : N) : ascii := ascii_of_N n.
Definition code (c : ascii) : N := N_of_ascii c.

Definition dquote : ascii := "034"%char.
Definition CR : ascii := "013"%char.
Definition LF : ascii := "010"%char.
Definition TAB : ascii := "009"%char.
Definition CRLF : string := String CR (String LF "").

(** [quoted s] is [s] between two double quotes. *)
Definition quoted (s : string) : string := String dquote (s +:+ String dquote "").

Definition in_range (lo hi : N) (c : ascii) : bool :=
  (lo <=? code c)%N && (code c <=? hi)%N.

Definition is_digit (c : ascii) : bool := in_range 48 57 c.
Definition is_lower (c : ascii) : bool := in_range 97 122 c.
Definition is_upper (c : ascii) : bool := in_range 65 90 c.
Definition is_alnum (c : ascii) : bool := is_digit c || is_lower c || is_upper c.

Fixpoint contains_char (c : ascii) (s : string) : bool :=
  match s with
  | "" => false
  | String d r => Ascii.eqb c d || contains_char c r
  end.

Fixpoint drop_chars (n : nat) (s : string) : string :=
  match n, s with
  | S n, String _ r => drop_chars n r
  | _, _ => s
  end.

(** ** Errors and outcomes *)

(** Go [error] values, by dynamic type. The message and offset of a
    [*json.SyntaxError] and the fields of a [*json.UnmarshalTypeError] are
    not modelled. [foreign] stands for every error made by code outside
    this package ([net/url], [net/http], the HTTP client, a reader, a
    payload's own unmarshaller). *)
Inductive error : Type :=
| errorString (s : string)
| SyntaxError
| UnmarshalTypeError
| io_EOF
| io_ErrUnexpectedEOF
| foreign (what : string).

(** [errors.New]. *)
Definition errors_New (text : string) : error := errorString text.

(** [e.Error()], for the errors whose text this development fixes. *)
Definition Error (e : error) : option string :=
  match e with
  | errorString s => Some s
  | io_EOF => Some "EOF"
  | io_ErrUnexpectedEOF => Some "unexpected EOF"
  | _ => None
  end.

(** What a call comes to: a value, a returned [error], or a run-time panic. *)
Inductive outcome (A : Type) : Type :=
| Ok (a : A)
| Err (e : error)
| Panic (msg : string).
Arguments Ok {A} a.
Arguments Err {A} e.
Arguments Panic {A} msg.

Definition index_out_of_range : string :=
  "runtime error: index out of range [0] with length 0".
Definition nil_dereference : string :=
  "runtime error: invalid memory address or nil pointer dereference".

#[global] Instance outcome_ret : MRet outcome := fun _ a => Ok a.
#[global] Instance outcome_bind : MBind outcome := fun _ _ k m =>
  match m with
  | Ok a => k a
  | Err e => Err e
  | Panic p => Panic p
  end.

#[global] Instance outcome_fmap : FMap outcome := fun _ _ f m =>
  match m with
  | Ok a => Ok (f a)
  | Err e => Err e
  | Panic p => Panic p
  end.

(** ** encoding/json: reading one value from a byte stream *)

Module json.

Inductive Value : Type :=
| Null
| Bool (b : bool)
| Number (lit : string)
| String_ (s : string)
| Array (elems : list Value)
| Object (members : list (string * Value)).

(** Result of scanning a prefix of the input. [Invalid]: a byte that cannot
    continue a JSON value. [Truncated]: the input ended inside a value.
    [Exhausted]: the recursion budget ran out, which [read_value] never
    lets happen (see [read_value_not_Exhausted]). *)
Inductive scan (A : Type) : Type :=
| Scanned (a : A) (rest : string)
| Invalid
| Truncated
| Exhausted.
Arguments Scanned {A} a rest.
Arguments Invalid {A}.
Arguments Truncated {A}.
Arguments Exhausted {A}.

Definition scan_map {A B} (f : A -> B) (r : scan A) : scan B :=
  match r with
  | Scanned a rest => Scanned (f a) rest
  | Invalid => Invalid
  | Truncated => Truncated
  | Exhausted => Exhausted
  end.

Definition isSpace (c : ascii) : bool :=
  Ascii.eqb c " " || Ascii.eqb c TAB || Ascii.eqb c CR || Ascii.eqb c LF.

Fixpoint skip_space (s : string) : string :=
  match s with
  | String c r => if isSpace c then skip_space r else s
  | "" => ""
  end.

Definition hexval (c : ascii) : option N :=
  if is_digit c then Some (code c - 48)%N
  else if in_range 97 102 c then Some (code c - 87)%N
  else if in_range 65 70 c then Some (code c - 55)%N
  else None.

(** *** String literals: the scanner's states inside a string *)

Inductive sstate : Type := InString | InStringEsc | InStringEscU (left : nat).

(** Finds the closing quote; returns the raw text between the quotes. *)
Fixpoint scan_string (st : sstate) (s : string) : scan string :=
  match s with
  | "" => Truncated
  | String c r =>
    match st with
    | InString =>
      if Ascii.eqb c dquote then Scanned "" r
      else if Ascii.eqb c "\" then scan_map (String c) (scan_string InStringEsc r)
      else if (code c <? 32)%N then Invalid
      else scan_map (String c) (scan_string InString r)
    | InStringEsc =>
      if contains_char c "bfnrt\/" || Ascii.eqb c dquote
      then scan_map (String c) (scan_string InString r)
      else if Ascii.eqb c "u" then scan_map (String c) (scan_string (InStringEscU 3) r)
      else Invalid
    | InStringEscU n =>
      match hexval c with
      | None => Invalid
      | Some _ =>
        scan_map (String c)
          (scan_string (match n with O => InString | S m => InStringEscU m end) r)
      end
    end
  end.

(** [getu4]: the code unit of a [\uXXXX] escape at the head of [s]. *)
Definition getu4 (s : string) : option N :=
  match s with
  | String b (String u (String h1 (String h2 (String h3 (String h4 _))))) =>
    if Ascii.eqb b "\" && Ascii.eqb u "u" then
      match hexval h1, hexval h2, hexval h3, hexval h4 with
      | Some a, Some b, Some c, Some d => Some (((a * 16 + b) * 16 + c) * 16 + d)%N
      | _, _, _, _ => None
      end
    else None
  | _ => None
  end.

(** [utf8.EncodeRune], for a rune that is not a surrogate half. *)
Definition EncodeRune (r : N) : string :=
  (if r <? 128 then String (byte_of r) ""
   else if r <? 2048 then
     String (byte_of (192 + r / 64)) (String (byte_of (128 + r mod 64)) "")
   else if r <? 65536 then
     String (byte_of (224 + r / 4096))
       (String (byte_of (128 + (r / 64) mod 64)) (String (byte_of (128 + r mod 64)) ""))
   else
     String (byte_of (240 + r / 262144))
       (String (byte_of (128 + (r / 4096) mod 64))
          (String (byte_of (128 + (r / 64) mod 64))
             (String (byte_of (128 + r mod 64)) ""))))%N.

Definition RuneError : string := EncodeRune 65533%N.

Definition is_surrogate (r : N) : bool := (55296 <=? r)%N && (r <? 57344)%N.

(** Length of the well-formed UTF-8 sequence at the head of [s]; 0 when
    the head byte does not start one ([utf8.DecodeRune] then yields
    [RuneError] with size 1). *)
Definition utf8_len (s : string) : nat :=
  match s with
  | "" => 0
  | String b0 r =>
    if (code b0 <? 128)%N then 1
    else if in_range 194 223 b0 then
      match r with String b1 _ => if in_range 128 191 b1 then 2 else 0 | _ => 0 end
    else if in_range 224 239 b0 then
      match r with
      | String b1 (String b2 _) =>
        let lo := if (code b0 =? 224)%N then 160%N else 128%N in
        let hi := if (code b0 =? 237)%N then 159%N else 191%N in
        if in_range lo hi b1 && in_range 128 191 b2 then 3 else 0
      | _ => 0
      end
    else if in_range 240 244 b0 then
      match r with
      | String b1 (String b2 (String b3 _)) =>
        let lo := if (code b0 =? 240)%N then 144%N else 128%N in
        let hi := if (code b0 =? 244)%N then 143%N else 191%N in
        if in_range lo hi b1 && in_range 128 191 b2 && in_range 128 191 b3 then 4 else 0
      | _ => 0
      end
    else 0
  end.

Definition unescape_char (c : ascii) : ascii :=
  if Ascii.eqb c "b" then byte_of 8
  else if Ascii.eqb c "f" then byte_of 12
  else if Ascii.eqb c "n" then LF
  else if Ascii.eqb c "r" then CR
  else if Ascii.eqb c "t" then TAB
  else c.

(** [unquote]: the Go string that the raw text of a scanned literal stands
    for: escapes replaced, [\u] escapes and surrogate pairs encoded as
    UTF-8, bytes that are not well-formed UTF-8 replaced by U+FFFD. The
    mode says what to do with the next bytes: [Skip k] drops [k] bytes of
    an escape already accounted for, [Copy k] copies the [k] continuation
    bytes of a UTF-8 sequence. *)
Inductive umode : Type := Skip (k : nat) | Copy (k : nat).

Fixpoint unquote_from (m : umode) (s : string) : string :=
  match s with
  | "" => ""
  | String c r =>
    match m with
    | Skip (S k) => unquote_from (Skip k) r
    | Copy (S k) => String c (unquote_from (Copy k) r)
    | Skip O | Copy O =>
      if Ascii.eqb c "\" then
        match r with
        | String e _ =>
          if Ascii.eqb e "u" then
            match getu4 s with
            | Some rr =>
              if is_surrogate rr then
                match getu4 (drop_chars 6 s) with
                | Some rr1 =>
                  if (rr <? 56320)%N && (56320 <=? rr1)%N && (rr1 <? 57344)%N
                  then EncodeRune (65536 + (rr - 55296) * 1024 + (rr1 - 56320))%N
                         +:+ unquote_from (Skip 11) r
                  else RuneError +:+ unquote_from (Skip 5) r
                | None => RuneError +:+ unquote_from (Skip 5) r
                end
              else EncodeRune rr +:+ unquote_from (Skip 5) r
            | None => unquote_from (Skip 0) r
            end
          else String (unescape_char e) (unquote_from (Skip 1) r)
        | "" => ""
        end
      else if (code c <? 128)%N then String c (unquote_from (Skip 0) r)
      else
        match utf8_len s with
        | O => RuneError +:+ unquote_from (Skip 0) r
        | S k => String c (unquote_from (Copy k) r)
        end
    end
  end.

Definition unquote (raw : string) : string := unquote_from (Skip 0) raw.

(** *** Numbers: the scanner's states inside a numeric literal *)

Inductive nstate : Type := Neg | Zero | Int1 | Dot | Dot0 | Exp | ExpSign | Exp0.

Definition is_e (c : ascii) : bool := Ascii.eqb c "e" || Ascii.eqb c "E".

Definition nstep (st : nstate) (c : ascii) : option nstate :=
  match st with
  | Neg => if Ascii.eqb c "0" then Some Zero else if in_range 49 57 c then Some Int1 else None
  | Zero => if Ascii.eqb c "." then Some Dot else if is_e c then Some Exp else None
  | Int1 =>
    if is_digit c then Some Int1
    else if Ascii.eqb c "." then Some Dot else if is_e c then Some Exp else None
  | Dot => if is_digit c then Some Dot0 else None
  | Dot0 => if is_digit c then Some Dot0 else if is_e c then Some Exp else None
  | Exp =>
    if Ascii.eqb c "+" || Ascii.eqb c "-" then Some ExpSign
    else if is_digit c then Some Exp0 else None
  | ExpSign => if is_digit c then Some Exp0 else None
  | Exp0 => if is_digit c then Some Exp0 else None
  end.

(** States in which the literal read so far is a complete number. *)
Definition nfinal (st : nstate) : bool :=
  match st with Zero | Int1 | Dot0 | Exp0 => true | _ => false end.

Fixpoint scan_number (st : nstate) (s : string) : scan string :=
  match s with
  | "" => if nfinal st then Scanned "" "" else Truncated
  | String c r =>
    match nstep st c with
    | Some st' => scan_map (String c) (scan_number st' r)
    | None => if nfinal st then Scanned "" s else Invalid
    end
  end.

(** The rest of a literal name ([true], [false], [null]). *)
Fixpoint expect (lit : string) (s : string) : scan unit :=
  match lit with
  | "" => Scanned tt s
  | String l lit' =>
    match s with
    | "" => Truncated
    | String c r => if Ascii.eqb c l then expect lit' r else Invalid
    end
  end.

(** *** Values *)

Definition maxNestingDepth : N := 10000.

(** One JSON value at the head of [s], after leading white space; [depth]
    is the number of arrays and objects already open. A recursive call
    spends one unit of [fuel]; two of them in a row read at least one
    byte. *)
Fixpoint scan_value (fuel : nat) (depth : N) (s : string) : scan Value :=
  match fuel with
  | O => Exhausted
  | S fuel =>
    match skip_space s with
    | "" => Truncated
    | String c r =>
      if Ascii.eqb c "{" then
        if (maxNestingDepth <? N.succ depth)%N then Invalid
        else
          match skip_space r with
          | "" => Truncated
          | String c1 r1 =>
            if Ascii.eqb c1 "}" then Scanned (Object []) r1
            else scan_map Object (scan_members fuel (N.succ depth) r)
          end
      else if Ascii.eqb c "[" then
        if (maxNestingDepth <? N.succ depth)%N then Invalid
        else
          match skip_space r with
          | "" => Truncated
          | String c1 r1 =>
            if Ascii.eqb c1 "]" then Scanned (Array []) r1
            else scan_map Array (scan_elems fuel (N.succ depth) r)
          end
      else if Ascii.eqb c dquote then
        scan_map (fun raw => String_ (unquote raw)) (scan_string InString r)
      else if Ascii.eqb c "-" then scan_map (fun l => Number (String c l)) (scan_number Neg r)
      else if Ascii.eqb c "0" then scan_map (fun l => Number (String c l)) (scan_number Zero r)
      else if in_range 49 57 c then
        scan_map (fun l => Number (String c l)) (scan_number Int1 r)
      else if Ascii.eqb c "t" then scan_map (fun _ => Bool true) (expect "rue" r)
      else if Ascii.eqb c "f" then scan_map (fun _ => Bool false) (expect "alse" r)
      else if Ascii.eqb c "n" then scan_map (fun _ => Null) (expect "ull" r)
      else Invalid
    end
  end
with scan_elems (fuel : nat) (depth : N) (s : string) : scan (list Value) :=
  match fuel with
  | O => Exhausted
  | S fuel =>
    match scan_value fuel depth s with
    | Scanned v r =>
      match skip_space r with
      | "" => Truncated
      | String c r1 =>
        if Ascii.eqb c "," then scan_map (cons v) (scan_elems fuel depth r1)
        else if Ascii.eqb c "]" then Scanned [v] r1
        else Invalid
      end
    | Invalid => Invalid
    | Truncated => Truncated
    | Exhausted => Exhausted
    end
  end
with scan_members (fuel : nat) (depth : N) (s : string)
  : scan (list (string * Value)) :=
  match fuel with
  | O => Exhausted
  | S fuel =>
    match skip_space s with
    | "" => Truncated
    | String q r =>
      if Ascii.eqb q dquote then
        match scan_string InString r with
        | Scanned raw r1 =>
          match skip_space r1 with
          | "" => Truncated
          | String c r2 =>
            if Ascii.eqb c ":" then
              match scan_value fuel depth r2 with
              | Scanned v r3 =>
                match skip_space r3 with
                | "" => Truncated
                | String c3 r4 =>
                  if Ascii.eqb c3 "," then
                    scan_map (cons (unquote raw, v)) (scan_members fuel depth r4)
                  else if Ascii.eqb c3 "}" then Scanned [(unquote raw, v)] r4
                  else Invalid
                end
              | Invalid => Invalid
              | Truncated => Truncated
              | Exhausted => Exhausted
              end
            else Invalid
          end
        | Invalid => Invalid
        | Truncated => Truncated
        | Exhausted => Exhausted
        end
      else Invalid
    end
  end.

(** *** Storing a decoded value into a Go value

    Decoding threads the decoder's saved error: a value of the wrong JSON
    kind for its target is recorded (the first one is kept) and decoding
    goes on; any other error stops it. *)

Definition D (A : Type) : Type := option error -> outcome (A * option error).

Definition D_ret {A} (a : A) : D A := fun saved => Ok (a, saved).

Definition D_bind {A B} (m : D A) (k : A -> D B) : D B := fun saved =>
  match m saved with
  | Ok (a, saved') => k a saved'
  | Err e => Err e
  | Panic p => Panic p
  end.

Definition saveError (e : error) : D unit := fun saved =>
  Ok (tt, match saved with None => Some e | Some _ => saved end).

(** A wrong-kind value: the error is saved and the target left as it was. *)
Definition mismatch {A} (old : A) : D A :=
  D_bind (saveError UnmarshalTypeError) (fun _ => D_ret old).

(** A Go type that JSON can be decoded into: its zero value, and how a
    JSON value is stored into a value of the type. *)
Class Unmarshaler (T : Type) : Type := {
  zero : T;
  unmarshal : Value -> T -> D T
}.

(** *** The basic kinds *)

#[global] Instance string_Unmarshaler : Unmarshaler string := {
  zero := "";
  unmarshal j old :=
    match j with
    | String_ s => D_ret s
    | Null => D_ret old
    | _ => mismatch old
    end
}.

#[global] Instance bool_Unmarshaler : Unmarshaler bool := {
  zero := false;
  unmarshal j old :=
    match j with
    | Bool b => D_ret b
    | Null => D_ret old
    | _ => mismatch old
    end
}.

Fixpoint digits_value (acc : Z) (s : string) : option Z :=
  match s with
  | "" => Some acc
  | String c r =>
    if is_digit c then digits_value (10 * acc + Z.of_N (code c - 48)) r else None
  end.

(** [strconv.ParseInt(lit, 10, 64)] on a JSON number literal: the literal
    has to be an integer without fraction or exponent, within int64. *)
Definition ParseInt (lit : string) : option Z :=
  let signed :=
    match lit with
    | "" => None
    | String c r =>
      if Ascii.eqb c "-"
      then match r with "" => None | _ => Z.opp <$> digits_value 0 r end
      else digits_value 0 lit
    end in
  match signed with
  | Some n => if ((- 2 ^ 63 <=? n) && (n <? 2 ^ 63))%Z then Some n else None
  | None => None
  end.

(** Go [int] (64 bits) holding the values that [ParseInt] accepts. *)
#[global] Instance int_Unmarshaler : Unmarshaler Z := {
  zero := 0%Z;
  unmarshal j old :=
    match j with
    | Number lit => match ParseInt lit with Some n => D_ret n | None => mismatch old end
    | Null => D_ret old
    | _ => mismatch old
    end
}.

(** A pointer [*T]: [None] is nil. JSON null sets it to nil; any other
    value is stored into the pointee, allocated first if the pointer is
    nil. *)
#[global] Instance pointer_Unmarshaler {T} `{Unmarshaler T} : Unmarshaler (option T) := {
  zero := None;
  unmarshal j old :=
    match j with
    | Null => D_ret None
    | _ => D_bind (unmarshal j (default zero old)) (fun v => D_ret (Some v))
    end
}.

(** A slice [[]T]: its elements, and the elements of its backing array
    beyond its length ([spare]), which decoding an array reuses. A nil
    slice and an empty one are both [{| elems := []; spare := [] |}]. *)
Record slice (T : Type) : Type := mkSlice { elems : list T; spare : list T }.
Arguments mkSlice {T} elems spare.
Arguments elems {T} s.
Arguments spare {T} s.

Fixpoint unmarshal_elems {T} `{Unmarshaler T} (js : list Value) (backing : list T)
  : D (list T) :=
  match js with
  | [] => D_ret []
  | j :: js' =>
    D_bind (unmarshal j (hd zero backing)) (fun v =>
    D_bind (unmarshal_elems js' (tl backing)) (fun vs =>
    D_ret (v :: vs)))
  end.

#[global] Instance slice_Unmarshaler {T} `{Unmarshaler T} : Unmarshaler (slice T) := {
  zero := mkSlice [] [];
  unmarshal j old :=
    match j with
    | Array [] => D_ret (mkSlice [] [])
    | Array js =>
      let backing := (elems old ++ spare old)%list in
      D_bind (unmarshal_elems js backing) (fun vs =>
      D_ret (mkSlice vs (drop (length js) backing)))
    | Null => D_ret (mkSlice [] [])
    | _ => mismatch old
    end
}.

(** *** Structs

    Object keys are matched with field names as [bytes.EqualFold] does.
    Against a name of ASCII letters this is: equal after mapping a-z to
    A-Z, U+017F (long s) to S and U+212A (Kelvin sign) to K. *)
Fixpoint fold_name (s : string) : string :=
  match s with
  | "" => ""
  | String c r =>
    if is_lower c then String (byte_of (code c - 32)) (fold_name r)
    else
      match r with
      | String c1 r1 =>
        if (code c =? 197)%N && (code c1 =? 191)%N then String "S" (fold_name_skip 1 r)
        else
          match r1 with
          | String c2 _ =>
            if (code c =? 226)%N && (code c1 =? 132)%N && (code c2 =? 170)%N
            then String "K" (fold_name_skip 2 r)
            else String c (fold_name r)
          | "" => String c (fold_name r)
          end
      | "" => String c ""
      end
  end
with fold_name_skip (n : nat) (s : string) : string :=
  match s with
  | "" => ""
  | String _ r => match n with S (S k) => fold_name_skip (S k) r | _ => fold_name r end
  end.

Definition EqualFold (key name : string) : bool :=
  String.eqb (fold_name key) (fold_name name).

(** Decoding into a struct: [store key v s] stores the member [key: v]
    into the field of [s] that [key] names, if any. Members are stored in
    the order they appear; null leaves the struct as it is; a value of
    another kind is a mismatch. *)
Fixpoint store_members {S} (store : string -> Value -> S -> D S)
  (members : list (string * Value)) (s : S) : D S :=
  match members with
  | [] => D_ret s
  | (key, v) :: rest => D_bind (store key v s) (store_members store rest)
  end.

Definition unmarshal_struct {S} (store : string -> Value -> S -> D S)
  (j : Value) (old : S) : D S :=
  match j with
  | Object members => store_members store members old
  | Null => D_ret old
  | _ => mismatch old
  end.

(** *** Decoder.Decode

    [json.NewDecoder(body).Decode(&into)]: reads the next JSON value of
    the stream (whatever follows it is left unread) and stores it. *)
Definition read_value (body : string) : scan Value :=
  scan_value (S (2 * String.length body)) 0 body.

(** Storing the value read, from a decoder with no saved error: the saved
    error, if any, is what the call returns. *)
Definition store {T} `{Unmarshaler T} (j : Value) (into : T) : outcome T :=
  match unmarshal j into None with
  | Ok (v, None) => Ok v
  | Ok (_, Some saved) => Err saved
  | Err e => Err e
  | Panic p => Panic p
  end.

Definition Decode {T} `{Unmarshaler T} (body : string) (into : T) : outcome T :=
  match read_value body with
  | Scanned j _ => store j into
  | Truncated =>
    match skip_space body with
    | "" => Err io_EOF
    | _ => Err io_ErrUnexpectedEOF
    end
  | Invalid | Exhausted => Err SyntaxError
  end.

(** A target that keeps the JSON value as it is. *)
Definition raw_Unmarshaler : Unmarshaler Value := {|
  zero := Null;
  unmarshal j _ := D_ret j
|}.

End json.

(** ** time: an instant with a zone offset, and its RFC 3339 text *)

Module time.

(** A [time.Time]: seconds since the Unix epoch, nanoseconds within the
    second, and the zone offset in seconds east of UTC. *)
Record Time : Type := { unix : Z; nsec : Z; offset : Z }.

Definition Itoa (n : Z) : string := NilZero.string_of_int (Z.to_int n).

Fixpoint zeros (n : nat) : string :=
  match n with O => "" | S k => String "0" (zeros k) end.

(** [appendInt(b, x, width)]: decimal, zero-padded to [width] digits. *)
Definition appendInt (x : Z) (width : nat) : string :=
  let digits := Itoa (Z.abs x) in
  (if (x <? 0)%Z then "-" else "") +:+ zeros (width - String.length digits) +:+ digits.

(** Year, month and day of the day [days] days after 1970-01-01 in the
    proleptic Gregorian calendar. *)
Definition civil (days : Z) : Z * Z * Z :=
  (let z := days + 719468 in
   let era := z / 146097 in
   let doe := z mod 146097 in
   let yoe := (doe - doe / 1460 + doe / 36524 - doe / 146096) / 365 in
   let doy := doe - (365 * yoe + yoe / 4 - yoe / 100) in
   let mp := (5 * doy + 2) / 153 in
   let d := doy - (153 * mp + 2) / 5 + 1 in
   let m := if mp <? 10 then mp + 3 else mp - 9 in
   let y := yoe + era * 400 + (if m <=? 2 then 1 else 0) in
   (y, m, d))%Z.

(** [t.Format(time.RFC3339)], layout [2006-01-02T15:04:05Z07:00]. *)
Definition Format_RFC3339 (t : Time) : string :=
  let local := (unix t + offset t)%Z in
  let '(y, m, d) := civil (local / 86400) in
  let secs := (local mod 86400)%Z in
  let zone := Z.quot (offset t) 60 in
  appendInt y 4 +:+ "-" +:+ appendInt m 2 +:+ "-" +:+ appendInt d 2 +:+ "T"
  +:+ appendInt (secs / 3600) 2 +:+ ":" +:+ appendInt ((secs / 60) mod 60) 2
  +:+ ":" +:+ appendInt (secs mod 60) 2
  +:+ (if (offset t =? 0)%Z then "Z"
       else (if (zone <? 0)%Z then "-" else "+")
            +:+ appendInt (Z.abs zone / 60) 2 +:+ ":" +:+ appendInt (Z.abs zone mod 60) 2).

End time.

(** ** net/url: query values, escaping, encoding and parsing *)

Module url.

(** [url.Values], a [map[string][]string]. *)
Abbreviation Values := (gmap string (list string)).

Definition Get_all (v : Values) (key : string) : list string := default [] (v !! key).

Definition Add (key value : string) (v : Values) : Values :=
  <[key := (Get_all v key ++ [value])%list]> v.

(** [shouldEscape(c, encodeQueryComponent)]. *)
Definition shouldEscape (c : ascii) : bool := negb (is_alnum c || contains_char c "-_.~").

Definition upperhex (n : N) : ascii :=
  if (n <? 10)%N then byte_of (48 + n) else byte_of (55 + n).

Fixpoint QueryEscape (s : string) : string :=
  match s with
  | "" => ""
  | String c r =>
    if Ascii.eqb c " " then String "+" (QueryEscape r)
    else if shouldEscape c then
      String "%" (String (upperhex (code c / 16)) (String (upperhex (code c mod 16))
        (QueryEscape r)))
    else String c (QueryEscape r)
  end.

(** [QueryUnescape]; [None] is an [EscapeError]. *)
Fixpoint QueryUnescape (s : string) : option string :=
  match s with
  | "" => Some ""
  | String c r =>
    if Ascii.eqb c "%" then
      match r with
      | String h1 (String h2 r') =>
        match json.hexval h1, json.hexval h2 with
        | Some a, Some b => String (byte_of (a * 16 + b)) <$> QueryUnescape r'
        | _, _ => None
        end
      | _ => None
      end
    else if Ascii.eqb c "+" then String " " <$> QueryUnescape r
    else String c <$> QueryUnescape r
  end.

Definition sorted_keys (v : Values) : list string :=
  merge_sort String.le (map fst (map_to_list v)).

(** One [key=value] pair written to the buffer of [Encode]. *)
Definition write_pair (key : string) (buf value : string) : string :=
  (if (0 <? String.length buf)%nat then buf +:+ "&" else buf)
  +:+ QueryEscape key +:+ "=" +:+ QueryEscape value.

(** [v.Encode()]: keys in sorted order, the values of a key in their
    order. *)
Definition Encode (v : Values) : string :=
  fold_left (fun buf key => fold_left (write_pair key) (Get_all v key) buf)
    (sorted_keys v) "".

(** [strings.Cut(s, sep)] for a one-byte separator: the text before the
    first [sep] and the text after it. *)
Fixpoint Cut (sep : ascii) (s : string) : string * string :=
  match s with
  | "" => ("", "")
  | String c r =>
    if Ascii.eqb c sep then ("", r)
    else let '(a, b) := Cut sep r in (String c a, b)
  end.

(** The pieces of [s] between the separators [sep]. *)
Fixpoint pieces (sep : ascii) (s : string) : list string :=
  match s with
  | "" => [""]
  | String c r =>
    if Ascii.eqb c sep then "" :: pieces sep r
    else
      match pieces sep r with
      | p :: ps => String c p :: ps
      | [] => [String c ""]
      end
  end.

Definition first_error (err : option error) (e : error) : option error :=
  match err with None => Some e | Some _ => err end.

(** The body of the loop of [parseQuery] for one piece of the query. *)
Definition parse_piece (st : Values * option error) (piece : string)
  : Values * option error :=
  let '(m, err) := st in
  if contains_char ";" piece
  then (m, Some (errors_New "invalid semicolon separator in query"))
  else if String.eqb piece "" then (m, err)
  else
    let '(key, value) := Cut "=" piece in
    match QueryUnescape key with
    | None => (m, first_error err (foreign "url.EscapeError"))
    | Some key =>
      match QueryUnescape value with
      | None => (m, first_error err (foreign "url.EscapeError"))
      | Some value => (Add key value m, err)
      end
    end.

(** [url.ParseQuery]. Its loop cuts the query at each ampersand; the
    pieces are taken here all at once (a last, empty piece is skipped like
    any empty piece). *)
Definition ParseQuery (query : string) : Values * option error :=
  fold_left parse_piece (pieces "&" query) (∅, None).

End url.

(** ** Go values as reflection shows them

    The parameter objects of this package are structs (or pointers to
    structs) whose fields are strings, integers, booleans, times, slices
    of these, or values of some other kind (maps, interfaces, UUIDs),
    which the query encoder prints with [fmt.Sprint]. *)

Module reflect.

Inductive scalar : Type :=
| String_ (s : string)
| Int (n : Z)
| Bool (b : bool)
| Time (t : time.Time)
| Other (sprint : string).

Inductive field_value : Type :=
| Scalar (x : scalar)
| Slice (xs : list scalar).

(** The [url] key of a field's struct tag as this package writes it:
    absent, ["-"], or a plain name (a non-empty name other than ["-"]
    without a comma; no tag of the package carries options). *)
Inductive url_tag : Type := NoTag | Omit | Named (name : string).

Record StructField : Type := {
  Name : string;
  url : url_tag;
  Value : field_value
}.

Record Struct : Type := { TypeName : string; Fields : list StructField }.

(** What an [any] argument holds when it is not nil. *)
Inductive dynamic : Type :=
| StructValue (s : Struct)
| Pointer (p : option Struct)
| NonStruct (kind : string).

End reflect.

(** [any]: [None] is the nil interface. A nil pointer of a pointer type
    is [Some (reflect.Pointer None)], which is not nil. *)
Definition any : Type := option reflect.dynamic.

(** ** go-querystring: query.Values *)

Module query.
Import reflect.

Definition valueString (x : scalar) : string :=
  match x with
  | String_ s => s
  | Int n => time.Itoa n
  | Bool b => if b then "true" else "false"
  | Time t => time.Format_RFC3339 t
  | Other sprint => sprint
  end.

(** The loop body of [reflectValue] for one field, at the top level
    (empty scope). *)
Definition reflectField (values : url.Values) (sf : StructField) : url.Values :=
  match url sf with
  | Omit => values
  | tag =>
    let name := match tag with Named n => n | _ => Name sf end in
    match Value sf with
    | Slice xs => fold_left (fun vs x => url.Add name (valueString x) vs) xs values
    | Scalar x => url.Add name (valueString x) values
    end
  end.

Definition reflectValue (values : url.Values) (val : Struct) : url.Values :=
  fold_left reflectField (Fields val) values.

(** [query.Values(v)] for a non-nil [v]. *)
Definition Values (v : dynamic) : outcome url.Values :=
  match v with
  | Pointer None => Ok ∅
  | Pointer (Some val) | StructValue val => Ok (reflectValue ∅ val)
  | NonStruct kind =>
    Err (errors_New ("query: Values() expects struct input. Got " +:+ kind))
  end.

End query.

(** ** io, mime/multipart, net/http, context *)

Module io.

(** A stream that delivers [content] and then ends, or fails with
    [failure] instead of ending. *)
Record stream : Type := { content : string; failure : option error }.

(** An [io.Reader]; [None] is the nil interface. *)
Definition Reader : Type := option stream.

Definition reader_of (bytes : string) : Reader :=
  Some {| content := bytes; failure := None |}.

(** [io.ReadAll] on the body of a response that has arrived in full. *)
Definition ReadAll (body : string) : outcome string := Ok body.

End io.

Module multipart.

(** A [multipart.Writer] over a [bytes.Buffer]: the bytes written so far,
    the boundary, and whether a part has been started. *)
Record Writer : Type := { buf : string; boundary : string; lastpart : bool }.

(** [multipart.NewWriter]; [boundary] is the random boundary it draws. *)
Definition NewWriter (boundary : string) : Writer :=
  {| buf := ""; boundary := boundary; lastpart := false |}.

Definition write (w : Writer) (bytes : string) : Writer :=
  {| buf := buf w +:+ bytes; boundary := boundary w; lastpart := lastpart w |}.

(** [escapeQuotes]: a backslash before every backslash and double quote. *)
Fixpoint escapeQuotes (s : string) : string :=
  match s with
  | "" => ""
  | String c r =>
    if Ascii.eqb c "\" || Ascii.eqb c dquote
    then String "\" (String c (escapeQuotes r))
    else String c (escapeQuotes r)
  end.

Definition header_lines (header : list (string * string)) : string :=
  String.concat "" (map (fun kv => fst kv +:+ ": " +:+ snd kv +:+ CRLF) header).

(** [w.CreatePart(header)], [header] listed in the order of its keys. *)
Definition CreatePart (w : Writer) (header : list (string * string)) : outcome Writer :=
  let delimiter :=
    if lastpart w then CRLF +:+ "--" +:+ boundary w +:+ CRLF
    else "--" +:+ boundary w +:+ CRLF in
  Ok {| buf := buf w +:+ delimiter +:+ header_lines header +:+ CRLF;
        boundary := boundary w;
        lastpart := true |}.

Definition file_header (fieldname filename : string) : list (string * string) :=
  [("Content-Disposition",
    "form-data; name=" +:+ quoted (escapeQuotes fieldname)
    +:+ "; filename=" +:+ quoted (escapeQuotes filename));
   ("Content-Type", "application/octet-stream")].

Definition field_header (fieldname : string) : list (string * string) :=
  [("Content-Disposition", "form-data; name=" +:+ quoted (escapeQuotes fieldname))].

Definition CreateFormFile (w : Writer) (fieldname filename : string) : outcome Writer :=
  CreatePart w (file_header fieldname filename).

Definition CreateFormField (w : Writer) (fieldname : string) : outcome Writer :=
  CreatePart w (field_header fieldname).

Definition WriteField (w : Writer) (fieldname value : string) : outcome Writer :=
  p ← CreateFormField w fieldname; Ok (write p value).

(** [io.Copy(part, r)] into the part just created. *)
Definition Copy (w : Writer) (r : io.Reader) : outcome Writer :=
  match r with
  | None => Panic nil_dereference
  | Some s =>
    match io.failure s with
    | Some e => Err e
    | None => Ok (write w (io.content s))
    end
  end.

Definition Close (w : Writer) : outcome Writer :=
  Ok {| buf := buf w +:+ CRLF +:+ "--" +:+ boundary w +:+ "--" +:+ CRLF;
        boundary := boundary w;
        lastpart := false |}.

Fixpoint contains_any (chars s : string) : bool :=
  match s with
  | "" => false
  | String c r => contains_char c chars || contains_any chars r
  end.

Definition tspecials : string := "()<>@,;:\" +:+ String dquote "/[]?= ".

Definition FormDataContentType (w : Writer) : string :=
  let b := boundary w in
  "multipart/form-data; boundary="
  +:+ (if contains_any tspecials b then quoted b else b).

End multipart.

(** [context.Context] as far as the client looks at it: nil or not; a
    context that is not nil is cancelled or not. *)
Inductive Context : Type := nilContext | Ctx (cancelled : bool).

Module http.

Definition StatusOK : Z := 200.

(** A request as handed to the HTTP client. [ReqBody] is [None] when the
    request was made with a nil body. *)
Record Request : Type := {
  ReqCtx : Context;
  Method : string;
  URL : string;
  Header : gmap string (list string);
  ReqBody : option string
}.

(** A response that has arrived: status and body. *)
Record Response : Type := { StatusCode : Z; Body : string }.

(** [req.Header.Set(key, value)] for a key in canonical form. *)
Definition Header_Set (key value : string) (req : Request) : Request :=
  {| ReqCtx := ReqCtx req; Method := Method req; URL := URL req;
     Header := <[key := [value]]> (Header req); ReqBody := ReqBody req |}.

Definition is_token_char (c : ascii) : bool :=
  is_alnum c || contains_char c "!#$%&'*+-.^_`|~".

Fixpoint all_chars (f : ascii -> bool) (s : string) : bool :=
  match s with
  | "" => true
  | String c r => f c && all_chars f r
  end.

Definition validMethod (method : string) : bool :=
  (0 <? String.length method)%nat && all_chars is_token_char method.

End http.

(** ** What the model leaves open

    [url.JoinPath], the error (if any) of [url.Parse] on a string, and
    [json.Marshal] on a parameter object. *)
Class Libraries : Type := {
  url_JoinPath : string -> string -> outcome string;
  url_Parse_error : string -> option error;
  json_Marshal : reflect.dynamic -> outcome string
}.

(** [http.NewRequestWithContext]. *)
Definition NewRequestWithContext `{Libraries} (ctx : Context) (method url : string)
  (body : option string) : outcome http.Request :=
  let method := if String.eqb method "" then "GET" else method in
  if negb (http.validMethod method) then Err (foreign "net/http: invalid method")
  else
    match ctx with
    | nilContext => Err (errors_New "net/http: nil Context")
    | Ctx _ =>
      match url_Parse_error url with
      | Some e => Err e
      | None =>
        Ok {| http.ReqCtx := ctx; http.Method := method; http.URL := url;
              http.Header := ∅; http.ReqBody := body |}
      end
    end.

(** [json.NewEncoder(buf).Encode(data)]: the document and a newline. *)
Definition Encoder_Encode `{Libraries} (data : reflect.dynamic) : outcome string :=
  doc ← json_Marshal data; Ok (doc +:+ String LF "").

(** ** The envelopes of client.go *)

Record ErrorResponse : Type := { Message : string }.

Definition ErrorResponse_store (key : string) (v : json.Value) (s : ErrorResponse)
  : json.D ErrorResponse :=
  if json.EqualFold key "message"
  then json.D_bind (json.unmarshal v (Message s)) (fun m => json.D_ret {| Message := m |})
  else json.D_ret s.

#[global] Instance ErrorResponse_Unmarshaler : json.Unmarshaler ErrorResponse := {
  zero := {| Message := "" |};
  unmarshal := json.unmarshal_struct ErrorResponse_store
}.

Record Response (T : Type) : Type := { Data : T }.
Arguments Data {T} r.

Definition Response_store {T} `{json.Unmarshaler T} (key : string) (v : json.Value)
  (s : Response T) : json.D (Response T) :=
  if json.EqualFold key "data"
  then json.D_bind (json.unmarshal v (Data s)) (fun d => json.D_ret {| Data := d |})
  else json.D_ret s.

#[global] Instance Response_Unmarshaler {T} `{json.Unmarshaler T}
  : json.Unmarshaler (Response T) := {
  zero := {| Data := json.zero |};
  unmarshal := json.unmarshal_struct Response_store
}.

(** ** client.go *)

Record ClientConfig : Type := {
  BaseURL : string;
  APIUser : string;
  Token : string;
  HTTPClient : http.Request -> outcome http.Response
}.

Record Client : Type := { config : ClientConfig }.

(** Calls that talk to the server: the requests handed to the HTTP
    client, in order, and what the call comes to. *)
Record IO (A : Type) : Type := mkIO { sent : list http.Request; result : outcome A }.
Arguments mkIO {A} sent result.
Arguments sent {A} i.
Arguments result {A} i.

#[global] Instance IO_ret : MRet IO := fun _ a => mkIO [] (Ok a).
#[global] Instance IO_bind : MBind IO := fun _ _ k m =>
  match result m with
  | Ok a => mkIO (sent m ++ sent (k a)) (result (k a))
  | Err e => mkIO (sent m) (Err e)
  | Panic p => mkIO (sent m) (Panic p)
  end.

(** A step that does not talk to the server. *)
Definition pure {A} (r : outcome A) : IO A := mkIO [] r.

(** [c.config.HTTPClient.Do(req)]. *)
Definition Do (c : Client) (req : http.Request) : IO http.Response :=
  mkIO [req] (HTTPClient (config c) req).

Definition auth (c : Client) : string :=
  "token " +:+ APIUser (config c) +:+ ":" +:+ Token (config c).

Definition do `{Libraries} (c : Client) (ctx : Context) (method path : string)
  (data : any) : IO http.Response :=
  endpoint ← pure (url_JoinPath (BaseURL (config c)) path);
  endpoint ← pure
    match data with
    | Some d =>
      q ← query.Values d;
      let encoded := url.Encode q in
      if (0 <? String.length encoded)%nat
      then Ok (endpoint +:+ "?" +:+ url.Encode q)
      else Ok endpoint
    | None => Ok endpoint
    end;
  body ← pure
    match String.eqb method "POST" || String.eqb method "PUT", data with
    | true, Some d => Some <$> Encoder_Encode d
    | _, _ => Ok None
    end;
  req ← pure (NewRequestWithContext ctx method endpoint body);
  let req := http.Header_Set "Authorization" (auth c) req in
  let req := http.Header_Set "Content-Type" "application/json" req in
  resp ← Do c req;
  mret resp.

Definition is_POST_or_PUT (method : string) : bool :=
  String.eqb method "POST" || String.eqb method "PUT".

(** The request that [do] hands to the HTTP client when none of its
    steps before that fails (see [do_unfold]). *)
Definition do_request `{Libraries} (c : Client) (ctx : Context) (method path : string)
  (data : any) : outcome http.Request :=
  endpoint ← url_JoinPath (BaseURL (config c)) path;
  endpoint ←
    match data with
    | Some d =>
      q ← query.Values d;
      if (0 <? String.length (url.Encode q))%nat
      then Ok (endpoint +:+ "?" +:+ url.Encode q)
      else Ok endpoint
    | None => Ok endpoint
    end;
  body ←
    match String.eqb method "POST" || String.eqb method "PUT", data with
    | true, Some d => Some <$> Encoder_Encode d
    | _, _ => Ok None
    end;
  req ← NewRequestWithContext ctx method endpoint body;
  Ok (http.Header_Set "Content-Type" "application/json"
        (http.Header_Set "Authorization" (auth c) req)).

(** The loops of [multipart] over its two maps, each given as its
    entries in the order the [range] statement visits them. *)
Fixpoint write_files (w : multipart.Writer) (files : list (string * io.Reader))
  : outcome multipart.Writer :=
  match files with
  | [] => Ok w
  | (key, r) :: rest =>
    w ← multipart.CreateFormFile w key key;
    w ← multipart.Copy w r;
    write_files w rest
  end.

Fixpoint write_fields (w : multipart.Writer) (fields : list (string * string))
  : outcome multipart.Writer :=
  match fields with
  | [] => Ok w
  | (key, value) :: rest =>
    w ← multipart.WriteField w key value;
    write_fields w rest
  end.

(** [c.multipart]; [boundary] is the boundary that [multipart.NewWriter]
    draws at random. *)
Definition multipart `{Libraries} (boundary : string) (c : Client) (ctx : Context)
  (path : string) (fields : list (string * string)) (files : list (string * io.Reader))
  : IO http.Response :=
  endpoint ← pure (url_JoinPath (BaseURL (config c)) path);
  let writer := multipart.NewWriter boundary in
  writer ← pure (write_files writer files);
  writer ← pure (write_fields writer fields);
  writer ← pure (multipart.Close writer);
  req ← pure (NewRequestWithContext ctx "POST" endpoint (Some (multipart.buf writer)));
  let req := http.Header_Set "Authorization" (auth c) req in
  let req := http.Header_Set "Content-Type" (multipart.FormDataContentType writer) req in
  resp ← Do c req;
  mret resp.

Definition decode (T : Type) `{json.Unmarshaler T} (resp : http.Response) : outcome T :=
  if negb (http.StatusCode resp =? http.StatusOK)%Z then
    data ← json.Decode (http.Body resp) (json.zero (T := ErrorResponse));
    Err (errors_New (Message data))
  else
    data ← json.Decode (http.Body resp) (json.zero (T := T));
    Ok data.

Definition request (T : Type) `{json.Unmarshaler T} `{Libraries} (client : Client)
  (ctx : Context) (method path : string) (data : any) : IO T :=
  resp ← do client ctx method path data;
  pure (decode T resp).

(** ** The endpoint functions the properties are about *)

(** The response payloads whose decoding the properties do not depend on:
    each is a type that JSON can be decoded into. *)
Class Payloads : Type := {
  Subscriber : Type;
  Subscriber_json :: json.Unmarshaler Subscriber;
  GetSubscribersResponse : Type;
  GetSubscribersResponse_json :: json.Unmarshaler GetSubscribersResponse;
  ExportSubscriberResponse : Type;
  ExportSubscriberResponse_json :: json.Unmarshaler ExportSubscriberResponse;
  PublicListEntry : Type;
  PublicListEntry_json :: json.Unmarshaler PublicListEntry;
  TimeSeriesData : Type;
  TimeSeriesData_json :: json.Unmarshaler TimeSeriesData;
  Template : Type;
  Template_json :: json.Unmarshaler Template;
  ImportSubscribersResponse : Type;
  ImportSubscribersResponse_json :: json.Unmarshaler ImportSubscribersResponse;
  UploadMediaResponse : Type;
  UploadMediaResponse_json :: json.Unmarshaler UploadMediaResponse
}.

Record GetSubscribersParams : Type := {
  Query : string;
  ListID : list Z;
  SubscriptionStatus : string;
  OrderBy : string;
  Order : string;
  Page : Z;
  PerPage : Z
}.

Definition plain (name tag : string) (x : reflect.scalar) : reflect.StructField :=
  {| reflect.Name := name; reflect.url := reflect.Named tag;
     reflect.Value := reflect.Scalar x |}.

Definition repeated (name tag : string) (xs : list reflect.scalar) : reflect.StructField :=
  {| reflect.Name := name; reflect.url := reflect.Named tag;
     reflect.Value := reflect.Slice xs |}.

(** The fields of a [GetSubscribersParams] with their [url] tags. *)
Definition GetSubscribersParams_struct (p : GetSubscribersParams) : reflect.Struct :=
  {| reflect.TypeName := "GetSubscribersParams";
     reflect.Fields :=
       [plain "Query" "query" (reflect.String_ (Query p));
        repeated "ListID" "list_id" (reflect.Int <$> ListID p);
        plain "SubscriptionStatus" "subscription_status"
          (reflect.String_ (SubscriptionStatus p));
        plain "OrderBy" "order_by" (reflect.String_ (OrderBy p));
        plain "Order" "order" (reflect.String_ (Order p));
        plain "Page" "page" (reflect.Int (Page p));
        plain "PerPage" "per_page" (reflect.Int (PerPage p))] |}.

(** A parameter pointer [*T] passed as [any]. *)
Definition pointer_arg {T} (to_struct : T -> reflect.Struct) (params : option T) : any :=
  Some (reflect.Pointer (to_struct <$> params)).

Definition GetSubscribers `{Libraries} `{Payloads} (c : Client) (ctx : Context)
  (params : option GetSubscribersParams) : IO (option GetSubscribersResponse) :=
  let path := "/api/subscribers" in
  resp ← request (Response (option GetSubscribersResponse)) c ctx "GET" path
           (pointer_arg GetSubscribersParams_struct params);
  mret (Data resp).

Definition GetSubscriber `{Libraries} `{Payloads} (c : Client) (ctx : Context) (id : Z)
  : IO (option Subscriber) :=
  let path := "/api/subscribers/" +:+ time.Itoa id in
  resp ← request (Response (option Subscriber)) c ctx "GET" path None;
  mret (Data resp).

Definition ExportSubscriber `{Libraries} `{Payloads} (c : Client) (ctx : Context) (id : Z)
  : IO (option ExportSubscriberResponse) :=
  let path := "/api/subscribers/" +:+ time.Itoa id +:+ "/export" in
  resp ← request (option ExportSubscriberResponse) c ctx "GET" path None;
  mret resp.

Definition GetPublicLists `{Libraries} `{Payloads} (c : Client) (ctx : Context)
  : IO (list PublicListEntry) :=
  let path := "/api/public/lists" in
  resp ← request (json.slice PublicListEntry) c ctx "GET" path None;
  mret (json.elems resp).

Record GetCampaignViewsParams : Type := {
  IDs : list Z;
  Type_ : string;
  From : time.Time;
  To : time.Time
}.

Definition GetCampaignViewsParams_struct (p : GetCampaignViewsParams) : reflect.Struct :=
  {| reflect.TypeName := "GetCampaignViewsParams";
     reflect.Fields :=
       [repeated "IDs" "id" (reflect.Int <$> IDs p);
        {| reflect.Name := "Type"; reflect.url := reflect.Omit;
           reflect.Value := reflect.Scalar (reflect.String_ (Type_ p)) |};
        plain "From" "from" (reflect.Time (From p));
        plain "To" "to" (reflect.Time (To p))] |}.

Definition GetCampaignViews `{Libraries} `{Payloads} (c : Client) (ctx : Context)
  (params : option GetCampaignViewsParams) : IO TimeSeriesData :=
  match params with
  | None => pure (Panic nil_dereference)
  | Some p =>
    let path := "/api/campaigns/analytics/" +:+ Type_ p in
    resp ← request (Response TimeSeriesData) c ctx "GET" path
             (pointer_arg GetCampaignViewsParams_struct params);
    mret (Data resp)
  end.

Definition GetCampaignPreview `{Libraries} (c : Client) (ctx : Context) (id : Z)
  : IO string :=
  let path := "/api/campaigns/" +:+ time.Itoa id +:+ "/preview" in
  resp ← do c ctx "GET" path None;
  if negb (http.StatusCode resp =? http.StatusOK)%Z then
    pure (data ← json.Decode (http.Body resp) (json.zero (T := ErrorResponse));
          Err (errors_New (Message data)))
  else
    body ← pure (io.ReadAll (http.Body resp));
    mret body.

Definition GetTemplatePreview `{Libraries} (c : Client) (ctx : Context) (id : Z)
  : IO string :=
  let path := "/api/templates/" +:+ time.Itoa id +:+ "/preview" in
  resp ← do c ctx "GET" path None;
  if negb (http.StatusCode resp =? http.StatusOK)%Z then
    pure (data ← json.Decode (http.Body resp) (json.zero (T := ErrorResponse));
          Err (errors_New (Message data)))
  else
    body ← pure (io.ReadAll (http.Body resp));
    mret body.

Record CreateTemplateParams : Type := {
  Name : string;
  TemplateType : string;
  Subject : string;
  Body : string;
  BodySource : string
}.

(** [&s[0]]. *)
Definition first_element {T} (s : json.slice T) : outcome T :=
  match json.elems s with
  | [] => Panic index_out_of_range
  | x :: _ => Ok x
  end.

Definition CreateTemplate `{Libraries} `{Payloads} (c : Client) (ctx : Context)
  (params : option CreateTemplateParams) : IO Template :=
  let path := "/api/templates" in
  resp ← request (Response (json.slice Template)) c ctx "POST" path None;
  pure (first_element (Data resp)).

Definition UpdateTemplate `{Libraries} `{Payloads} (c : Client) (ctx : Context) (id : Z)
  : IO Template :=
  let path := "/api/templates/" +:+ time.Itoa id in
  resp ← request (Response (json.slice Template)) c ctx "PUT" path None;
  pure (first_element (Data resp)).

Record ImportSubscribersConfig : Type := {
  Mode : string;
  Delimeter : string;
  Lists : list Z;
  Overwrite : bool
}.

Definition untagged (name : string) (v : reflect.field_value) : reflect.StructField :=
  {| reflect.Name := name; reflect.url := reflect.NoTag; reflect.Value := v |}.

Definition ImportSubscribersConfig_struct (cfg : ImportSubscribersConfig) : reflect.Struct :=
  {| reflect.TypeName := "ImportSubscribersConfig";
     reflect.Fields :=
       [untagged "Mode" (reflect.Scalar (reflect.String_ (Mode cfg)));
        untagged "Delimeter" (reflect.Scalar (reflect.String_ (Delimeter cfg)));
        untagged "Lists" (reflect.Slice (reflect.Int <$> Lists cfg));
        untagged "Overwrite" (reflect.Scalar (reflect.Bool (Overwrite cfg)))] |}.

Record ImportSubscribersParams : Type := {
  Config : ImportSubscribersConfig;
  File : io.Reader
}.

Definition ImportSubscribers `{Libraries} `{Payloads} (boundary : string) (c : Client)
  (ctx : Context) (params : option ImportSubscribersParams)
  : IO (option ImportSubscribersResponse) :=
  let path := "/api/import/subscribers" in
  match params with
  | None => pure (Panic nil_dereference)
  | Some p =>
    config ← pure (json_Marshal (reflect.StructValue (ImportSubscribersConfig_struct (Config p))));
    resp ← multipart boundary c ctx path [("params", config)] [("file", File p)];
    data ← pure (decode (Response (option ImportSubscribersResponse)) resp);
    mret (Data data)
  end.

Definition UploadMedia `{Libraries} `{Payloads} (boundary : string) (c : Client)
  (ctx : Context) (file : io.Reader) : IO (option UploadMediaResponse) :=
  let path := "/api/media" in
  resp ← multipart boundary c ctx path [] [("file", file)];
  data ← pure (decode (Response (option UploadMediaResponse)) resp);
  mret (Data data).

(** ** A multipart/form-data document

    What the properties mean by the document a multipart call builds: the
    parts, each behind a delimiter line with the boundary, separated by
    line breaks, and the closing delimiter after the last. *)

Inductive part : Type :=
| FilePart (name content : string)
| FieldPart (name value : string).

Definition part_text (boundary : string) (p : part) : string :=
  "--" +:+ boundary +:+ CRLF
  +:+ match p with
      | FilePart name content =>
        multipart.header_lines (multipart.file_header name name) +:+ CRLF +:+ content
      | FieldPart name value =>
        multipart.header_lines (multipart.field_header name) +:+ CRLF +:+ value
      end.

Definition document (boundary : string) (parts : list part) : string :=
  String.concat CRLF (map (part_text boundary) parts)
  +:+ CRLF +:+ "--" +:+ boundary +:+ "--" +:+ CRLF.

(** The text that a run of parts adds to a buffer: a line break before
    each part but the very first of the document. *)
Fixpoint parts_text (started : bool) (boundary : string) (parts : list part) : string :=
  match parts with
  | [] => ""
  | p :: rest =>
    (if started then CRLF else "") +:+ part_text boundary p
    +:+ parts_text true boundary rest
  end.

(** Whether a part has been started once [entries] have been written. *)
Definition started_after {A} (started : bool) (entries : list A) : bool :=
  match entries with [] => started | _ :: _ => true end.

Definition stream_content (r : io.Reader) : string :=
  match r with Some s => io.content s | None => "" end.

Definition file_parts (files : list (string * io.Reader)) : list part :=
  map (fun entry => FilePart (fst entry) (stream_content (snd entry))) files.

Definition field_parts (fields : list (string * string)) : list part :=
  map (fun entry => FieldPart (fst entry) (snd entry)) fields.

(** The request that [multipart] hands to the HTTP client when none of
    its steps before that fails (see [multipart_unfold]). *)
Definition multipart_request `{Libraries} (boundary : string) (c : Client) (ctx : Context)
  (path : string) (fields : list (string * string)) (files : list (string * io.Reader))
  : outcome http.Request :=
  endpoint ← url_JoinPath (BaseURL (config c)) path;
  writer ← write_files (multipart.NewWriter boundary) files;
  writer ← write_fields writer fields;
  writer ← multipart.Close writer;
  req ← NewRequestWithContext ctx "POST" endpoint (Some (multipart.buf writer));
  Ok (http.Header_Set "Content-Type" (multipart.FormDataContentType writer)
        (http.Header_Set "Authorization" (auth c) req)).

(** ** Reading a query string *)

(** What [QueryEscape] writes for one byte. *)
Definition escape_char (c : ascii) : string := url.QueryEscape (String c "").

(** The text of one key/value pair in an encoded query string. *)
Definition pair_text (p : string * string) : string :=
  url.QueryEscape (fst p) +:+ "=" +:+ url.QueryEscape (snd p).

Definition pairs_under (v : url.Values) (key : string) : list (string * string) :=
  (fun x => (key, x)) <$> url.Get_all v key.

(** The key/value pairs of [v] in the order in which [Encode] writes
    them. *)
Definition encoded_pairs (v : url.Values) : list (string * string) :=
  flat_map (pairs_under v) (url.sorted_keys v).

Definition add_pair (m : url.Values) (p : string * string) : url.Values :=
  url.Add (fst p) (snd p) m.

(** A map in which every key has at least one value, as every map made
    with [Add] is. *)
Definition no_empty_entry (v : url.Values) : Prop := ∀ k, v !! k ≠ Some [].

(** Adding several values under one key, in order. *)
Definition add_all (name : string) (values : list string) (m : url.Values) : url.Values :=
  fold_left (fun vs r => url.Add name r vs) values m.

(** The query key under which the encoder puts a field, if it does. *)
Definition field_key (sf : reflect.StructField) : option string :=
  match reflect.url sf with
  | reflect.Omit => None
  | reflect.Named name => Some name
  | reflect.NoTag => Some (reflect.Name sf)
  end.

(** The texts the encoder writes for a field's value: one for a scalar,
    one per element for a slice. *)
Definition renderings (v : reflect.field_value) : list string :=
  match v with
  | reflect.Scalar x => [query.valueString x]
  | reflect.Slice xs => query.valueString <$> xs
  end.

Definition renderings_under (key : string) (sf : reflect.StructField) : list string :=
  if decide (field_key sf = Some key) then renderings (reflect.Value sf) else [].

(** The struct that a non-nil data object is or points to. *)
Definition struct_of (d : reflect.dynamic) : option reflect.Struct :=
  match d with
  | reflect.StructValue s => Some s
  | reflect.Pointer p => p
  | reflect.NonStruct _ => None
  end.

(** Whether a field holds the zero value of its type. *)
Definition is_zero_value (v : reflect.field_value) : bool :=
  match v with
  | reflect.Scalar (reflect.String_ s) => String.eqb s ""
  | reflect.Scalar (reflect.Int n) => (n =? 0)%Z
  | reflect.Scalar (reflect.Bool b) => negb b
  | reflect.Scalar (reflect.Time t) =>
    (time.unix t =? -62135596800)%Z && (time.nsec t =? 0)%Z
  | reflect.Scalar (reflect.Other _) => false
  | reflect.Slice xs => match xs with [] => true | _ => false end
  end.

(** The reading of the zero-value sentence that the code does not meet:
    no key of a field that holds a zero value occurs in the query. *)
Definition omits_zero_values (s : reflect.Struct) : Prop :=
  ∀ sf key,
    sf ∈ reflect.Fields s → field_key sf = Some key →
    is_zero_value (reflect.Value sf) = true →
    (query.reflectValue ∅ s) !! key = None.

(** The query string that [do] appends for a data object. *)
Definition encoded_query (d : reflect.dynamic) : outcome string :=
  q ← query.Values d; Ok (url.Encode q).

Definition GetSubscribersParams_zero : GetSubscribersParams :=
  {| Query := ""; ListID := []; SubscriptionStatus := ""; OrderBy := ""; Order := "";
     Page := 0; PerPage := 0 |}.

Definition noon : time.Time :=
  {| time.unix := 1700000000; time.nsec := 0; time.offset := 0 |}.
Definition just_after_noon : time.Time :=
  {| time.unix := 1700000000; time.nsec := 500000000; time.offset := 0 |}.

Definition views_of_campaign_1 : GetCampaignViewsParams :=
  {| IDs := [1%Z]; Type_ := "views"; From := noon; To := noon |}.
Definition clicks_of_campaign_1 : GetCampaignViewsParams :=
  {| IDs := [1%Z]; Type_ := "clicks"; From := noon; To := noon |}.
Definition views_from_just_after_noon : GetCampaignViewsParams :=
  {| IDs := [1%Z]; Type_ := "views"; From := just_after_noon; To := noon |}.

(** ** Sample values

    A stand-in for the libraries left open, payloads kept as raw JSON,
    and servers that answer every request alike. *)

Definition sample_libraries : Libraries := {|
  url_JoinPath base path := Ok (base +:+ path);
  url_Parse_error _ := None;
  json_Marshal _ := Ok "{}"
|}.

Definition sample_payloads : Payloads := {|
  Subscriber := json.Value; Subscriber_json := json.raw_Unmarshaler;
  GetSubscribersResponse := json.Value; GetSubscribersResponse_json := json.raw_Unmarshaler;
  ExportSubscriberResponse := json.Value;
  ExportSubscriberResponse_json := json.raw_Unmarshaler;
  PublicListEntry := json.Value; PublicListEntry_json := json.raw_Unmarshaler;
  TimeSeriesData := json.Value; TimeSeriesData_json := json.raw_Unmarshaler;
  Template := json.Value; Template_json := json.raw_Unmarshaler;
  ImportSubscribersResponse := json.Value;
  ImportSubscribersResponse_json := json.raw_Unmarshaler;
  UploadMediaResponse := json.Value; UploadMediaResponse_json := json.raw_Unmarshaler
|}.

Definition answering (status : Z) (body : string) : Client :=
  {| config := {| BaseURL := "http://localhost:9000"; APIUser := "api"; Token := "secret";
                  HTTPClient := fun _ => Ok {| http.StatusCode := status; http.Body := body |} |} |}.

Definition invalid_email_body : string :=
  "{" +:+ quoted "message" +:+ ": " +:+ quoted "invalid email" +:+ "}".

Definition empty_data_body : string := "{" +:+ quoted "data" +:+ ": []}".

(** ** Building a client *)

(** A [ConfigOption]: a function that updates the configuration it is
    given; [None] is a nil function value. *)
Definition ConfigOption : Type := option (ClientConfig -> ClientConfig).

Definition WithBaseURL (baseUrl : string) : ConfigOption :=
  Some (fun cc => {| BaseURL := baseUrl; APIUser := APIUser cc; Token := Token cc;
                     HTTPClient := HTTPClient cc |}).

Definition WithAPIUser (apiUser : string) : ConfigOption :=
  Some (fun cc => {| BaseURL := BaseURL cc; APIUser := apiUser; Token := Token cc;
                     HTTPClient := HTTPClient cc |}).

Definition WithToken (token : string) : ConfigOption :=
  Some (fun cc => {| BaseURL := BaseURL cc; APIUser := APIUser cc; Token := token;
                     HTTPClient := HTTPClient cc |}).

Definition WithHTTPClient (client : http.Request -> outcome http.Response) : ConfigOption :=
  Some (fun cc => {| BaseURL := BaseURL cc; APIUser := APIUser cc; Token := Token cc;
                     HTTPClient := client |}).

Definition NewWithConfig (config : ClientConfig) : Client := {| config := config |}.

(** The loop of [New] over its options. *)
Fixpoint apply_options (options : list ConfigOption) (config : ClientConfig)
  : outcome ClientConfig :=
  match options with
  | [] => Ok config
  | Some option :: rest => apply_options rest (option config)
  | None :: _ => Panic nil_dereference
  end.

(** [New]; [DefaultClient] is [http.DefaultClient]. *)
Definition New (DefaultClient : http.Request -> outcome http.Response)
  (options : list ConfigOption) : outcome Client :=
  config ← apply_options options
             {| BaseURL := ""; APIUser := ""; Token := ""; HTTPClient := DefaultClient |};
  Ok (NewWithConfig config).

(** ** More endpoint functions *)

(** The local [params] struct of [DeleteSubscribers] and [DeleteBounces]:
    one field [IDs], tagged [url:"id"]. *)
Definition id_params (ids : list Z) : reflect.Struct :=
  {| reflect.TypeName := "params";
     reflect.Fields := [repeated "IDs" "id" (reflect.Int <$> ids)] |}.

Definition DeleteSubscribers `{Libraries} (c : Client) (ctx : Context) (ids : list Z)
  : IO bool :=
  let path := "/api/subscribers" in
  resp ← request (Response bool) c ctx "DELETE" path
           (Some (reflect.StructValue (id_params ids)));
  mret (Data resp).

Definition DeleteBounces `{Libraries} (c : Client) (ctx : Context) (ids : list Z)
  : IO bool :=
  let path := "/api/bounces" in
  resp ← request (Response bool) c ctx "DELETE" path
           (Some (reflect.StructValue (id_params ids)));
  mret (Data resp).

(** The local [params] struct of [BlocklistSubscribers]: one field [IDs]
    with a [json] tag only. *)
Definition ids_body_params (ids : list Z) : reflect.Struct :=
  {| reflect.TypeName := "params";
     reflect.Fields := [untagged "IDs" (reflect.Slice (reflect.Int <$> ids))] |}.

Definition BlocklistSubscribers `{Libraries} (c : Client) (ctx : Context) (ids : list Z)
  : IO bool :=
  let path := "/api/subscribers/blocklist" in
  resp ← request (Response bool) c ctx "PUT" path
           (Some (reflect.StructValue (ids_body_params ids)));
  mret (Data resp).

Module Subscription.

(** [CreateSubscriptionParams]. A [uuid.UUID] is given by its canonical
    text, which is what [fmt.Sprint] prints for it. *)
Record Params : Type := {
  Email : string;
  Name : string;
  ListUUIDs : list string
}.

Definition Params_struct (p : Params) : reflect.Struct :=
  {| reflect.TypeName := "CreateSubscriptionParams";
     reflect.Fields :=
       [untagged "Email" (reflect.Scalar (reflect.String_ (Email p)));
        untagged "Name" (reflect.Scalar (reflect.String_ (Name p)));
        untagged "ListUUIDs" (reflect.Slice (reflect.Other <$> ListUUIDs p))] |}.

End Subscription.

(** *** Decoding into [any]

    A number stored into an [any] becomes a float64, by
    [strconv.ParseFloat(lit, 64)]: a literal whose value rounds beyond the
    largest float64 is a range error, which the decoder saves as an
    unmarshal type error. *)

(** The digits at the head of [s], and what follows them. *)
Fixpoint leading_digits (s : string) : string * string :=
  match s with
  | "" => ("", "")
  | String c r =>
    if is_digit c
    then let '(digits, rest) := leading_digits r in (String c digits, rest)
    else ("", s)
  end.

(** A JSON number literal as a mantissa [m] and a decimal exponent [e]:
    its absolute value is [m * 10^e]. *)
Definition decimal_of (lit : string) : option (Z * Z) :=
  let unsigned :=
    match lit with
    | String c r => if Ascii.eqb c "-" then r else lit
    | "" => lit
    end in
  let '(int, rest) := leading_digits unsigned in
  let '(frac, rest) :=
    match rest with
    | String c r => if Ascii.eqb c "." then leading_digits r else ("", rest)
    | "" => ("", "")
    end in
  let exp :=
    match rest with
    | "" => Some 0%Z
    | String c r =>
      if Ascii.eqb c "e" || Ascii.eqb c "E" then
        match r with
        | "" => None
        | String sign r' =>
          if Ascii.eqb sign "-" then Z.opp <$> json.digits_value 0 r'
          else if Ascii.eqb sign "+" then json.digits_value 0 r'
          else json.digits_value 0 r
        end
      else None
    end in
  match json.digits_value 0 (int +:+ frac), exp with
  | Some m, Some e => Some (m, (e - Z.of_nat (String.length frac))%Z)
  | _, _ => None
  end.

(** The least absolute value that rounds beyond the largest float64:
    half a unit in the last place above it (the tie rounds to even,
    which is upwards). *)
Definition float64_limit : Z := 2 ^ 1024 - 2 ^ 970.

(** Whether [strconv.ParseFloat(lit, 64)] returns an error. *)
Definition ParseFloat_fails (lit : string) : bool :=
  match decimal_of lit with
  | Some (m, e) =>
    if (0 <=? e)%Z then (float64_limit <=? m * 10 ^ e)%Z
    else (float64_limit * 10 ^ (- e) <=? m)%Z
  | None => true
  end.

(** Running a decoder over the elements of a list, in order. *)
Fixpoint D_map {A B} (f : A -> json.D B) (l : list A) : json.D (list B) :=
  match l with
  | [] => json.D_ret []
  | x :: rest =>
    json.D_bind (f x) (fun y =>
    json.D_bind (D_map f rest) (fun ys =>
    json.D_ret (y :: ys)))
  end.

(** [valueInterface]: the Go value for a JSON value inside an [any],
    given as the JSON value it holds (an object stands for the map of its
    members, a number for the float64 nearest to it). A number that
    [ParseFloat] refuses is saved as an error and leaves nil in its
    place. *)
Fixpoint valueInterface (j : json.Value) : json.D json.Value :=
  match j with
  | json.Number lit =>
    if ParseFloat_fails lit
    then json.D_bind (json.saveError UnmarshalTypeError) (fun _ => json.D_ret json.Null)
    else json.D_ret j
  | json.Array js =>
    json.D_bind (D_map valueInterface js) (fun vs => json.D_ret (json.Array vs))
  | json.Object members =>
    json.D_bind
      (D_map (fun member =>
                json.D_bind (valueInterface (snd member)) (fun v =>
                json.D_ret (fst member, v))) members)
      (fun vs => json.D_ret (json.Object vs))
  | _ => json.D_ret j
  end.

(** Storing into a field of type [any]: a number that [ParseFloat]
    refuses leaves the field as it was. *)
Definition any_Unmarshaler : json.Unmarshaler json.Value := {|
  json.zero := json.Null;
  json.unmarshal j old :=
    match j with
    | json.Number lit =>
      if ParseFloat_fails lit then json.mismatch old else json.D_ret j
    | _ => valueInterface j
    end
|}.

(** Whether a JSON value holds a number that [ParseFloat] refuses. *)
Fixpoint number_out_of_range (j : json.Value) : bool :=
  match j with
  | json.Number lit => ParseFloat_fails lit
  | json.Array js => existsb number_out_of_range js
  | json.Object members => existsb (fun member => number_out_of_range (snd member)) members
  | _ => false
  end.

(** Whether some member stored into the field [data] does. *)
Definition data_out_of_range (members : list (string * json.Value)) : bool :=
  existsb (fun member =>
    json.EqualFold (fst member) "data" && number_out_of_range (snd member)) members.

(** The saved error after a value that is [bad] or not: the first error
    is kept. *)
Definition noted (bad : bool) (saved : option error) : option error :=
  if bad then match saved with None => Some UnmarshalTypeError | Some _ => saved end
  else saved.

(** [Response[any]]. *)
Definition Response_any_Unmarshaler : json.Unmarshaler (Response json.Value) :=
  Response_Unmarshaler (H := any_Unmarshaler).

Definition CreateSubscription `{Libraries} (c : Client) (ctx : Context)
  (params : option Subscription.Params) : IO bool :=
  let path := "/api/public/subscription" in
  _ ← request (Response json.Value) (H := Response_any_Unmarshaler) c ctx "POST" path
        (pointer_arg Subscription.Params_struct params);
  mret true.

(** Bytes that [QueryEscape] leaves as they are. *)
Definition unescaped (c : ascii) : bool :=
  negb (url.shouldEscape c) && negb (Ascii.eqb c " ").

(** The failure of the first stream of [files] that is nil or fails, if
    there is one: what [write_files] comes to then. *)
Fixpoint first_bad_stream (files : list (string * io.Reader)) : option (outcome unit) :=
  match files with
  | [] => None
  | (_, None) :: _ => Some (Panic nil_dereference)
  | (_, Some s) :: rest =>
    match io.failure s with
    | Some e => Some (Err e)
    | None => first_bad_stream rest
    end
  end.

(** A server that refuses every request with a transport error. *)
Definition unreachable_server : Client :=
  {| config := {| BaseURL := "http://localhost:9000"; APIUser := "api"; Token := "secret";
                  HTTPClient := fun _ => Err (foreign "dial tcp: connection refused") |} |}.

(** ** Members of the envelopes *)

(** A JSON value of the shape [{data: ...}]: an object with a member
    that is stored into the field [data]. *)
Definition envelope_shaped (j : json.Value) : bool :=
  match j with
  | json.Object members => existsb (fun member => json.EqualFold (fst member) "data") members
  | _ => false
  end.

(** A decoder that never stops and never panics, and saves no error but
    an unmarshal type error. *)
Definition saves_type_errors_only {T} (U : json.Unmarshaler T) : Prop :=
  ∀ j old saved, ∃ v saved',
    json.unmarshal j old saved = Ok (v, saved')
    ∧ (saved' = saved ∨ saved' = Some UnmarshalTypeError).

(** No member of the object is stored into the field [name]. *)
Definition no_member_named (name : string) (members : list (string * json.Value)) : Prop :=
  Forall (fun member => json.EqualFold (fst member) name = false) members.

(** Whether some member that is stored into the field [message] holds a
    value that is neither a string nor null. *)
Definition message_of_wrong_kind (members : list (string * json.Value)) : bool :=
  existsb (fun member =>
    json.EqualFold (fst member) "message"
    && match snd member with json.String_ _ | json.Null => false | _ => true end) members.

(** The message that the members leave in the envelope: the last string
    stored into the field [message]. *)
Definition stored_message (members : list (string * json.Value)) (old : string) : string :=
  fold_left (fun message member =>
    if json.EqualFold (fst member) "message"
    then match snd member with json.String_ s => s | _ => message end
    else message) members old.

(** ** The options of [New] as data *)

(** One of the four options of this package, by the field it sets. *)
Inductive setting : Type :=
  | BaseURL_is (baseUrl : string)
  | APIUser_is (apiUser : string)
  | Token_is (token : string)
  | HTTPClient_is (client : http.Request -> outcome http.Response).

Definition option_of (s : setting) : ConfigOption :=
  match s with
  | BaseURL_is baseUrl => WithBaseURL baseUrl
  | APIUser_is apiUser => WithAPIUser apiUser
  | Token_is token => WithToken token
  | HTTPClient_is client => WithHTTPClient client
  end.

(** The value that the last setting chosen by [pick] gives, [default]
    when there is none. *)
Definition last_setting {A} (pick : setting -> option A) (settings : list setting)
  (default : A) : A :=
  fold_left (fun current s => match pick s with Some x => x | None => current end)
    settings default.

Definition base_url_of (s : setting) : option string :=
  match s with BaseURL_is x => Some x | _ => None end.
Definition api_user_of (s : setting) : option string :=
  match s with APIUser_is x => Some x | _ => None end.
Definition token_of (s : setting) : option string :=
  match s with Token_is x => Some x | _ => None end.
Definition http_client_of (s : setting) : option (http.Request -> outcome http.Response) :=
  match s with HTTPClient_is x => Some x | _ => None end.

(** ** GetCampaign *)

(** The local [params] struct of [GetCampaign]: one field [NoBody],
    tagged [url:"no_body"]. *)
Definition no_body_params (noBody : bool) : reflect.Struct :=
  {| reflect.TypeName := "params";
     reflect.Fields := [plain "NoBody" "no_body" (reflect.Bool noBody)] |}.

Definition GetCampaign {Campaign : Type} `{json.Unmarshaler Campaign} `{Libraries}
  (c : Client) (ctx : Context) (id : Z) (noBody : bool) : IO (option Campaign) :=
  let path := "/api/campaigns/" +:+ time.Itoa id in
  resp ← request (Response (option Campaign)) c ctx "GET" path
           (Some (reflect.StructValue (no_body_params noBody)));
  mret (Data resp).

(** ** net/textproto: header keys in canonical form *)

Module textproto.

Definition validHeaderFieldByte (c : ascii) : bool := http.is_token_char c.

Definition toLower : N := 32.

(** The first loop of [canonicalMIMEHeaderKey]: [None] when a byte is
    neither a token character nor a space, else whether a space was
    seen. *)
Fixpoint looks_like_key (noCanon : bool) (a : string) : option bool :=
  match a with
  | "" => Some noCanon
  | String c rest =>
    if validHeaderFieldByte c then looks_like_key noCanon rest
    else if Ascii.eqb c " " then looks_like_key true rest
    else None
  end.

(** Its second loop: upper case for the first letter and after each
    dash, lower case elsewhere. *)
Fixpoint canonicalize (upper : bool) (a : string) : string :=
  match a with
  | "" => ""
  | String c rest =>
    let c :=
      if upper && is_lower c then byte_of (code c - toLower)
      else if negb upper && is_upper c then byte_of (code c + toLower)
      else c in
    String c (canonicalize (Ascii.eqb c "-") rest)
  end.

(** [canonicalMIMEHeaderKey]; the table of common headers it consults at
    the end holds each key under itself, so the text is the same with
    it. *)
Definition canonicalMIMEHeaderKey (a : string) : string * bool :=
  match looks_like_key false a with
  | None => (a, false)
  | Some true => (a, true)
  | Some false => (canonicalize true a, true)
  end.

(** The loop of [CanonicalMIMEHeaderKey]: whether it comes to a byte
    that is in the wrong case before one that is not a token character. *)
Fixpoint wrong_case (upper : bool) (s : string) : bool :=
  match s with
  | "" => false
  | String c rest =>
    if negb (validHeaderFieldByte c) then false
    else if upper && is_lower c then true
    else if negb upper && is_upper c then true
    else wrong_case (Ascii.eqb c "-") rest
  end.

Definition CanonicalMIMEHeaderKey (s : string) : string :=
  if wrong_case true s then fst (canonicalMIMEHeaderKey s) else s.

(** [MIMEHeader.Get], which is [http.Header.Get]. *)
Definition Get (h : gmap string (list string)) (key : string) : string :=
  match h !! CanonicalMIMEHeaderKey key with
  | Some (v :: _) => v
  | _ => ""
  end.

End textproto.

(** ** SendTemplateParams.MarshalJSON *)

(** The list [headers] that [MarshalJSON] builds from [p.Headers] and
    hands to [json.Marshal] under the key [headers]: one map with a single
    entry per key, for the keys in the order [visited] in which the
    [range] statement comes to them. *)
Definition MarshalJSON_headers (Headers : gmap string (list string))
  (visited : list string) : list (string * string) :=
  (fun key => (key, textproto.Get Headers key)) <$> visited.

(** * Properties *)

(** ** The envelope decoder *)

Lemma unmarshal_string_Ok (j : json.Value) (old : string) (saved : option error) :
  ∃ v saved', json.unmarshal j old saved = Ok (v, saved').
Proof. destruct j; simpl; eauto. Qed.

Lemma store_members_Ok {S} (store : string → json.Value → S → json.D S) :
  (∀ key v s saved, ∃ s' saved', store key v s saved = Ok (s', saved')) →
  ∀ members old saved,
    ∃ s' saved', json.store_members store members old saved = Ok (s', saved').
Proof.
  intros Hstore members. induction members as [|[key v] rest IH]; intros old saved.
  - cbn. eauto.
  - cbn [json.store_members]. unfold json.D_bind.
    destruct (Hstore key v old saved) as (s1 & saved1 & ->). apply IH.
Qed.

Lemma ErrorResponse_store_Ok key v s saved :
  ∃ s' saved', ErrorResponse_store key v s saved = Ok (s', saved').
Proof.
  unfold ErrorResponse_store. destruct (json.EqualFold key "message").
  - unfold json.D_bind.
    destruct (unmarshal_string_Ok v (Message s) saved) as (m & saved' & ->).
    cbn. eauto.
  - cbn. eauto.
Qed.

(** Decoding the error envelope never panics. *)
Lemma Decode_ErrorResponse_no_panic (body : string) (p : string) :
  json.Decode body (json.zero (T := ErrorResponse)) ≠ Panic p.
Proof.
  unfold json.Decode. destruct (json.read_value body) as [j rest| | |]; try done.
  - unfold json.store. change (json.unmarshal j json.zero None)
      with (json.unmarshal_struct ErrorResponse_store j (json.zero (T := ErrorResponse)) None).
    destruct j; try done. cbn [json.unmarshal_struct].
    destruct (store_members_Ok _ ErrorResponse_store_Ok members json.zero None)
      as (v & s' & ->).
    by destruct s'.
  - by destruct (json.skip_space body).
Qed.

(** What [decode] does with a response whose status is not 200. *)
Lemma decode_not_OK (T : Type) `{json.Unmarshaler T} (resp : http.Response) :
  http.StatusCode resp ≠ http.StatusOK →
  decode T resp =
    (data ← json.Decode (http.Body resp) (json.zero (T := ErrorResponse));
     Err (errors_New (Message data))).
Proof.
  intros Hst. unfold decode.
  destruct (Z.eqb_spec (http.StatusCode resp) http.StatusOK); [done|]. reflexivity.
Qed.

(** What [decode] does with a response whose status is 200. *)
Lemma decode_OK (T : Type) `{json.Unmarshaler T} (resp : http.Response) :
  http.StatusCode resp = http.StatusOK →
  decode T resp = json.Decode (http.Body resp) json.zero.
Proof.
  intros Hst. unfold decode. rewrite Hst, Z.eqb_refl. simpl.
  by destruct (json.Decode (http.Body resp) json.zero).
Qed.

Lemma decode_OK_scanned (T : Type) `{json.Unmarshaler T} (resp : http.Response)
  (j : json.Value) (rest : string) :
  http.StatusCode resp = http.StatusOK →
  json.read_value (http.Body resp) = json.Scanned j rest →
  decode T resp = json.store j json.zero.
Proof.
  intros Hst Hj. rewrite (decode_OK T resp Hst). unfold json.Decode. by rewrite Hj.
Qed.

(** C1. For a response whose status is not 200 the decoder fails: with
    the message of the error envelope when the body decodes as one (so
    that the failure's description is that message), with the decode error
    when it does not; it never returns a payload. A response with status
    400 and body [{"message": "invalid email"}] fails with the description
    ["invalid email"]. *)
Theorem decode_fails_on_error_status (T : Type) `{json.Unmarshaler T}
  (resp : http.Response) :
  http.StatusCode resp ≠ http.StatusOK →
  (∀ data, json.Decode (http.Body resp) (json.zero (T := ErrorResponse)) = Ok data →
     ∃ e, decode T resp = Err e ∧ Error e = Some (Message data))
  ∧ (∀ e, json.Decode (http.Body resp) (json.zero (T := ErrorResponse)) = Err e →
       decode T resp = Err e)
  ∧ (∃ e, decode T resp = Err e)
  ∧ (∃ e, decode T {| http.StatusCode := 400; http.Body := invalid_email_body |} = Err e
          ∧ Error e = Some "invalid email").
Proof.
  intros Hst. rewrite (decode_not_OK T resp Hst).
  split_and!.
  - intros data ->. by exists (errors_New (Message data)).
  - by intros e ->.
  - pose proof (Decode_ErrorResponse_no_panic (http.Body resp)) as Hp.
    destruct (json.Decode (http.Body resp) json.zero) as [data|e|p]; simpl; eauto.
    by destruct (Hp p).
  - exists (errors_New "invalid email"). split; [|done].
    rewrite decode_not_OK by done. by vm_compute.
Qed.

Lemma decode_fails_on_error_status_witness :
  ∃ e, decode string {| http.StatusCode := 400; http.Body := invalid_email_body |} = Err e
       ∧ Error e = Some "invalid email".
Proof.
  assert (Hst : http.StatusCode {| http.StatusCode := 400; http.Body := invalid_email_body |}
                ≠ http.StatusOK) by (by vm_compute).
  destruct (decode_fails_on_error_status string _ Hst) as (_ & _ & _ & Hex).
  exact Hex.
Defined.

Lemma store_members_Response_no_data {T} `{json.Unmarshaler T}
  (members : list (string * json.Value)) (old : Response T) (saved : option error) :
  no_member_named "data" members →
  json.store_members Response_store members old saved = Ok (old, saved).
Proof.
  induction 1 as [|[key v] rest Hkey _ IH]; [done|].
  cbn [json.store_members]. unfold json.D_bind, Response_store at 1.
  cbn [fst] in Hkey. rewrite Hkey. cbn. apply IH.
Qed.

(** Storing an object with the single member [data] into [Response T]
    stores the member's value into the [Data] field. *)
Lemma store_data_member {T} `{json.Unmarshaler T} (v : json.Value) :
  json.store (json.Object [("data", v)]) (json.zero (T := Response T))
  = (fun d => {| Data := d |}) <$> json.store v (json.zero (T := T)).
Proof.
  unfold json.store.
  change (json.unmarshal (json.Object [("data", v)]) (json.zero (T := Response T)) None)
    with (json.D_bind (json.D_bind (json.unmarshal v (json.zero (T := T)))
                         (fun d => json.D_ret {| Data := d |})) json.D_ret None).
  unfold json.D_bind, json.D_ret.
  destruct (json.unmarshal v json.zero None) as [[d [saved|]]|e|p]; done.
Qed.

(** *** The errors of the decoders *)

Lemma mismatch_saved {A} (old : A) (saved : option error) :
  ∃ saved', json.mismatch old saved = Ok (old, saved')
            ∧ (saved' = saved ∨ saved' = Some UnmarshalTypeError).
Proof. destruct saved as [e|]; eexists; (split; [done|]); [by left|by right]. Qed.

Ltac by_mismatch old saved :=
  destruct (mismatch_saved old saved) as (saved' & Hm & Hs);
  exists old, saved'; split; [exact Hm|exact Hs].

Lemma string_saves_type_errors_only : saves_type_errors_only json.string_Unmarshaler.
Proof.
  intros j old saved. destruct j as [|b|lit|s|js|members];
    try by_mismatch old saved; eexists _, saved; (split; [done|by left]).
Qed.

Lemma bool_saves_type_errors_only : saves_type_errors_only json.bool_Unmarshaler.
Proof.
  intros j old saved. destruct j as [|b|lit|s|js|members];
    try by_mismatch old saved; eexists _, saved; (split; [done|by left]).
Qed.

Lemma int_saves_type_errors_only : saves_type_errors_only json.int_Unmarshaler.
Proof.
  intros j old saved. destruct j as [|b|lit|s|js|members];
    try by_mismatch old saved; try (eexists _, saved; (split; [done|by left])).
  cbn [json.unmarshal json.int_Unmarshaler]. destruct (json.ParseInt lit) as [n|].
  - eexists _, saved. by split; [|left].
  - by_mismatch old saved.
Qed.

Lemma saved_trans (saved saved1 saved2 : option error) :
  saved1 = saved ∨ saved1 = Some UnmarshalTypeError →
  saved2 = saved1 ∨ saved2 = Some UnmarshalTypeError →
  saved2 = saved ∨ saved2 = Some UnmarshalTypeError.
Proof. intros [->| ->] [->| ->]; auto. Qed.

Lemma pointer_saves_type_errors_only {T} (U : json.Unmarshaler T) :
  saves_type_errors_only U → saves_type_errors_only (json.pointer_Unmarshaler (H := U)).
Proof.
  intros HT j old saved.
  assert (Hstore : ∃ v saved',
    json.D_bind (json.unmarshal j (default json.zero old)) (fun v => json.D_ret (Some v)) saved
    = Ok (v, saved') ∧ (saved' = saved ∨ saved' = Some UnmarshalTypeError)).
  { unfold json.D_bind. destruct (HT j (default json.zero old) saved) as (v & saved' & -> & Hs).
    by eexists _, saved'. }
  destruct j as [|b|lit|s|js|members]; try exact Hstore.
  eexists _, saved. by split; [|left].
Qed.

Lemma unmarshal_elems_saved {T} (U : json.Unmarshaler T) (js : list json.Value)
  (backing : list T) (saved : option error) :
  saves_type_errors_only U →
  ∃ vs saved', json.unmarshal_elems js backing saved = Ok (vs, saved')
               ∧ (saved' = saved ∨ saved' = Some UnmarshalTypeError).
Proof.
  intros HT. revert backing saved. induction js as [|j js IH]; intros backing saved.
  - eexists _, saved. by split; [|left].
  - cbn [json.unmarshal_elems]. unfold json.D_bind at 1.
    destruct (HT j (hd json.zero backing) saved) as (v & saved1 & -> & Hs1).
    unfold json.D_bind at 1.
    destruct (IH (tl backing) saved1) as (vs & saved2 & -> & Hs2).
    eexists _, saved2. split; [done|]. by eapply saved_trans.
Qed.

Lemma slice_saves_type_errors_only {T} (U : json.Unmarshaler T) :
  saves_type_errors_only U → saves_type_errors_only (json.slice_Unmarshaler (H := U)).
Proof.
  intros HT j old saved. destruct j as [|b|lit|s|js|members];
    try by_mismatch old saved; try (eexists _, saved; (split; [done|by left])).
  destruct js as [|j js]; [eexists _, saved; by split; [|left]|].
  cbn [json.unmarshal json.slice_Unmarshaler]. unfold json.D_bind.
  destruct (unmarshal_elems_saved U (j :: js) (json.elems old ++ json.spare old)%list
              saved HT) as (vs & saved' & -> & Hs).
  by eexists _, saved'.
Qed.

Lemma Response_saves_type_errors_only {T} (U : json.Unmarshaler T) :
  saves_type_errors_only U → saves_type_errors_only (Response_Unmarshaler (H := U)).
Proof.
  intros HT j old saved. destruct j as [|b|lit|s|js|members];
    try by_mismatch old saved; try (eexists _, saved; (split; [done|by left])).
  cbn [json.unmarshal Response_Unmarshaler json.unmarshal_struct].
  revert old saved. induction members as [|[key v] members IH]; intros old saved.
  - eexists _, saved. by split; [|left].
  - cbn [json.store_members]. unfold json.D_bind at 1, Response_store at 1.
    destruct (json.EqualFold key "data").
    + unfold json.D_bind at 1.
      destruct (HT v (Data old) saved) as (d & saved1 & -> & Hs1). cbn [json.D_ret].
      destruct (IH {| Data := d |} saved1) as (r & saved2 & -> & Hs2).
      eexists _, saved2. split; [done|]. by eapply saved_trans.
    + cbn [json.D_ret]. apply IH.
Qed.

(** The claim C2 as it is written does not hold: a body that is JSON but
    not of the shape asked for need not make the decoder fail. The error
    envelope [{"message": "invalid email"}] arriving with status 200 is
    not of the shape [{data: ...}], and is decoded into every envelope
    [Response[T]] as its zero value, without an error. *)
Lemma a_body_of_another_shape_is_decoded :
  json.read_value invalid_email_body
  = json.Scanned (json.Object [("message", json.String_ "invalid email")]) ""
  ∧ envelope_shaped (json.Object [("message", json.String_ "invalid email")]) = false
  ∧ (∀ T (U : json.Unmarshaler T),
       decode (Response T) {| http.StatusCode := 200; http.Body := invalid_email_body |}
       = Ok {| Data := json.zero |})
  ∧ ¬ ∀ (resp : http.Response) j rest,
        http.StatusCode resp = http.StatusOK →
        json.read_value (http.Body resp) = json.Scanned j rest →
        envelope_shaped j = false →
        ∃ e, decode (Response (option string)) resp = Err e.
Proof.
  assert (Hread : json.read_value invalid_email_body
    = json.Scanned (json.Object [("message", json.String_ "invalid email")]) "")
    by by vm_compute.
  assert (Hdec : ∀ T (U : json.Unmarshaler T),
    decode (Response T) {| http.StatusCode := 200; http.Body := invalid_email_body |}
    = Ok {| Data := json.zero |}).
  { intros T U.
    rewrite (decode_OK_scanned _ {| http.StatusCode := 200; http.Body := invalid_email_body |}
               _ _ eq_refl Hread).
    unfold json.store.
    change (json.unmarshal (json.Object [("message", json.String_ "invalid email")])
              (json.zero (T := Response T)) None)
      with (json.store_members Response_store [("message", json.String_ "invalid email")]
              (json.zero (T := Response T)) None).
    rewrite store_members_Response_no_data; [done|]. by repeat constructor. }
  split_and!; [exact Hread|done|exact Hdec|].
  intros Hclaim.
  destruct (Hclaim {| http.StatusCode := 200; http.Body := invalid_email_body |} _ _
              eq_refl Hread eq_refl) as [e He].
  by rewrite Hdec in He.
Qed.

(** C2, amended. For a response with status 200 the decoder stores the
    first JSON value of the body into the result shape asked for and
    returns that; the error envelope plays no part. It fails with a decode
    error, and never with an error made from a message, in two cases: the
    body is not JSON (a syntax error or an end-of-input error), or a value
    is of a JSON kind that its target cannot hold (an unmarshal type
    error): an envelope given a string, a number, a boolean or an array,
    or a [data] member that its type refuses, such as a string for a
    boolean. JSON of another shape does not fail: null, and an object
    without a [data] member, decode to the zero value. For shapes made of
    strings, integers, booleans, pointers, slices and envelopes these are
    the only errors, and the decoder does not panic. *)
Theorem decode_on_OK_status_stores_the_body (T : Type) {U : json.Unmarshaler T}
  (resp : http.Response) :
  http.StatusCode resp = http.StatusOK →
  decode T resp = json.Decode (http.Body resp) json.zero
  ∧ ((∀ j rest, json.read_value (http.Body resp) ≠ json.Scanned j rest) →
       ∃ e, decode T resp = Err e
            ∧ (e = SyntaxError ∨ e = io_EOF ∨ e = io_ErrUnexpectedEOF)
            ∧ ∀ message, e ≠ errors_New message)
  ∧ (∀ j rest, json.read_value (http.Body resp) = json.Scanned j rest →
       decode T resp = json.store j json.zero
       ∧ match j with
         | json.Null => decode (Response T) resp = Ok {| Data := json.zero |}
         | json.Object members =>
           (no_member_named "data" members →
              decode (Response T) resp = Ok {| Data := json.zero |})
           ∧ (∀ v, members = [("data", v)] →
                decode (Response T) resp
                = (fun d => {| Data := d |}) <$> json.store v json.zero)
           ∧ (∀ v, members = [("data", v)] →
                match v with json.Bool _ | json.Null => False | _ => True end →
                decode (Response bool) resp = Err UnmarshalTypeError)
         | _ => decode (Response T) resp = Err UnmarshalTypeError
         end)
  ∧ (saves_type_errors_only U →
       (∃ v, decode T resp = Ok v)
       ∨ ∃ e, decode T resp = Err e
              ∧ (e = SyntaxError ∨ e = io_EOF ∨ e = io_ErrUnexpectedEOF
                 ∨ e = UnmarshalTypeError)
              ∧ ∀ message, e ≠ errors_New message).
Proof.
  intros Hst. rewrite (decode_OK T resp Hst). split_and!.
  - done.
  - intros Hno. unfold json.Decode.
    destruct (json.read_value (http.Body resp)) as [j rest| | |].
    + by destruct (Hno j rest).
    + exists SyntaxError. split_and!; [done|by left|done].
    + destruct (json.skip_space (http.Body resp)).
      * exists io_EOF. split_and!; [done|by right; left|done].
      * exists io_ErrUnexpectedEOF. split_and!; [done|by right; right|done].
    + exists SyntaxError. split_and!; [done|by left|done].
  - intros j rest Hj. split.
    { rewrite <- (decode_OK T resp Hst). by eapply decode_OK_scanned. }
    assert (Hstore : ∀ A (UA : json.Unmarshaler A),
              decode (Response A) resp = json.store j json.zero).
    { intros A UA. by eapply decode_OK_scanned. }
    destruct j as [|b|lit|s|js|members]; try (rewrite Hstore; by destruct U).
    split_and!.
    + intros Hnone. rewrite Hstore. unfold json.store.
      change (json.unmarshal (json.Object members) (json.zero (T := Response T)) None)
        with (json.store_members Response_store members (json.zero (T := Response T)) None).
      by rewrite store_members_Response_no_data.
    + intros v ->. rewrite Hstore. apply store_data_member.
    + intros v -> Hkind. rewrite Hstore, store_data_member.
      by destruct v.
  - intros Honly. unfold json.Decode.
    destruct (json.read_value (http.Body resp)) as [j rest| | |].
    + unfold json.store.
      destruct (Honly j json.zero None) as (v & saved' & -> & [->| ->]).
      * left. by eexists.
      * right. exists UnmarshalTypeError. split_and!; [done|by do 3 right|done].
    + right. exists SyntaxError. split_and!; [done|by left|done].
    + right. destruct (json.skip_space (http.Body resp)).
      * exists io_EOF. split_and!; [done|by right; left|done].
      * exists io_ErrUnexpectedEOF. split_and!; [done|by right; right; left|done].
    + right. exists SyntaxError. split_and!; [done|by left|done].
Qed.

Lemma decode_on_OK_status_stores_the_body_witness :
  decode (Response (option string))
    {| http.StatusCode := 200; http.Body := "{" +:+ quoted "data" +:+ ": " +:+ quoted "x" +:+ "}" |}
  = Ok {| Data := Some "x" |}
  ∧ decode (Response bool)
      {| http.StatusCode := 200; http.Body := "{" +:+ quoted "data" +:+ ": " +:+ quoted "x" +:+ "}" |}
    = Err UnmarshalTypeError
  ∧ decode (Response (option string))
      {| http.StatusCode := 200; http.Body := "[1, 2]" |}
    = Err UnmarshalTypeError.
Proof.
  set (body := "{" +:+ quoted "data" +:+ ": " +:+ quoted "x" +:+ "}").
  pose proof (decode_on_OK_status_stores_the_body (option string)
    {| http.StatusCode := 200; http.Body := body |} eq_refl) as (_ & _ & Hjson & _).
  destruct (Hjson (json.Object [("data", json.String_ "x")]) "") as (_ & _ & Hdata & Hbool);
    [by vm_compute|].
  pose proof (decode_on_OK_status_stores_the_body (option string)
    {| http.StatusCode := 200; http.Body := "[1, 2]" |} eq_refl) as (_ & _ & Harray & _).
  destruct (Harray (json.Array [json.Number "1"; json.Number "2"]) "") as (_ & Hkind);
    [by vm_compute|].
  split_and!.
  - rewrite (Hdata _ eq_refl). by vm_compute.
  - by apply (Hbool _ eq_refl).
  - exact Hkind.
Defined.

(** ** The transport primitive *)

Lemma IO_bind_result {A B} (m : IO A) (k : A → IO B) :
  result (m ≫= k) = (a ← result m; result (k a)).
Proof. unfold mbind, IO_bind, outcome_bind. by destruct (result m). Qed.

Lemma IO_bind_sent {A B} (m : IO A) (k : A → IO B) :
  sent (m ≫= k) =
    (sent m ++ match result m with Ok a => sent (k a) | _ => [] end)%list.
Proof.
  unfold mbind, IO_bind. destruct (result m); simpl; by rewrite ?app_nil_r.
Qed.

Lemma IO_bind_pure {A B} (r : outcome A) (k : A → IO B) :
  pure r ≫= k =
    match r with
    | Ok a => k a
    | Err e => mkIO [] (Err e)
    | Panic p => mkIO [] (Panic p)
    end.
Proof. destruct r; try done. unfold mbind, IO_bind. simpl. by destruct (k a). Qed.

Lemma IO_bind_ret {A} (m : IO A) : (a ← m; mret a) = m.
Proof.
  unfold mbind, IO_bind, mret, IO_ret. destruct m as [tr [a|e|p]]; simpl;
    by rewrite ?app_nil_r.
Qed.

(** [do] builds a request and, if that works, hands it to the HTTP client
    once. *)
Lemma do_unfold `{Libraries} (c : Client) (ctx : Context) (method path : string)
  (data : any) :
  do c ctx method path data =
    match do_request c ctx method path data with
    | Ok req => mkIO [req] (HTTPClient (config c) req)
    | Err e => mkIO [] (Err e)
    | Panic p => mkIO [] (Panic p)
    end.
Proof.
  unfold do, do_request.
  rewrite IO_bind_pure.
  destruct (url_JoinPath (BaseURL (config c)) path) as [endpoint|e|p]; try done.
  cbn [mbind outcome_bind]. rewrite IO_bind_pure.
  match goal with |- context [match ?x with Ok _ => _ | Err _ => _ | Panic _ => _ end] =>
    destruct x as [endpoint'|e|p] eqn:Hq end; try done.
  cbn [mbind outcome_bind]. rewrite IO_bind_pure.
  match goal with |- context [match ?x with Ok _ => _ | Err _ => _ | Panic _ => _ end] =>
    destruct x as [body|e|p] eqn:Hb end; try done.
  cbn [mbind outcome_bind]. rewrite IO_bind_pure.
  destruct (NewRequestWithContext ctx method endpoint' body) as [req|e|p]; try done.
  cbn [mbind outcome_bind]. rewrite IO_bind_ret. reflexivity.
Qed.

Lemma outcome_bind_Ok {A B} (m : outcome A) (k : A → outcome B) (b : B) :
  m ≫= k = Ok b → ∃ a, m = Ok a ∧ k a = Ok b.
Proof. destruct m as [a|e|p]; [by exists a|done|done]. Qed.

Lemma do_sent `{Libraries} (c : Client) (ctx : Context) (method path : string)
  (data : any) (req : http.Request) :
  req ∈ sent (do c ctx method path data) ↔ do_request c ctx method path data = Ok req.
Proof.
  rewrite do_unfold.
  destruct (do_request c ctx method path data) as [req'|e|p]; simpl.
  - rewrite list_elem_of_singleton. split; [by intros ->|by intros [= ->]].
  - split; [by intros ?%elem_of_nil|done].
  - split; [by intros ?%elem_of_nil|done].
Qed.

Lemma is_POST_or_PUT_spec (method : string) :
  is_POST_or_PUT method = true ↔ method = "POST" ∨ method = "PUT".
Proof.
  unfold is_POST_or_PUT. rewrite orb_true_iff, !String.eqb_eq. done.
Qed.

(** The parts of a request that [do] has built. *)
Lemma do_request_Ok `{Libraries} (c : Client) (ctx : Context) (method path : string)
  (data : any) (req : http.Request) :
  do_request c ctx method path data = Ok req →
  ∃ joined,
    url_JoinPath (BaseURL (config c)) path = Ok joined
    ∧ match data with
      | Some d =>
        ∃ q, query.Values d = Ok q
             ∧ http.URL req =
                 if (0 <? String.length (url.Encode q))%nat
                 then joined +:+ "?" +:+ url.Encode q else joined
      | None => http.URL req = joined
      end
    ∧ match is_POST_or_PUT method, data with
      | true, Some d =>
        ∃ doc, json_Marshal d = Ok doc ∧ http.ReqBody req = Some (doc +:+ String LF "")
      | _, _ => http.ReqBody req = None
      end
    ∧ http.Method req = (if String.eqb method "" then "GET" else method)
    ∧ http.ReqCtx req = ctx
    ∧ http.Header req =
        <["Content-Type" := ["application/json"]]> (<["Authorization" := [auth c]]> ∅).
Proof.
  unfold do_request. intros Hreq.
  apply outcome_bind_Ok in Hreq as (joined & Hjoin & Hreq).
  apply outcome_bind_Ok in Hreq as (endpoint & Hq & Hreq).
  apply outcome_bind_Ok in Hreq as (body & Hb & Hreq).
  apply outcome_bind_Ok in Hreq as (req0 & Hnew & Hreq).
  exists joined. split; [done|].
  unfold NewRequestWithContext in Hnew.
  destruct (negb _); [done|]. destruct ctx as [|cancelled]; [done|].
  destruct (url_Parse_error endpoint); [done|].
  injection Hnew as <-. injection Hreq as <-. simpl.
  split_and!; try done.
  - destruct data as [d|]; [|by injection Hq as ->].
    apply outcome_bind_Ok in Hq as (q & Hvalues & Hq).
    exists q. split; [done|].
    by destruct (0 <? _)%nat; injection Hq as ->.
  - fold (is_POST_or_PUT method) in Hb.
    destruct (is_POST_or_PUT method), data as [d|]; try by injection Hb as ->.
    unfold Encoder_Encode in Hb. destruct (json_Marshal d) as [doc|e|p]; try done.
    exists doc. split; [done|]. cbn in Hb. by injection Hb as ->.
Qed.

(** C3. Every request that [do] issues carries a body exactly when the
    method is POST or PUT and the data object is not nil, and the body is
    then the JSON document for the data object; a request whose method is
    GET or DELETE has no body, whatever parameter object was given. *)
Theorem do_attaches_body_for_POST_and_PUT `{Libraries} (c : Client) (ctx : Context)
  (method path : string) (data : any) (req : http.Request) :
  req ∈ sent (do c ctx method path data) →
  (is_Some (http.ReqBody req) ↔ (method = "POST" ∨ method = "PUT") ∧ data ≠ None)
  ∧ (∀ d, data = Some d → method = "POST" ∨ method = "PUT" →
       ∃ doc, json_Marshal d = Ok doc ∧ http.ReqBody req = Some (doc +:+ String LF ""))
  ∧ (http.Method req = "GET" ∨ http.Method req = "DELETE" → http.ReqBody req = None).
Proof.
  intros Hsent%do_sent.
  destruct (do_request_Ok _ _ _ _ _ _ Hsent) as (joined & _ & _ & Hbody & Hmethod & _).
  pose proof (is_POST_or_PUT_spec method) as Hpp.
  destruct (is_POST_or_PUT method).
  - assert (Hm : method = "POST" ∨ method = "PUT") by by apply Hpp.
    destruct data as [d|].
    + destruct Hbody as (doc & Hdoc & Hbody). rewrite Hbody. split_and!.
      * split; [done|by eauto].
      * intros d' [= <-] _. by exists doc.
      * rewrite Hmethod. by destruct Hm as [-> | ->]; intros [?|?].
    + rewrite Hbody. split_and!; [|done..]. split; [by intros [? ?]|by intros [_ ?]].
  - assert (Hm : ¬ (method = "POST" ∨ method = "PUT")).
    { intros Hm%Hpp. done. }
    assert (Hnone : http.ReqBody req = None) by by destruct data.
    rewrite Hnone. split_and!; [|done..].
    split; [by intros [? ?]|by intros [? _]].
Qed.

Lemma do_attaches_body_for_POST_and_PUT_witness :
  ∃ req,
    req ∈ sent (do (H := sample_libraries) (answering 200 "{}") (Ctx false) "POST"
                  "/api/subscribers" (Some (reflect.Pointer None)))
    ∧ http.ReqBody req = Some ("{}" +:+ String LF "").
Proof.
  destruct (do_request (H := sample_libraries) (answering 200 "{}") (Ctx false) "POST"
              "/api/subscribers" (Some (reflect.Pointer None))) as [req|e|p] eqn:Hreq;
    [|by vm_compute in Hreq..].
  exists req. apply do_sent in Hreq. split; [done|].
  destruct (do_attaches_body_for_POST_and_PUT _ _ _ _ _ _ Hreq) as (_ & Hdoc & _).
  destruct (Hdoc _ eq_refl (or_introl eq_refl)) as (doc & [= <-] & Hbody).
  exact Hbody.
Defined.

Lemma IO_bind_pure_sent {A B} (m : IO A) (f : A → outcome B) :
  sent (a ← m; pure (f a)) = sent m.
Proof. rewrite IO_bind_sent. destruct (result m); simpl; by rewrite app_nil_r. Qed.

Lemma IO_bind_ret_sent {A B} (m : IO A) (f : A → B) :
  sent (a ← m; mret (f a)) = sent m.
Proof. rewrite IO_bind_sent. destruct (result m); simpl; by rewrite app_nil_r. Qed.

Lemma request_sent (T : Type) `{json.Unmarshaler T} `{Libraries} (c : Client)
  (ctx : Context) (method path : string) (data : any) :
  sent (request T c ctx method path data) = sent (do c ctx method path data).
Proof. apply IO_bind_pure_sent. Qed.

Lemma request_result (T : Type) `{json.Unmarshaler T} `{Libraries} (c : Client)
  (ctx : Context) (method path : string) (data : any) :
  result (request T c ctx method path data) =
    (resp ← result (do c ctx method path data); decode T resp).
Proof. unfold request. by rewrite IO_bind_result. Qed.

(** ** Endpoints *)

(** C5. The envelope shape is fixed per endpoint. For a response with
    status 200 whose body holds the JSON value [j]: [GetSubscriber]
    decodes a [{data: T}] wrapper and returns what is under the [data]
    key (nothing when the object has no such key); [ExportSubscriber] and
    [GetPublicLists] decode [j] itself as the payload. *)
Theorem envelope_shape_is_fixed_per_endpoint `{Libraries} `{Payloads} (c : Client)
  (ctx : Context) (id : Z) (resp : http.Response) (j : json.Value) (rest : string) :
  http.StatusCode resp = http.StatusOK →
  json.read_value (http.Body resp) = json.Scanned j rest →
  (result (do c ctx "GET" ("/api/subscribers/" +:+ time.Itoa id) None) = Ok resp →
     (∀ v, j = json.Object [("data", v)] →
        result (GetSubscriber c ctx id) = json.store v (json.zero (T := option Subscriber)))
     ∧ (j = json.Object [] → result (GetSubscriber c ctx id) = Ok None))
  ∧ (result (do c ctx "GET" ("/api/subscribers/" +:+ time.Itoa id +:+ "/export") None)
     = Ok resp →
     result (ExportSubscriber c ctx id)
     = json.store j (json.zero (T := option ExportSubscriberResponse)))
  ∧ (result (do c ctx "GET" "/api/public/lists" None) = Ok resp →
     result (GetPublicLists c ctx)
     = json.elems <$> json.store j (json.zero (T := json.slice PublicListEntry))).
Proof.
  intros Hst Hj.
  assert (Hdec : ∀ T (U : json.Unmarshaler T), decode T resp = json.store j json.zero).
  { intros T U. by apply decode_OK_scanned with (rest := rest). }
  split_and!.
  - intros Hdo. unfold GetSubscriber.
    rewrite IO_bind_result, request_result, Hdo. cbn [mbind outcome_bind].
    rewrite Hdec. split.
    + intros v ->. rewrite store_data_member.
      by destruct (json.store v json.zero).
    + by intros ->.
  - intros Hdo. unfold ExportSubscriber.
    rewrite IO_bind_result, request_result, Hdo. cbn [mbind outcome_bind].
    rewrite Hdec. by destruct (json.store j json.zero).
  - intros Hdo. unfold GetPublicLists.
    rewrite IO_bind_result, request_result, Hdo. cbn [mbind outcome_bind].
    rewrite Hdec. by destruct (json.store j json.zero).
Qed.

Lemma envelope_shape_is_fixed_per_endpoint_witness :
  result (GetSubscriber (H := sample_libraries) (H0 := sample_payloads)
            (answering 200 ("{" +:+ quoted "data" +:+ ": 7}")) (Ctx false) 3)
  = Ok (Some (json.Number "7"))
  ∧ result (ExportSubscriber (H := sample_libraries) (H0 := sample_payloads)
              (answering 200 ("{" +:+ quoted "data" +:+ ": 7}")) (Ctx false) 3)
    = Ok (Some (json.Object [("data", json.Number "7")])).
Proof.
  pose proof (envelope_shape_is_fixed_per_endpoint (H := sample_libraries)
    (H0 := sample_payloads) (answering 200 ("{" +:+ quoted "data" +:+ ": 7}")) (Ctx false) 3
    {| http.StatusCode := 200; http.Body := "{" +:+ quoted "data" +:+ ": 7}" |}
    (json.Object [("data", json.Number "7")]) "" eq_refl) as Hshape.
  destruct Hshape as (Hget & Hexport & _); [by vm_compute|].
  split.
  - destruct Hget as [Hdata _]; [by vm_compute|].
    rewrite (Hdata _ eq_refl). by vm_compute.
  - rewrite Hexport; by vm_compute.
Defined.

(** C7. The preview calls issue the request that [do] builds. If the
    response status is not 200 they fail, with the very error that the
    structured decoder returns for that response (the message of the error
    envelope, or the decode error if the body is no such envelope);
    otherwise they return the whole response body as text, unchanged. *)
Theorem previews_return_the_raw_body `{Libraries} (c : Client) (ctx : Context) (id : Z) :
  (sent (GetCampaignPreview c ctx id)
   = sent (do c ctx "GET" ("/api/campaigns/" +:+ time.Itoa id +:+ "/preview") None)
   ∧ ∀ resp,
       result (do c ctx "GET" ("/api/campaigns/" +:+ time.Itoa id +:+ "/preview") None)
       = Ok resp →
       (http.StatusCode resp ≠ http.StatusOK →
          ∃ e, result (GetCampaignPreview c ctx id) = Err e
               ∧ ∀ T (U : json.Unmarshaler T), decode T resp = Err e)
       ∧ (http.StatusCode resp = http.StatusOK →
            result (GetCampaignPreview c ctx id) = Ok (http.Body resp)))
  ∧ (sent (GetTemplatePreview c ctx id)
     = sent (do c ctx "GET" ("/api/templates/" +:+ time.Itoa id +:+ "/preview") None)
     ∧ ∀ resp,
         result (do c ctx "GET" ("/api/templates/" +:+ time.Itoa id +:+ "/preview") None)
         = Ok resp →
         (http.StatusCode resp ≠ http.StatusOK →
            ∃ e, result (GetTemplatePreview c ctx id) = Err e
                 ∧ ∀ T (U : json.Unmarshaler T), decode T resp = Err e)
         ∧ (http.StatusCode resp = http.StatusOK →
              result (GetTemplatePreview c ctx id) = Ok (http.Body resp))).
Proof.
  assert (Hpreview : ∀ path,
    let call : IO string :=
      resp ← do c ctx "GET" path None;
      if negb (http.StatusCode resp =? http.StatusOK)%Z then
        pure (data ← json.Decode (http.Body resp) (json.zero (T := ErrorResponse));
              Err (errors_New (Message data)))
      else
        body ← pure (io.ReadAll (http.Body resp));
        mret body in
    sent call = sent (do c ctx "GET" path None)
    ∧ ∀ resp, result (do c ctx "GET" path None) = Ok resp →
        (http.StatusCode resp ≠ http.StatusOK →
           ∃ e, result call = Err e ∧ ∀ T (U : json.Unmarshaler T), decode T resp = Err e)
        ∧ (http.StatusCode resp = http.StatusOK → result call = Ok (http.Body resp))).
  { intros path call. subst call. split.
    - rewrite IO_bind_sent.
      destruct (result (do c ctx "GET" path None)) as [resp|e|p]; simpl;
        [|by rewrite app_nil_r..].
      destruct (negb _); simpl; by rewrite app_nil_r.
    - intros resp Hdo. rewrite IO_bind_result, Hdo. cbn [mbind outcome_bind].
      split.
      + intros Hst.
        destruct (Z.eqb_spec (http.StatusCode resp) http.StatusOK) as [|_]; [done|].
        cbn [negb pure result].
        pose proof (Decode_ErrorResponse_no_panic (http.Body resp)) as Hp.
        destruct (json.Decode (http.Body resp) (json.zero (T := ErrorResponse)))
          as [data|e|p] eqn:Hd.
        * exists (errors_New (Message data)). split; [done|].
          intros T U. rewrite decode_not_OK by done. by rewrite Hd.
        * exists e. split; [done|].
          intros T U. rewrite decode_not_OK by done. by rewrite Hd.
        * by destruct (Hp p).
      + intros Hst. by rewrite Hst, Z.eqb_refl. }
  split.
  - apply (Hpreview ("/api/campaigns/" +:+ time.Itoa id +:+ "/preview")).
  - apply (Hpreview ("/api/templates/" +:+ time.Itoa id +:+ "/preview")).
Qed.

Lemma previews_return_the_raw_body_witness :
  result (GetCampaignPreview (H := sample_libraries) (answering 200 "<h1>Hi</h1>")
            (Ctx false) 5) = Ok "<h1>Hi</h1>"
  ∧ ∃ e, result (GetTemplatePreview (H := sample_libraries)
                   (answering 400 invalid_email_body) (Ctx false) 5) = Err e
         ∧ Error e = Some "invalid email".
Proof.
  split.
  - destruct (previews_return_the_raw_body (H := sample_libraries)
      (answering 200 "<h1>Hi</h1>") (Ctx false) 5) as [[_ Hok] _].
    destruct (Hok {| http.StatusCode := 200; http.Body := "<h1>Hi</h1>" |})
      as [_ Hbody]; [by vm_compute|].
    by apply Hbody.
  - destruct (previews_return_the_raw_body (H := sample_libraries)
      (answering 400 invalid_email_body) (Ctx false) 5) as [_ [_ Hbad]].
    destruct (Hbad {| http.StatusCode := 400; http.Body := invalid_email_body |})
      as [Herr _]; [by vm_compute|].
    destruct Herr as (e & He & Hdec); [by vm_compute|].
    exists e. split; [done|].
    specialize (Hdec string _).
    assert (Hd : decode string {| http.StatusCode := 400; http.Body := invalid_email_body |}
                 = Err (errors_New "invalid email")) by by vm_compute.
    rewrite Hd in Hdec. by injection Hdec as <-.
Defined.

(** A body [{"data": []}] decodes into an empty slice of templates,
    whatever a template is. *)
Lemma decode_empty_data {T} `{json.Unmarshaler T} (resp : http.Response) :
  http.StatusCode resp = http.StatusOK →
  http.Body resp = empty_data_body →
  decode (Response (json.slice T)) resp = Ok {| Data := json.mkSlice [] [] |}.
Proof.
  intros Hst Hbody.
  rewrite (decode_OK_scanned _ resp (json.Object [("data", json.Array [])]) "" Hst).
  - by rewrite store_data_member.
  - rewrite Hbody. by vm_compute.
Qed.

Lemma template_call_result `{Libraries} `{Payloads} (c : Client) (ctx : Context)
  (method path : string) (resp : http.Response) :
  result (do c ctx method path None) = Ok resp →
  result (resp ← request (Response (json.slice Template)) c ctx method path None;
          pure (first_element (Data resp)))
  = (data ← decode (Response (json.slice Template)) resp; first_element (Data data)).
Proof.
  intros Hdo. by rewrite IO_bind_result, request_result, Hdo.
Qed.

(** C9. [CreateTemplate] and [UpdateTemplate] take the first element of
    the decoded [data] array without checking that there is one: on a
    success response with body [{"data": []}] the access is out of range
    and the call panics; they return a template only when the array has at
    least one element, and then the first. *)
Theorem template_calls_index_without_a_check `{Libraries} `{Payloads} (c : Client)
  (ctx : Context) (params : option CreateTemplateParams) (id : Z) :
  (∀ resp,
     result (do c ctx "POST" "/api/templates" None) = Ok resp →
     http.StatusCode resp = http.StatusOK →
     (http.Body resp = empty_data_body →
        result (CreateTemplate c ctx params) = Panic index_out_of_range)
     ∧ (∀ data, decode (Response (json.slice Template)) resp = Ok data →
          result (CreateTemplate c ctx params) =
            match json.elems (Data data) with
            | [] => Panic index_out_of_range
            | t :: _ => Ok t
            end))
  ∧ (∀ resp,
       result (do c ctx "PUT" ("/api/templates/" +:+ time.Itoa id) None) = Ok resp →
       http.StatusCode resp = http.StatusOK →
       (http.Body resp = empty_data_body →
          result (UpdateTemplate c ctx id) = Panic index_out_of_range)
       ∧ (∀ data, decode (Response (json.slice Template)) resp = Ok data →
            result (UpdateTemplate c ctx id) =
              match json.elems (Data data) with
              | [] => Panic index_out_of_range
              | t :: _ => Ok t
              end)).
Proof.
  split; intros resp Hdo Hst.
  - unfold CreateTemplate. rewrite (template_call_result _ _ _ _ _ Hdo). split.
    + intros Hbody. by rewrite (decode_empty_data resp Hst Hbody).
    + by intros data ->.
  - unfold UpdateTemplate. rewrite (template_call_result _ _ _ _ _ Hdo). split.
    + intros Hbody. by rewrite (decode_empty_data resp Hst Hbody).
    + by intros data ->.
Qed.

Lemma template_calls_index_without_a_check_witness :
  result (CreateTemplate (H := sample_libraries) (H0 := sample_payloads)
            (answering 200 empty_data_body) (Ctx false) None)
  = Panic index_out_of_range
  ∧ result (UpdateTemplate (H := sample_libraries) (H0 := sample_payloads)
              (answering 200 empty_data_body) (Ctx false) 4)
    = Panic index_out_of_range.
Proof.
  destruct (template_calls_index_without_a_check (H := sample_libraries)
    (H0 := sample_payloads) (answering 200 empty_data_body) (Ctx false) None 4)
    as [Hcreate Hupdate].
  split.
  - destruct (Hcreate {| http.StatusCode := 200; http.Body := empty_data_body |})
      as [Hpanic _]; [by vm_compute|done|].
    by apply Hpanic.
  - destruct (Hupdate {| http.StatusCode := 200; http.Body := empty_data_body |})
      as [Hpanic _]; [by vm_compute|done|].
    by apply Hpanic.
Defined.

(** C10. [CreateTemplate] does not look at its [params]: two calls with
    any two parameter values are the same call, and the request it issues
    is the one [do] builds from a nil data object: a POST to the joined
    path, with no query string and no body. *)
Theorem CreateTemplate_ignores_params `{Libraries} `{Payloads} (c : Client)
  (ctx : Context) (p1 p2 : option CreateTemplateParams) :
  CreateTemplate c ctx p1 = CreateTemplate c ctx p2
  ∧ sent (CreateTemplate c ctx p1) = sent (do c ctx "POST" "/api/templates" None)
  ∧ ∀ req, req ∈ sent (CreateTemplate c ctx p1) →
      http.Method req = "POST"
      ∧ url_JoinPath (BaseURL (config c)) "/api/templates" = Ok (http.URL req)
      ∧ http.ReqBody req = None.
Proof.
  split; [done|].
  assert (Hsent : sent (CreateTemplate c ctx p1)
                  = sent (do c ctx "POST" "/api/templates" None)).
  { unfold CreateTemplate. by rewrite IO_bind_pure_sent, request_sent. }
  split; [done|].
  intros req. rewrite Hsent. intros Hreq%do_sent.
  destruct (do_request_Ok _ _ _ _ _ _ Hreq) as (joined & Hjoin & Hurl & Hbody & Hm & _).
  simpl in Hurl, Hbody, Hm. by rewrite Hurl.
Qed.

Lemma CreateTemplate_ignores_params_witness :
  ∃ req,
    sent (CreateTemplate (H := sample_libraries) (H0 := sample_payloads)
            (answering 200 empty_data_body) (Ctx false)
            (Some {| Name := "welcome"; TemplateType := "campaign"; Subject := "";
                     Body := "<p>hello</p>"; BodySource := "" |})) = [req]
    ∧ http.URL req = "http://localhost:9000/api/templates"
    ∧ http.ReqBody req = None.
Proof.
  set (params := Some {| Name := "welcome"; TemplateType := "campaign"; Subject := "";
                         Body := "<p>hello</p>"; BodySource := "" |}).
  destruct (CreateTemplate_ignores_params (H := sample_libraries) (H0 := sample_payloads)
    (answering 200 empty_data_body) (Ctx false) params None) as (_ & Hsent & Hreq).
  destruct (do_request (H := sample_libraries) (answering 200 empty_data_body) (Ctx false)
              "POST" "/api/templates" None) as [req|e|p] eqn:Hbuilt;
    [|by vm_compute in Hbuilt..].
  exists req. rewrite Hsent, do_unfold, Hbuilt. split; [done|].
  destruct (Hreq req) as (_ & Hjoin & Hbody).
  { rewrite Hsent. by apply do_sent. }
  split; [|done]. by injection Hjoin as <-.
Defined.

(** ** The multipart upload *)

Lemma string_app_cons (x : ascii) (a b : string) : String x a +:+ b = String x (a +:+ b).
Proof. reflexivity. Qed.

Lemma string_app_assoc (a b c : string) : (a +:+ b) +:+ c = a +:+ (b +:+ c).
Proof. induction a as [|x a IH]; [done|]. by rewrite !string_app_cons, IH. Qed.

Lemma string_app_empty_r (a : string) : a +:+ "" = a.
Proof. induction a as [|x a IH]; [done|]. by rewrite string_app_cons, IH. Qed.

Lemma multipart_unfold `{Libraries} (boundary : string) (c : Client) (ctx : Context)
  (path : string) (fields : list (string * string)) (files : list (string * io.Reader)) :
  multipart boundary c ctx path fields files =
    match multipart_request boundary c ctx path fields files with
    | Ok req => mkIO [req] (HTTPClient (config c) req)
    | Err e => mkIO [] (Err e)
    | Panic p => mkIO [] (Panic p)
    end.
Proof.
  unfold multipart, multipart_request.
  rewrite IO_bind_pure.
  destruct (url_JoinPath (BaseURL (config c)) path) as [endpoint|e|p]; try done.
  cbn [mbind outcome_bind]. rewrite IO_bind_pure.
  destruct (write_files (multipart.NewWriter boundary) files) as [w1|e|p]; try done.
  cbn [mbind outcome_bind]. rewrite IO_bind_pure.
  destruct (write_fields w1 fields) as [w2|e|p]; try done.
  cbn [mbind outcome_bind]. rewrite IO_bind_pure.
  destruct (multipart.Close w2) as [w3|e|p]; try done.
  cbn [mbind outcome_bind]. rewrite IO_bind_pure.
  destruct (NewRequestWithContext ctx "POST" endpoint (Some (multipart.buf w3)))
    as [req|e|p]; try done.
  cbn [mbind outcome_bind]. rewrite IO_bind_ret. reflexivity.
Qed.

Lemma multipart_sent `{Libraries} (boundary : string) (c : Client) (ctx : Context)
  (path : string) (fields : list (string * string)) (files : list (string * io.Reader))
  (req : http.Request) :
  req ∈ sent (multipart boundary c ctx path fields files)
  ↔ multipart_request boundary c ctx path fields files = Ok req.
Proof.
  rewrite multipart_unfold.
  destruct (multipart_request boundary c ctx path fields files) as [req'|e|p]; simpl.
  - rewrite list_elem_of_singleton. split; [by intros ->|by intros [= ->]].
  - split; [by intros ?%elem_of_nil|done].
  - split; [by intros ?%elem_of_nil|done].
Qed.

Lemma parts_text_app (started : bool) (boundary : string) (l1 l2 : list part) :
  parts_text started boundary (l1 ++ l2)
  = parts_text started boundary l1 +:+ parts_text (started_after started l1) boundary l2.
Proof.
  revert started. induction l1 as [|p l1 IH]; intros started; [done|].
  cbn [app parts_text started_after]. rewrite IH.
  assert (Hst : started_after true l1 = true) by by destruct l1.
  by rewrite Hst, ?string_app_assoc.
Qed.

Lemma concat_parts (boundary : string) (p : part) (rest : list part) :
  String.concat CRLF (map (part_text boundary) (p :: rest))
  = part_text boundary p +:+ parts_text true boundary rest.
Proof.
  revert p. induction rest as [|q rest IH]; intros p.
  - cbn [map String.concat parts_text]. by rewrite string_app_empty_r.
  - change (String.concat CRLF (map (part_text boundary) (p :: q :: rest)))
      with (part_text boundary p +:+ CRLF
            +:+ String.concat CRLF (map (part_text boundary) (q :: rest))).
    rewrite IH. cbn [parts_text]. by rewrite ?string_app_assoc.
Qed.

(** The document is its parts, written one after the other, and the
    closing delimiter. *)
Lemma document_parts_text (boundary : string) (parts : list part) :
  document boundary parts
  = parts_text false boundary parts +:+ CRLF +:+ "--" +:+ boundary +:+ "--" +:+ CRLF.
Proof.
  unfold document. destruct parts as [|p rest]; [done|].
  rewrite concat_parts. cbn [parts_text]. by rewrite ?string_app_assoc.
Qed.

Lemma write_files_Ok (w w' : multipart.Writer) (files : list (string * io.Reader)) :
  write_files w files = Ok w' →
  (∀ entry, entry ∈ files → ∃ s, snd entry = Some s ∧ io.failure s = None)
  ∧ multipart.buf w' = multipart.buf w
      +:+ parts_text (multipart.lastpart w) (multipart.boundary w) (file_parts files)
  ∧ multipart.boundary w' = multipart.boundary w
  ∧ multipart.lastpart w' = started_after (multipart.lastpart w) files.
Proof.
  revert w. induction files as [|[key r] rest IH]; intros w Hw.
  - injection Hw as <-. cbn. rewrite string_app_empty_r. split_and!; try done.
    by intros entry ?%elem_of_nil.
  - cbn [write_files] in Hw.
    apply outcome_bind_Ok in Hw as (w1 & Hcreate & Hw).
    apply outcome_bind_Ok in Hw as (w2 & Hcopy & Hw).
    injection Hcreate as <-.
    destruct r as [s|]; [|done]. cbn [multipart.Copy] in Hcopy.
    destruct (io.failure s) eqn:Hfail; [done|]. injection Hcopy as <-.
    destruct (IH _ Hw) as (Hall & Hbuf & Hb & Hlast). split_and!.
    + intros entry [->|Hin]%elem_of_cons; [by exists s|by apply Hall].
    + rewrite Hbuf. cbn [multipart.write multipart.buf multipart.boundary
        multipart.lastpart file_parts map parts_text fst snd stream_content].
      unfold part_text. destruct (multipart.lastpart w); rewrite ?string_app_assoc; reflexivity.
    + exact Hb.
    + rewrite Hlast. by destruct rest.
Qed.

Lemma write_fields_Ok (w w' : multipart.Writer) (fields : list (string * string)) :
  write_fields w fields = Ok w' →
  multipart.buf w' = multipart.buf w
      +:+ parts_text (multipart.lastpart w) (multipart.boundary w) (field_parts fields)
  ∧ multipart.boundary w' = multipart.boundary w.
Proof.
  revert w. induction fields as [|[key value] rest IH]; intros w Hw.
  - injection Hw as <-. cbn. by rewrite string_app_empty_r.
  - cbn [write_fields] in Hw.
    apply outcome_bind_Ok in Hw as (w1 & Hfield & Hw).
    injection Hfield as <-.
    destruct (IH _ Hw) as (Hbuf & Hb). split.
    + rewrite Hbuf. cbn [multipart.write multipart.buf multipart.boundary
        multipart.lastpart field_parts map parts_text fst snd].
      unfold part_text. destruct (multipart.lastpart w); rewrite ?string_app_assoc; reflexivity.
    + exact Hb.
Qed.

(** The parts of a request that [multipart] has built. *)
Lemma multipart_request_Ok `{Libraries} (boundary : string) (c : Client) (ctx : Context)
  (path : string) (fields : list (string * string)) (files : list (string * io.Reader))
  (req : http.Request) :
  multipart_request boundary c ctx path fields files = Ok req →
  (∀ entry, entry ∈ files → ∃ s, snd entry = Some s ∧ io.failure s = None)
  ∧ http.Method req = "POST"
  ∧ url_JoinPath (BaseURL (config c)) path = Ok (http.URL req)
  ∧ http.ReqBody req = Some (document boundary (file_parts files ++ field_parts fields))
  ∧ http.Header req !! "Content-Type"
    = Some [multipart.FormDataContentType (multipart.NewWriter boundary)]
  ∧ http.Header req !! "Authorization" = Some [auth c].
Proof.
  unfold multipart_request. intros Hreq.
  apply outcome_bind_Ok in Hreq as (endpoint & Hjoin & Hreq).
  apply outcome_bind_Ok in Hreq as (w1 & Hfiles & Hreq).
  apply outcome_bind_Ok in Hreq as (w2 & Hfields & Hreq).
  apply outcome_bind_Ok in Hreq as (w3 & Hclose & Hreq).
  apply outcome_bind_Ok in Hreq as (req0 & Hnew & Hreq).
  destruct (write_files_Ok _ _ _ Hfiles) as (Hall & Hbuf1 & Hb1 & Hlast1).
  destruct (write_fields_Ok _ _ _ Hfields) as (Hbuf2 & Hb2).
  injection Hclose as <-.
  unfold NewRequestWithContext in Hnew. cbn [String.eqb negb] in Hnew.
  destruct (negb _); [done|]. destruct ctx as [|cancelled]; [done|].
  destruct (url_Parse_error endpoint); [done|].
  injection Hnew as <-. injection Hreq as <-.
  cbn [http.Header_Set http.Method http.URL http.ReqBody http.Header multipart.buf].
  split_and!.
  - done.
  - done.
  - done.
  - rewrite Hbuf2, Hbuf1, Hb2, Hb1, Hlast1. cbn [multipart.NewWriter multipart.buf
      multipart.boundary multipart.lastpart].
    rewrite document_parts_text, parts_text_app.
    f_equal.
    assert (Hst : started_after false (file_parts files) = started_after false files)
      by by destruct files.
    rewrite Hst. rewrite ?string_app_assoc. reflexivity.
  - rewrite lookup_insert_eq. unfold multipart.FormDataContentType.
    cbn [multipart.boundary multipart.NewWriter]. by rewrite Hb2, Hb1.
  - rewrite lookup_insert_ne by done. by rewrite lookup_insert_eq.
Qed.

Lemma ImportSubscribers_sent `{Libraries} `{Payloads} (boundary : string) (c : Client)
  (ctx : Context) (params : ImportSubscribersParams) (req : http.Request) :
  req ∈ sent (ImportSubscribers boundary c ctx (Some params)) →
  ∃ config,
    json_Marshal (reflect.StructValue (ImportSubscribersConfig_struct (Config params)))
    = Ok config
    ∧ req ∈ sent (multipart boundary c ctx "/api/import/subscribers"
                    [("params", config)] [("file", File params)]).
Proof.
  unfold ImportSubscribers. rewrite IO_bind_pure.
  destruct (json_Marshal _) as [config|e|p]; [|by intros ?%elem_of_nil..].
  intros Hin. exists config. split; [done|].
  rewrite IO_bind_sent in Hin. apply elem_of_app in Hin as [Hin|Hin]; [done|].
  destruct (result (multipart _ _ _ _ _ _)) as [resp|e|p]; [|by apply elem_of_nil in Hin..].
  rewrite IO_bind_sent in Hin. cbn [pure sent app] in Hin.
  destruct (decode _ resp); by apply elem_of_nil in Hin.
Qed.

(** C6. The body of every request that a multipart upload issues is one
    multipart/form-data document: a file part for each entry of the stream
    map, under the entry's field name and holding what the stream
    delivered, then a plain field for each entry of the string map; the
    request is a POST whose content type names that document's boundary.
    For [ImportSubscribers] with a file given, the parts are a file part
    named [file] with the file's bytes and a field named [params] with
    the JSON text of the configuration. *)
Theorem multipart_builds_a_form_data_document `{Libraries} `{Payloads}
  (boundary : string) (c : Client) (ctx : Context) :
  (∀ path fields files req,
     req ∈ sent (multipart boundary c ctx path fields files) →
     http.Method req = "POST"
     ∧ http.ReqBody req
       = Some (document boundary (file_parts files ++ field_parts fields))
     ∧ length (file_parts files ++ field_parts fields) = (length files + length fields)%nat
     ∧ (∀ entry, entry ∈ files → ∃ s, snd entry = Some s ∧ io.failure s = None)
     ∧ http.Header req !! "Content-Type"
       = Some [multipart.FormDataContentType (multipart.NewWriter boundary)])
  ∧ (∀ params req,
       req ∈ sent (ImportSubscribers boundary c ctx (Some params)) →
       ∃ config bytes,
         json_Marshal (reflect.StructValue (ImportSubscribersConfig_struct (Config params)))
         = Ok config
         ∧ File params = io.reader_of bytes
         ∧ http.ReqBody req
           = Some (document boundary [FilePart "file" bytes; FieldPart "params" config])).
Proof.
  assert (Hmulti : ∀ path fields files req,
     req ∈ sent (multipart boundary c ctx path fields files) →
     http.Method req = "POST"
     ∧ http.ReqBody req
       = Some (document boundary (file_parts files ++ field_parts fields))
     ∧ length (file_parts files ++ field_parts fields) = (length files + length fields)%nat
     ∧ (∀ entry, entry ∈ files → ∃ s, snd entry = Some s ∧ io.failure s = None)
     ∧ http.Header req !! "Content-Type"
       = Some [multipart.FormDataContentType (multipart.NewWriter boundary)]).
  { intros path fields files req Hreq%multipart_sent.
    destruct (multipart_request_Ok _ _ _ _ _ _ _ Hreq)
      as (Hall & Hmethod & _ & Hbody & Htype & _).
    split_and!; try done.
    unfold file_parts, field_parts. by rewrite length_app, !length_map. }
  split; [exact Hmulti|].
  intros params req (config & Hconfig & Hreq)%ImportSubscribers_sent.
  destruct (Hmulti _ _ _ _ Hreq) as (_ & Hbody & _ & Hall & _).
  destruct (Hall ("file", File params)) as (s & Hfile & Hfail); [by apply list_elem_of_singleton|].
  cbn [snd] in Hfile.
  exists config, (io.content s). split_and!; [done| |].
  - rewrite Hfile. unfold io.reader_of. destruct s as [bytes failure].
    cbn in Hfail. by rewrite Hfail.
  - rewrite Hbody. cbn [file_parts field_parts map app fst snd]. by rewrite Hfile.
Qed.

Lemma multipart_builds_a_form_data_document_witness :
  ∃ req,
    sent (ImportSubscribers (H := sample_libraries) (H0 := sample_payloads) "B0UNDARY"
            (answering 200 "{}") (Ctx false)
            (Some {| Config := {| Mode := "subscribe"; Delimeter := ","; Lists := [1%Z];
                                  Overwrite := true |};
                     File := io.reader_of "email,name" |})) = [req]
    ∧ http.ReqBody req = Some (
        "--B0UNDARY" +:+ CRLF
        +:+ "Content-Disposition: form-data; name=" +:+ quoted "file"
        +:+ "; filename=" +:+ quoted "file" +:+ CRLF
        +:+ "Content-Type: application/octet-stream" +:+ CRLF +:+ CRLF
        +:+ "email,name" +:+ CRLF
        +:+ "--B0UNDARY" +:+ CRLF
        +:+ "Content-Disposition: form-data; name=" +:+ quoted "params" +:+ CRLF +:+ CRLF
        +:+ "{}" +:+ CRLF
        +:+ "--B0UNDARY--" +:+ CRLF).
Proof.
  set (params := {| Config := {| Mode := "subscribe"; Delimeter := ","; Lists := [1%Z];
                                 Overwrite := true |};
                    File := io.reader_of "email,name" |}).
  destruct (multipart_builds_a_form_data_document (H := sample_libraries)
    (H0 := sample_payloads) "B0UNDARY" (answering 200 "{}") (Ctx false)) as [_ Himport].
  destruct (sent (ImportSubscribers (H := sample_libraries) (H0 := sample_payloads)
              "B0UNDARY" (answering 200 "{}") (Ctx false) (Some params)))
    as [|req [|req' more]] eqn:Hsent; [by vm_compute in Hsent| |by vm_compute in Hsent].
  exists req. split; [done|].
  destruct (Himport params req) as (config & bytes & Hconfig & Hfile & Hbody).
  { rewrite Hsent. apply list_elem_of_here. }
  injection Hconfig as <-. injection Hfile as <-.
  rewrite Hbody. by vm_compute.
Defined.

(** ** Query strings *)

(** *** Escaping *)

Lemma QueryEscape_cons (c : ascii) (r : string) :
  url.QueryEscape (String c r) = escape_char c +:+ url.QueryEscape r.
Proof.
  unfold escape_char. cbn [url.QueryEscape].
  destruct (Ascii.eqb c " "); [done|]. by destruct (url.shouldEscape c).
Qed.

Lemma contains_char_app (c : ascii) (a b : string) :
  contains_char c (a +:+ b) = contains_char c a || contains_char c b.
Proof.
  induction a as [|x a IH]; [done|].
  rewrite string_app_cons. cbn [contains_char]. by rewrite IH, orb_assoc.
Qed.

Lemma escape_char_clean (c : ascii) :
  contains_char "&" (escape_char c) = false
  ∧ contains_char "=" (escape_char c) = false
  ∧ contains_char ";" (escape_char c) = false.
Proof. by destruct c as [[] [] [] [] [] [] [] []]. Qed.

Lemma QueryEscape_clean (s : string) :
  contains_char "&" (url.QueryEscape s) = false
  ∧ contains_char "=" (url.QueryEscape s) = false
  ∧ contains_char ";" (url.QueryEscape s) = false.
Proof.
  induction s as [|c s (IH1 & IH2 & IH3)]; [done|].
  rewrite QueryEscape_cons, !contains_char_app, IH1, IH2, IH3.
  destruct (escape_char_clean c) as (-> & -> & ->). done.
Qed.

Lemma QueryUnescape_escape_char (c : ascii) (r : string) :
  url.QueryUnescape (escape_char c +:+ r) = String c <$> url.QueryUnescape r.
Proof. by destruct c as [[] [] [] [] [] [] [] []]. Qed.

Lemma QueryUnescape_QueryEscape (s : string) :
  url.QueryUnescape (url.QueryEscape s) = Some s.
Proof.
  induction s as [|c s IH]; [done|].
  by rewrite QueryEscape_cons, QueryUnescape_escape_char, IH.
Qed.

(** *** Cutting a query string into its pairs *)

Lemma Cut_at_first (sep : ascii) (a b : string) :
  contains_char sep a = false →
  url.Cut sep (a +:+ String sep b) = (a, b).
Proof.
  induction a as [|x a IH]; intros Hno.
  - change ("" +:+ String sep b) with (String sep b).
    cbn [url.Cut]. by rewrite Ascii.eqb_refl.
  - cbn [contains_char] in Hno. apply orb_false_elim in Hno as [Hx Ha].
    rewrite string_app_cons. cbn [url.Cut]. rewrite Ascii.eqb_sym, Hx. by rewrite IH.
Qed.

Lemma pieces_whole (sep : ascii) (a : string) :
  contains_char sep a = false → url.pieces sep a = [a].
Proof.
  induction a as [|x a IH]; intros Hno; [done|].
  cbn [contains_char] in Hno. apply orb_false_elim in Hno as [Hx Ha].
  cbn [url.pieces]. rewrite Ascii.eqb_sym, Hx. by rewrite IH.
Qed.

Lemma pieces_at_first (sep : ascii) (a b : string) :
  contains_char sep a = false →
  url.pieces sep (a +:+ String sep b) = a :: url.pieces sep b.
Proof.
  induction a as [|x a IH]; intros Hno.
  - change ("" +:+ String sep b) with (String sep b).
    cbn [url.pieces]. by rewrite Ascii.eqb_refl.
  - cbn [contains_char] in Hno. apply orb_false_elim in Hno as [Hx Ha].
    rewrite string_app_cons. cbn [url.pieces]. rewrite Ascii.eqb_sym, Hx. by rewrite IH.
Qed.

Lemma pair_text_clean (p : string * string) :
  contains_char "&" (pair_text p) = false ∧ contains_char ";" (pair_text p) = false.
Proof.
  unfold pair_text. rewrite !contains_char_app.
  destruct (QueryEscape_clean (fst p)) as (-> & _ & ->).
  destruct (QueryEscape_clean (snd p)) as (-> & _ & ->). done.
Qed.

Lemma pair_text_length (p : string * string) : (0 <? String.length (pair_text p))%nat = true.
Proof.
  unfold pair_text. generalize (url.QueryEscape (fst p)) as a.
  intros a. induction a as [|x a IH]; [done|]. by rewrite string_app_cons.
Qed.

Lemma pieces_of_joined_pairs (ps : list (string * string)) :
  url.pieces "&" (String.concat "&" (pair_text <$> ps))
  = match ps with [] => [""] | _ => pair_text <$> ps end.
Proof.
  destruct ps as [|p ps]; [done|]. revert p.
  induction ps as [|q ps IH]; intros p.
  - cbn [fmap list_fmap String.concat]. apply pieces_whole, pair_text_clean.
  - change (String.concat "&" (pair_text <$> p :: q :: ps))
      with (pair_text p +:+ String "&" (String.concat "&" (pair_text <$> q :: ps))).
    rewrite pieces_at_first by apply pair_text_clean.
    by rewrite IH.
Qed.

Lemma parse_piece_pair (m : url.Values) (err : option error) (p : string * string) :
  url.parse_piece (m, err) (pair_text p) = (add_pair m p, err).
Proof.
  unfold url.parse_piece.
  destruct (pair_text_clean p) as [_ ->].
  assert (Hne : String.eqb (pair_text p) "" = false).
  { pose proof (pair_text_length p) as Hlen. by destruct (pair_text p). }
  rewrite Hne. unfold pair_text.
  change (url.QueryEscape (fst p) +:+ "=" +:+ url.QueryEscape (snd p))
    with (url.QueryEscape (fst p) +:+ String "=" (url.QueryEscape (snd p))).
  rewrite Cut_at_first by apply QueryEscape_clean.
  by rewrite !QueryUnescape_QueryEscape.
Qed.

Lemma parse_pieces_pairs (ps : list (string * string)) (m : url.Values)
  (err : option error) :
  fold_left url.parse_piece (pair_text <$> ps) (m, err) = (fold_left add_pair ps m, err).
Proof.
  revert m. induction ps as [|p ps IH]; intros m; [done|].
  cbn [fmap list_fmap fold_left]. change (list_fmap _ _ pair_text ps) with (pair_text <$> ps).
  by rewrite parse_piece_pair, IH.
Qed.

(** Parsing the pairs written one after the other, with ampersands
    between them, adds them one after the other. *)
Lemma ParseQuery_joined_pairs (ps : list (string * string)) :
  url.ParseQuery (String.concat "&" (pair_text <$> ps)) = (fold_left add_pair ps ∅, None).
Proof.
  unfold url.ParseQuery. rewrite pieces_of_joined_pairs.
  destruct ps as [|p ps]; [done|]. apply parse_pieces_pairs.
Qed.

(** *** What [Encode] writes *)

Lemma length_app_pos (a b : string) :
  (0 <? String.length a)%nat = true → (0 <? String.length (a +:+ b))%nat = true.
Proof. by destruct a. Qed.

Lemma concat_merge_head (a b : string) (l : list string) :
  String.concat "&" ((a +:+ "&" +:+ b) :: l) = String.concat "&" (a :: b :: l).
Proof.
  destruct l as [|x l]; [done|].
  change (String.concat "&" ((a +:+ "&" +:+ b) :: x :: l))
    with ((a +:+ "&" +:+ b) +:+ "&" +:+ String.concat "&" (x :: l)).
  change (String.concat "&" (a :: b :: x :: l))
    with (a +:+ "&" +:+ b +:+ "&" +:+ String.concat "&" (x :: l)).
  by rewrite !string_app_assoc.
Qed.

Lemma write_pairs_started (ps : list (string * string)) (buf : string) :
  (0 <? String.length buf)%nat = true →
  fold_left (fun buf p => url.write_pair (fst p) buf (snd p)) ps buf
  = String.concat "&" (buf :: (pair_text <$> ps)).
Proof.
  revert buf. induction ps as [|p ps IH]; intros buf Hbuf; [done|].
  cbn [fold_left]. unfold url.write_pair at 2. rewrite Hbuf.
  rewrite IH by by apply length_app_pos, length_app_pos.
  cbn [fmap list_fmap]. rewrite <- concat_merge_head. unfold pair_text.
  by rewrite !string_app_assoc.
Qed.

Lemma write_pairs_from_empty (ps : list (string * string)) :
  fold_left (fun buf p => url.write_pair (fst p) buf (snd p)) ps ""
  = String.concat "&" (pair_text <$> ps).
Proof.
  destruct ps as [|p ps]; [done|].
  cbn [fold_left]. rewrite write_pairs_started; [done|]. apply pair_text_length.
Qed.

Lemma write_pairs_of_key (key : string) (xs : list string) (buf : string) :
  fold_left (url.write_pair key) xs buf
  = fold_left (fun buf p => url.write_pair (fst p) buf (snd p))
      ((fun x => (key, x)) <$> xs) buf.
Proof. revert buf. induction xs as [|x xs IH]; intros buf; [done|]. cbn. apply IH. Qed.

Lemma write_keys (v : url.Values) (keys : list string) (buf : string) :
  fold_left (fun buf key => fold_left (url.write_pair key) (url.Get_all v key) buf) keys buf
  = fold_left (fun buf p => url.write_pair (fst p) buf (snd p))
      (flat_map (pairs_under v) keys) buf.
Proof.
  revert buf. induction keys as [|key keys IH]; intros buf; [done|].
  cbn [fold_left flat_map]. rewrite fold_left_app.
  rewrite (write_pairs_of_key key (url.Get_all v key) buf). apply IH.
Qed.

(** [Encode] writes the pairs with ampersands between them. *)
Lemma Encode_joined_pairs (v : url.Values) :
  url.Encode v = String.concat "&" (pair_text <$> encoded_pairs v).
Proof.
  unfold url.Encode, encoded_pairs. by rewrite write_keys, write_pairs_from_empty.
Qed.

(** *** Adding the pairs back *)

Lemma Get_all_Add (m : url.Values) (key value k : string) :
  url.Get_all (url.Add key value m) k
  = if decide (k = key) then (url.Get_all m k ++ [value])%list else url.Get_all m k.
Proof.
  unfold url.Add, url.Get_all at 1. destruct (decide (k = key)) as [->|Hne].
  - by rewrite lookup_insert_eq.
  - by rewrite lookup_insert_ne.
Qed.

Lemma add_pairs_under (key : string) (xs : list string) (m : url.Values) :
  xs ≠ [] →
  fold_left add_pair ((fun x => (key, x)) <$> xs) m
  = <[key := (url.Get_all m key ++ xs)%list]> m.
Proof.
  revert m. induction xs as [|x xs IH]; intros m Hne; [done|].
  cbn [fmap list_fmap fold_left]. change (list_fmap _ _ ?f xs) with (f <$> xs).
  unfold add_pair at 2. cbn [fst snd].
  destruct xs as [|y xs]; [done|].
  rewrite IH by done. rewrite Get_all_Add, decide_True by done.
  unfold url.Add. rewrite insert_insert_eq. by rewrite <- app_assoc.
Qed.

Lemma add_encoded_pairs (v : url.Values) (keys : list string) (m : url.Values) (k : string) :
  NoDup keys →
  (∀ key, key ∈ keys → m !! key = None) →
  (fold_left add_pair (flat_map (pairs_under v) keys) m) !! k
  = if decide (k ∈ keys ∧ url.Get_all v k ≠ []) then Some (url.Get_all v k) else m !! k.
Proof.
  revert m. induction keys as [|key keys IH]; intros m Hnodup Hfresh.
  - cbn. rewrite decide_False; [done|]. by intros [?%elem_of_nil _].
  - apply NoDup_cons in Hnodup as [Hnotin Hnodup].
    cbn [flat_map]. rewrite fold_left_app.
    destruct (decide (url.Get_all v key = [])) as [Hempty|Hne].
    + unfold pairs_under at 2. rewrite Hempty. cbn [fmap list_fmap fold_left].
      rewrite IH; [|done|]; last first.
      { intros key' Hin. apply Hfresh. by right. }
      destruct (decide (k = key)) as [->|Hk].
      * rewrite !decide_False; [done| |]; intros [? ?]; done.
      * destruct (decide (k ∈ keys ∧ url.Get_all v k ≠ [])) as [[Hin Hv]|Hno].
        -- rewrite decide_True; [done|]. split; [by right|done].
        -- rewrite decide_False; [done|].
           intros [[->|Hin]%elem_of_cons Hv]; [done|]. by apply Hno.
    + unfold pairs_under at 2. rewrite add_pairs_under by done.
      assert (Hm : url.Get_all m key = []).
      { unfold url.Get_all. rewrite Hfresh; [done|]. by left. }
      rewrite Hm, app_nil_l.
      rewrite IH; [|done|]; last first.
      { intros key' Hin. rewrite lookup_insert_ne; [apply Hfresh; by right|].
        by intros ->. }
      destruct (decide (k = key)) as [->|Hk].
      * rewrite decide_False by (by intros [? ?]).
        rewrite decide_True by (split; [by left|done]).
        by rewrite lookup_insert_eq.
      * rewrite lookup_insert_ne by done.
        destruct (decide (k ∈ keys ∧ url.Get_all v k ≠ [])) as [[Hin Hv]|Hno].
        -- rewrite decide_True; [done|]. split; [by right|done].
        -- rewrite decide_False; [done|].
           intros [[->|Hin]%elem_of_cons Hv]; [done|]. by apply Hno.
Qed.

Lemma sorted_keys_NoDup (v : url.Values) : NoDup (url.sorted_keys v).
Proof.
  unfold url.sorted_keys. rewrite merge_sort_Permutation. apply NoDup_fst_map_to_list.
Qed.

Lemma elem_of_sorted_keys (v : url.Values) (k : string) :
  k ∈ url.sorted_keys v ↔ is_Some (v !! k).
Proof.
  unfold url.sorted_keys. rewrite merge_sort_Permutation.
  change (map fst (map_to_list v)) with (fst <$> map_to_list v).
  rewrite list_elem_of_fmap. split.
  - intros ([k' x] & -> & Hin). apply elem_of_map_to_list in Hin. by exists x.
  - intros [x Hx]. exists (k, x). split; [done|]. by apply elem_of_map_to_list.
Qed.

(** A map without empty entries comes back from its encoding. *)
Lemma add_back_encoded_pairs (v : url.Values) :
  no_empty_entry v → fold_left add_pair (encoded_pairs v) ∅ = v.
Proof.
  intros Hv. apply map_eq. intros k. unfold encoded_pairs.
  rewrite add_encoded_pairs; [|apply sorted_keys_NoDup|done].
  unfold url.Get_all. destruct (v !! k) as [l|] eqn:Hk; simpl.
  - rewrite decide_True; [done|]. split.
    + apply elem_of_sorted_keys. by rewrite Hk.
    + intros Hl. apply (Hv k). by rewrite Hk, Hl.
  - rewrite decide_False; [done|]. intros [_ ?]. done.
Qed.

Lemma ParseQuery_Encode (v : url.Values) :
  no_empty_entry v → url.ParseQuery (url.Encode v) = (v, None).
Proof.
  intros Hv. by rewrite Encode_joined_pairs, ParseQuery_joined_pairs, add_back_encoded_pairs.
Qed.

(** *** What [query.Values] puts into the map *)

Lemma reflectField_add_all (m : url.Values) (sf : reflect.StructField) :
  query.reflectField m sf =
    match field_key sf with
    | Some name => add_all name (renderings (reflect.Value sf)) m
    | None => m
    end.
Proof.
  unfold query.reflectField, field_key, add_all, renderings.
  destruct (reflect.url sf); [|done|]; destruct (reflect.Value sf) as [x|xs]; try done.
  - revert m. induction xs as [|x xs IH]; intros m; [done|]. cbn. apply IH.
  - revert m. induction xs as [|x xs IH]; intros m; [done|]. cbn. apply IH.
Qed.

Lemma Get_all_add_all (name : string) (values : list string) (m : url.Values) (k : string) :
  url.Get_all (add_all name values m) k
  = if decide (k = name) then (url.Get_all m k ++ values)%list else url.Get_all m k.
Proof.
  unfold add_all. revert m. induction values as [|r values IH]; intros m.
  - cbn. destruct (decide (k = name)); by rewrite ?app_nil_r.
  - cbn [fold_left]. rewrite IH, Get_all_Add.
    destruct (decide (k = name)); [|done]. by rewrite <- app_assoc.
Qed.

Lemma no_empty_entry_Add (key value : string) (m : url.Values) :
  no_empty_entry m → no_empty_entry (url.Add key value m).
Proof.
  intros Hm k. unfold url.Add. destruct (decide (k = key)) as [->|Hne].
  - rewrite lookup_insert_eq. intros [= Happ]. by destruct (url.Get_all m key).
  - rewrite lookup_insert_ne by done. apply Hm.
Qed.

Lemma no_empty_entry_add_all (name : string) (values : list string) (m : url.Values) :
  no_empty_entry m → no_empty_entry (add_all name values m).
Proof.
  unfold add_all. revert m. induction values as [|r values IH]; intros m Hm; [done|].
  cbn [fold_left]. by apply IH, no_empty_entry_Add.
Qed.

Lemma no_empty_entry_reflectValue (s : reflect.Struct) :
  no_empty_entry (query.reflectValue ∅ s).
Proof.
  unfold query.reflectValue.
  assert (Hgen : ∀ fields m, no_empty_entry m →
            no_empty_entry (fold_left query.reflectField fields m)).
  { induction fields as [|sf fields IH]; intros m Hm; [done|].
    cbn [fold_left]. apply IH. rewrite reflectField_add_all.
    destruct (field_key sf); [by apply no_empty_entry_add_all|done]. }
  apply Hgen. intros k. by rewrite lookup_empty.
Qed.

Lemma Get_all_reflect_fields (fields : list reflect.StructField) (m : url.Values)
  (key : string) :
  url.Get_all (fold_left query.reflectField fields m) key
  = (url.Get_all m key ++ flat_map (renderings_under key) fields)%list.
Proof.
  revert m. induction fields as [|sf fields IH]; intros m.
  - cbn. by rewrite app_nil_r.
  - cbn [fold_left flat_map]. rewrite IH, reflectField_add_all.
    unfold renderings_under at 2.
    destruct (field_key sf) as [name|].
    + rewrite Get_all_add_all.
      destruct (decide (key = name)) as [->|Hne].
      * rewrite decide_True by done. by rewrite <- app_assoc.
      * rewrite decide_False; [done|]. by intros [= ->].
    + by rewrite decide_False.
Qed.

Lemma Get_all_reflectValue (s : reflect.Struct) (key : string) :
  url.Get_all (query.reflectValue ∅ s) key
  = flat_map (renderings_under key) (reflect.Fields s).
Proof. unfold query.reflectValue. by rewrite Get_all_reflect_fields. Qed.

Lemma Itoa_inj (a b : Z) : time.Itoa a = time.Itoa b → a = b.
Proof.
  unfold time.Itoa. intros Heq. apply DecimalZ.to_int_inj.
  assert (Hnz : ∀ n, Z.to_int n ≠ Decimal.Pos Decimal.Nil ∧ Z.to_int n ≠ Decimal.Neg Decimal.Nil).
  { intros [|p|p]; cbn; split; try done.
    - intros [= Hp]. by destruct (DecimalPos.Unsigned.to_uint_nonnil p).
    - intros [= Hp]. by destruct (DecimalPos.Unsigned.to_uint_nonnil p). }
  pose proof (NilZero.isi (Z.to_int a) (proj1 (Hnz a)) (proj2 (Hnz a))) as Ha.
  pose proof (NilZero.isi (Z.to_int b) (proj1 (Hnz b)) (proj2 (Hnz b))) as Hb.
  rewrite Heq, Hb in Ha. by injection Ha.
Qed.

Lemma elem_of_encoded_pairs (v : url.Values) (key value : string) :
  (key, value) ∈ encoded_pairs v ↔ value ∈ url.Get_all v key.
Proof.
  unfold encoded_pairs. rewrite list_elem_of_In, in_flat_map. split.
  - intros (k & _ & Hin). apply list_elem_of_In in Hin. unfold pairs_under in Hin.
    apply list_elem_of_fmap in Hin as (x & [= -> ->] & Hx). done.
  - intros Hin. exists key. split.
    + apply list_elem_of_In, elem_of_sorted_keys. unfold url.Get_all in Hin.
      destruct (v !! key); [done|]. by apply elem_of_nil in Hin.
    + apply list_elem_of_In. unfold pairs_under. apply list_elem_of_fmap. by exists value.
Qed.

(** Every value of a map is a pair of its encoding. *)
Lemma pair_in_Encode (v : url.Values) (key value : string) :
  value ∈ url.Get_all v key → pair_text (key, value) ∈ url.pieces "&" (url.Encode v).
Proof.
  intros Hin%elem_of_encoded_pairs.
  rewrite Encode_joined_pairs, pieces_of_joined_pairs.
  destruct (encoded_pairs v) as [|p ps] eqn:Hps; [by apply elem_of_nil in Hin|].
  apply list_elem_of_fmap. by exists (key, value).
Qed.

Lemma encoded_query_struct (d : reflect.dynamic) (s : reflect.Struct) :
  struct_of d = Some s → query.Values d = Ok (query.reflectValue ∅ s).
Proof. destruct d as [s'|[s'|]|kind]; intros [= ->]; done. Qed.

(** The claim C8 as it is written does not hold: two parameter objects
    that differ in a field excluded from the query ([Type], tagged
    [url:"-"]), or in the nanoseconds of a time, have the same query
    string, so that no decoding of the query string gives back every
    original. *)
Lemma query_string_does_not_determine_the_object :
  Type_ views_of_campaign_1 ≠ Type_ clicks_of_campaign_1
  ∧ encoded_query (reflect.Pointer (Some (GetCampaignViewsParams_struct views_of_campaign_1)))
    = encoded_query
        (reflect.Pointer (Some (GetCampaignViewsParams_struct clicks_of_campaign_1)))
  ∧ From views_of_campaign_1 ≠ From views_from_just_after_noon
  ∧ encoded_query (reflect.Pointer (Some (GetCampaignViewsParams_struct views_of_campaign_1)))
    = encoded_query
        (reflect.Pointer (Some (GetCampaignViewsParams_struct views_from_just_after_noon)))
  ∧ ¬ ∃ decode : string → GetCampaignViewsParams,
        ∀ p query,
          encoded_query (reflect.Pointer (Some (GetCampaignViewsParams_struct p))) = Ok query →
          decode query = p.
Proof.
  assert (Hsame :
    encoded_query (reflect.Pointer (Some (GetCampaignViewsParams_struct views_of_campaign_1)))
    = encoded_query
        (reflect.Pointer (Some (GetCampaignViewsParams_struct clicks_of_campaign_1))))
    by by vm_compute.
  split_and!; [done|exact Hsame|done|by vm_compute|].
  intros [decode Hdecode].
  destruct (encoded_query
    (reflect.Pointer (Some (GetCampaignViewsParams_struct clicks_of_campaign_1))))
    as [query| |] eqn:Hq; [|by vm_compute in Hq..].
  pose proof (Hdecode _ _ Hsame) as Hviews.
  pose proof (Hdecode _ _ Hq) as Hclicks.
  rewrite Hclicks in Hviews. discriminate Hviews.
Qed.

(** C8, amended. For every parameter object that is or points to a
    struct, parsing the query string made from it gives back exactly the
    keys and values that the encoder produced: under each key the texts of
    the fields with that key, in field order, a slice as one value per
    element in the slice's order; and a string, an integer or a boolean is
    determined by its text. (A field tagged [url:"-"] has no key, and a
    time is written to the second.) *)
Theorem query_values_come_back_in_order (d : reflect.dynamic) (s : reflect.Struct)
  (query : string) :
  struct_of d = Some s →
  encoded_query d = Ok query →
  url.ParseQuery query = (query.reflectValue ∅ s, None)
  ∧ (∀ key, url.Get_all (fst (url.ParseQuery query)) key
            = flat_map (renderings_under key) (reflect.Fields s))
  ∧ (∀ a b, query.valueString (reflect.String_ a) = query.valueString (reflect.String_ b)
            → a = b)
  ∧ (∀ a b, query.valueString (reflect.Int a) = query.valueString (reflect.Int b) → a = b)
  ∧ (∀ a b, query.valueString (reflect.Bool a) = query.valueString (reflect.Bool b)
            → a = b).
Proof.
  intros Hs Hq. unfold encoded_query in Hq. rewrite (encoded_query_struct d s Hs) in Hq.
  injection Hq as <-.
  assert (Hparse : url.ParseQuery (url.Encode (query.reflectValue ∅ s))
                   = (query.reflectValue ∅ s, None)).
  { apply ParseQuery_Encode, no_empty_entry_reflectValue. }
  split_and!.
  - done.
  - intros key. rewrite Hparse. apply Get_all_reflectValue.
  - by intros a b.
  - intros a b. apply Itoa_inj.
  - by intros [] [].
Qed.

Lemma query_values_come_back_in_order_witness :
  url.Get_all
    (fst (url.ParseQuery
            "list_id=3&list_id=1&list_id=2&order=&order_by=&page=2&per_page=0&query=a+b&subscription_status="))
    "list_id" = ["3"; "1"; "2"].
Proof.
  set (p := {| Query := "a b"; ListID := [3%Z; 1%Z; 2%Z]; SubscriptionStatus := "";
               OrderBy := ""; Order := ""; Page := 2; PerPage := 0 |}).
  destruct (query_values_come_back_in_order
    (reflect.Pointer (Some (GetSubscribersParams_struct p))) (GetSubscribersParams_struct p)
    "list_id=3&list_id=1&list_id=2&order=&order_by=&page=2&per_page=0&query=a+b&subscription_status="
    eq_refl) as (_ & Hkeys & _); [by vm_compute|].
  rewrite Hkeys. by vm_compute.
Defined.

(** The claim C4 as it is written does not hold: the fields of a
    [GetSubscribersParams] that hold zero values are in the query string of
    the request, the unset page number as [page=0]. *)
Lemma zero_values_are_in_the_query_string :
  Page GetSubscribersParams_zero = 0%Z
  ∧ ¬ omits_zero_values (GetSubscribersParams_struct GetSubscribersParams_zero)
  ∧ ∃ req,
      sent (GetSubscribers (H := sample_libraries) (H0 := sample_payloads)
              (answering 200 "{}") (Ctx false) (Some GetSubscribersParams_zero)) = [req]
      ∧ http.URL req =
          "http://localhost:9000/api/subscribers?order=&order_by=&page=0&per_page=0&query=&subscription_status=".
Proof.
  split_and!; [done| |].
  - intros Homits.
    specialize (Homits (plain "Page" "page" (reflect.Int 0)) "page").
    assert (Hnone : query.reflectValue ∅ (GetSubscribersParams_struct GetSubscribersParams_zero)
                      !! "page" = None).
    { apply Homits; [|done..]. cbn. do 5 right. left. }
    by vm_compute in Hnone.
  - destruct (sent (GetSubscribers (H := sample_libraries) (H0 := sample_payloads)
                      (answering 200 "{}") (Ctx false) (Some GetSubscribersParams_zero)))
      as [|req [|req' more]] eqn:Hsent; [by vm_compute in Hsent| |by vm_compute in Hsent].
    exists req. split; [done|].
    vm_compute in Hsent. injection Hsent as <-. reflexivity.
Qed.

(** C4, amended. Every request that [do] issues for a parameter object
    that is or points to a struct has the encoded fields as its query
    string, and every string, integer, boolean or time field not tagged
    [url:"-"] is in it under its key as its text, whatever its value: a
    zero value is sent as text ([page=0], an empty value for an empty
    string), not left out. The values under a key are those of the fields
    with that key, so a key whose fields are all empty slices is the only
    kind that is absent. For a nil parameter pointer nothing is appended
    to the URL. *)
Theorem scalar_fields_are_sent_whatever_their_value `{Libraries} (c : Client)
  (ctx : Context) (method path : string) :
  (∀ d s req,
     req ∈ sent (do c ctx method path (Some d)) →
     struct_of d = Some s →
     ∃ joined query,
       url_JoinPath (BaseURL (config c)) path = Ok joined
       ∧ query = url.Encode (query.reflectValue ∅ s)
       ∧ http.URL req
         = (if (0 <? String.length query)%nat then joined +:+ "?" +:+ query else joined)
       ∧ (∀ sf key x,
            sf ∈ reflect.Fields s → field_key sf = Some key →
            reflect.Value sf = reflect.Scalar x →
            pair_text (key, query.valueString x) ∈ url.pieces "&" query
            ∧ (0 <? String.length query)%nat = true)
       ∧ (∀ key, url.Get_all (fst (url.ParseQuery query)) key
                 = flat_map (renderings_under key) (reflect.Fields s)))
  ∧ (∀ req,
       req ∈ sent (do c ctx method path (Some (reflect.Pointer None))) →
       url_JoinPath (BaseURL (config c)) path = Ok (http.URL req)).
Proof.
  split.
  - intros d s req Hreq%do_sent Hs.
    destruct (do_request_Ok _ _ _ _ _ _ Hreq) as (joined & Hjoin & Hurl & _).
    destruct Hurl as (q & Hq & Hurl). rewrite (encoded_query_struct d s Hs) in Hq.
    injection Hq as <-.
    exists joined, (url.Encode (query.reflectValue ∅ s)). split_and!; try done.
    + intros sf key x Hin Hkey Hx.
      assert (Hpiece : pair_text (key, query.valueString x)
                       ∈ url.pieces "&" (url.Encode (query.reflectValue ∅ s))).
      { apply pair_in_Encode. rewrite Get_all_reflectValue.
        apply list_elem_of_In, in_flat_map. exists sf. split; [by apply list_elem_of_In|].
        unfold renderings_under. rewrite decide_True by done. rewrite Hx. by left. }
      split; [done|].
      rewrite Encode_joined_pairs, pieces_of_joined_pairs in Hpiece.
      rewrite Encode_joined_pairs.
      destruct (encoded_pairs (query.reflectValue ∅ s)) as [|p ps].
      * apply list_elem_of_singleton in Hpiece.
        pose proof (pair_text_length (key, query.valueString x)) as Hlen.
        by rewrite Hpiece in Hlen.
      * clear. cbn [fmap list_fmap String.concat].
        destruct (pair_text <$> ps);
          [apply pair_text_length|apply length_app_pos, pair_text_length].
    + intros key. rewrite ParseQuery_Encode by apply no_empty_entry_reflectValue.
      apply Get_all_reflectValue.
  - intros req Hreq%do_sent.
    destruct (do_request_Ok _ _ _ _ _ _ Hreq) as (joined & Hjoin & Hurl & _).
    destruct Hurl as (q & [= <-] & Hurl). by rewrite Hurl.
Qed.

Lemma scalar_fields_are_sent_whatever_their_value_witness :
  ∃ req,
    req ∈ sent (do (H := sample_libraries) (answering 200 "{}") (Ctx false) "GET"
                  "/api/subscribers"
                  (pointer_arg GetSubscribersParams_struct (Some GetSubscribersParams_zero)))
    ∧ "page=0" ∈ url.pieces "&"
        (url.Encode
           (query.reflectValue ∅ (GetSubscribersParams_struct GetSubscribersParams_zero))).
Proof.
  destruct (do_request (H := sample_libraries) (answering 200 "{}") (Ctx false) "GET"
              "/api/subscribers"
              (pointer_arg GetSubscribersParams_struct (Some GetSubscribersParams_zero)))
    as [req|e|p] eqn:Hreq; [|by vm_compute in Hreq..].
  exists req. apply do_sent in Hreq. split; [done|].
  destruct (scalar_fields_are_sent_whatever_their_value (H := sample_libraries)
    (answering 200 "{}") (Ctx false) "GET" "/api/subscribers") as [Hsent _].
  destruct (Hsent _ (GetSubscribersParams_struct GetSubscribersParams_zero) req Hreq eq_refl)
    as (joined & query & _ & -> & _ & Hscalar & _).
  destruct (Hscalar (plain "Page" "page" (reflect.Int 0)) "page" (reflect.Int 0))
    as [Hpiece _]; [|done|done|exact Hpiece].
  cbn. do 5 right. left.
Defined.

(** ** The JSON reader always finishes within its budget *)

Lemma skip_space_length (s : string) :
  (String.length (json.skip_space s) ≤ String.length s)%nat.
Proof.
  induction s as [|c s IH]; [done|]. cbn [json.skip_space].
  destruct (json.isSpace c); cbn [String.length]; lia.
Qed.

Lemma scan_map_Scanned {A B} (f : A → B) (x : json.scan A) (b : B) (r : string) :
  json.scan_map f x = json.Scanned b r → ∃ a, x = json.Scanned a r ∧ b = f a.
Proof. destruct x as [a r'| | |]; try done. intros [= <- <-]. by exists a. Qed.

Lemma scan_map_Exhausted {A B} (f : A → B) (x : json.scan A) :
  json.scan_map f x = json.Exhausted → x = json.Exhausted.
Proof. by destruct x. Qed.

Lemma scan_string_rest (st : json.sstate) (s raw r : string) :
  json.scan_string st s = json.Scanned raw r → (String.length r < String.length s)%nat.
Proof.
  revert st raw. induction s as [|c s IH]; intros st raw Hscan; [done|].
  cbn [json.scan_string] in Hscan. cbn [String.length].
  destruct st as [| |n].
  - destruct (Ascii.eqb c dquote); [injection Hscan as _ <-; lia|].
    destruct (Ascii.eqb c "\").
    + apply scan_map_Scanned in Hscan as (a & Ha%IH & _). lia.
    + destruct (code c <? 32)%N; [done|].
      apply scan_map_Scanned in Hscan as (a & Ha%IH & _). lia.
  - destruct (_ || _).
    + apply scan_map_Scanned in Hscan as (a & Ha%IH & _). lia.
    + destruct (Ascii.eqb c "u"); [|done].
      apply scan_map_Scanned in Hscan as (a & Ha%IH & _). lia.
  - destruct (json.hexval c); [|done].
    apply scan_map_Scanned in Hscan as (a & Ha%IH & _). lia.
Qed.

Lemma scan_string_not_Exhausted (st : json.sstate) (s : string) :
  json.scan_string st s ≠ json.Exhausted.
Proof.
  revert st. induction s as [|c s IH]; intros st; [done|].
  cbn [json.scan_string]. destruct st as [| |n].
  - destruct (Ascii.eqb c dquote); [done|].
    destruct (Ascii.eqb c "\"); [by intros ?%scan_map_Exhausted%IH|].
    destruct (code c <? 32)%N; [done|]. by intros ?%scan_map_Exhausted%IH.
  - destruct (_ || _); [by intros ?%scan_map_Exhausted%IH|].
    destruct (Ascii.eqb c "u"); [|done]. by intros ?%scan_map_Exhausted%IH.
  - destruct (json.hexval c); [|done]. by intros ?%scan_map_Exhausted%IH.
Qed.

Lemma scan_number_rest (st : json.nstate) (s lit r : string) :
  json.scan_number st s = json.Scanned lit r → (String.length r ≤ String.length s)%nat.
Proof.
  revert st lit. induction s as [|c s IH]; intros st lit Hscan.
  - cbn in Hscan. destruct (json.nfinal st); [|done]. by injection Hscan as _ <-.
  - cbn [json.scan_number] in Hscan. cbn [String.length].
    destruct (json.nstep st c).
    + apply scan_map_Scanned in Hscan as (a & Ha%IH & _). lia.
    + destruct (json.nfinal st); [|done]. injection Hscan as _ <-. cbn. lia.
Qed.

Lemma scan_number_not_Exhausted (st : json.nstate) (s : string) :
  json.scan_number st s ≠ json.Exhausted.
Proof.
  revert st. induction s as [|c s IH]; intros st.
  - cbn. by destruct (json.nfinal st).
  - cbn [json.scan_number]. destruct (json.nstep st c).
    + by intros ?%scan_map_Exhausted%IH.
    + by destruct (json.nfinal st).
Qed.

Lemma expect_rest (lit s r : string) (u : unit) :
  json.expect lit s = json.Scanned u r → (String.length r ≤ String.length s)%nat.
Proof.
  revert s. induction lit as [|l lit IH]; intros s Hscan.
  - by injection Hscan as _ <-.
  - cbn [json.expect] in Hscan. destruct s as [|c s]; [done|].
    destruct (Ascii.eqb c l); [|done]. apply IH in Hscan. cbn. lia.
Qed.

Lemma expect_not_Exhausted (lit s : string) : json.expect lit s ≠ json.Exhausted.
Proof.
  revert s. induction lit as [|l lit IH]; intros s; [done|].
  cbn [json.expect]. destruct s as [|c s]; [done|]. by destruct (Ascii.eqb c l).
Qed.

Ltac scan_inv IHv IHe IHm :=
  repeat match goal with
  | H : json.Scanned _ _ = json.Scanned _ _ |- _ => injection H as ? ?; subst
  | H : json.Invalid = json.Scanned _ _ |- _ => discriminate H
  | H : json.Truncated = json.Scanned _ _ |- _ => discriminate H
  | H : json.Exhausted = json.Scanned _ _ |- _ => discriminate H
  | H : json.scan_map _ _ = json.Scanned _ _ |- _ =>
    apply scan_map_Scanned in H as (? & H & _)
  | H : json.scan_string _ _ = json.Scanned _ _ |- _ => apply scan_string_rest in H
  | H : json.scan_number _ _ = json.Scanned _ _ |- _ => apply scan_number_rest in H
  | H : json.expect _ _ = json.Scanned _ _ |- _ => apply expect_rest in H
  | H : json.scan_value _ _ _ = json.Scanned _ _ |- _ => apply IHv in H
  | H : json.scan_elems _ _ _ = json.Scanned _ _ |- _ => apply IHe in H
  | H : json.scan_members _ _ _ = json.Scanned _ _ |- _ => apply IHm in H
  | H : context [json.skip_space ?x] |- _ =>
    lazymatch goal with
    | _ : json.skip_space x = _ |- _ => fail
    | _ =>
      pose proof (skip_space_length x);
      let E := fresh "Hskip" in destruct (json.skip_space x) eqn:E
    end
  | H : (if ?b then _ else _) = json.Scanned _ _ |- _ => destruct b
  | H : match ?x with json.Scanned _ _ => _ | _ => _ end = json.Scanned _ _ |- _ =>
    let E := fresh "Hscan" in destruct x eqn:E
  end.

(** What a scan leaves unread is shorter than what it was given. *)
Lemma scan_rest (fuel : nat) :
  (∀ depth s v r, json.scan_value fuel depth s = json.Scanned v r →
     (String.length r < String.length s)%nat)
  ∧ (∀ depth s vs r, json.scan_elems fuel depth s = json.Scanned vs r →
       (String.length r < String.length s)%nat)
  ∧ (∀ depth s ms r, json.scan_members fuel depth s = json.Scanned ms r →
       (String.length r < String.length s)%nat).
Proof.
  induction fuel as [|fuel (IHv & IHe & IHm)]; [by split_and!|].
  split_and!; intros depth s v r Hscan.
  - cbn [json.scan_value] in Hscan. scan_inv IHv IHe IHm; cbn [String.length] in *; lia.
  - cbn [json.scan_elems] in Hscan. scan_inv IHv IHe IHm; cbn [String.length] in *; lia.
  - cbn [json.scan_members] in Hscan. scan_inv IHv IHe IHm; cbn [String.length] in *; lia.
Qed.

Ltac scan_exh IHv IHe IHm Rv Re Rm :=
  repeat match goal with
  | H : json.Scanned _ _ = json.Exhausted |- _ => discriminate H
  | H : json.Invalid = json.Exhausted |- _ => discriminate H
  | H : json.Truncated = json.Exhausted |- _ => discriminate H
  | H : json.scan_string _ _ = json.Exhausted |- _ =>
    destruct (scan_string_not_Exhausted _ _ H)
  | H : json.scan_number _ _ = json.Exhausted |- _ =>
    destruct (scan_number_not_Exhausted _ _ H)
  | H : json.expect _ _ = json.Exhausted |- _ => destruct (expect_not_Exhausted _ _ H)
  | H : json.scan_map _ _ = json.Exhausted |- _ => apply scan_map_Exhausted in H
  | H : json.scan_string _ _ = json.Scanned _ _ |- _ => apply scan_string_rest in H
  | H : json.scan_value _ _ _ = json.Scanned _ _ |- _ => apply Rv in H
  | H : json.scan_elems _ _ _ = json.Scanned _ _ |- _ => apply Re in H
  | H : json.scan_members _ _ _ = json.Scanned _ _ |- _ => apply Rm in H
  | H : json.scan_value _ _ _ = json.Exhausted |- _ =>
    exfalso; eapply IHv; [|exact H]; cbn [String.length] in *; lia
  | H : json.scan_elems _ _ _ = json.Exhausted |- _ =>
    exfalso; eapply IHe; [|exact H]; cbn [String.length] in *; lia
  | H : json.scan_members _ _ _ = json.Exhausted |- _ =>
    exfalso; eapply IHm; [|exact H]; cbn [String.length] in *; lia
  | H : context [json.skip_space ?x] |- _ =>
    lazymatch goal with
    | _ : json.skip_space x = _ |- _ => fail
    | _ =>
      pose proof (skip_space_length x);
      let E := fresh "Hskip" in destruct (json.skip_space x) eqn:E
    end
  | H : (if ?b then _ else _) = json.Exhausted |- _ => destruct b
  | H : match ?x with json.Scanned _ _ => _ | _ => _ end = json.Exhausted |- _ =>
    let E := fresh "Hscan" in destruct x eqn:E
  end.

(** With a budget of more than twice the length of the input, a scan
    does not run out of budget. *)
Lemma scan_fuel (fuel : nat) :
  (∀ depth s, (2 * String.length s < fuel)%nat →
     json.scan_value fuel depth s ≠ json.Exhausted)
  ∧ (∀ depth s, (2 * String.length s + 1 < fuel)%nat →
       json.scan_elems fuel depth s ≠ json.Exhausted)
  ∧ (∀ depth s, (2 * String.length s < fuel)%nat →
       json.scan_members fuel depth s ≠ json.Exhausted).
Proof.
  induction fuel as [|fuel (IHv & IHe & IHm)]; [split_and!; intros; lia|].
  destruct (scan_rest fuel) as (Rv & Re & Rm).
  split_and!; intros depth s Hlen Hscan.
  - cbn [json.scan_value] in Hscan. scan_exh IHv IHe IHm Rv Re Rm.
  - cbn [json.scan_elems] in Hscan. scan_exh IHv IHe IHm Rv Re Rm.
  - cbn [json.scan_members] in Hscan. scan_exh IHv IHe IHm Rv Re Rm.
Qed.

Lemma read_value_not_Exhausted (body : string) : json.read_value body ≠ json.Exhausted.
Proof. unfold json.read_value. apply scan_fuel. lia. Qed.

(** * Further properties of the code *)

(** ** [do], [multipart] and [request] *)

(** X1. Every request that [do] issues carries exactly two headers, the
    [Authorization] header made from the API user and token and the JSON
    content type (also on a GET or DELETE without a body), together with
    the caller's context and the method given (GET for an empty method). *)
Theorem do_sets_the_headers `{Libraries} (c : Client) (ctx : Context)
  (method path : string) (data : any) (req : http.Request) :
  req ∈ sent (do c ctx method path data) →
  http.Header req !! "Authorization"
  = Some ["token " +:+ APIUser (config c) +:+ ":" +:+ Token (config c)]
  ∧ http.Header req !! "Content-Type" = Some ["application/json"]
  ∧ (∀ key, key ≠ "Authorization" → key ≠ "Content-Type" → http.Header req !! key = None)
  ∧ http.ReqCtx req = ctx
  ∧ http.Method req = (if String.eqb method "" then "GET" else method).
Proof.
  intros Hreq%do_sent.
  destruct (do_request_Ok _ _ _ _ _ _ Hreq) as (joined & _ & _ & _ & Hm & Hctx & Hheader).
  rewrite Hheader. split_and!.
  - rewrite lookup_insert_ne by done. apply lookup_insert_eq.
  - apply lookup_insert_eq.
  - intros key Ha Hc. by rewrite !lookup_insert_ne, lookup_empty.
  - done.
  - done.
Qed.

Lemma do_sets_the_headers_witness :
  ∃ req,
    req ∈ sent (do (H := sample_libraries) (answering 200 "{}") (Ctx false) "DELETE"
                  "/api/bounces/3" None)
    ∧ http.Header req !! "Authorization" = Some ["token api:secret"].
Proof.
  destruct (do_request (H := sample_libraries) (answering 200 "{}") (Ctx false) "DELETE"
              "/api/bounces/3" None) as [req|e|p] eqn:Hreq; [|by vm_compute in Hreq..].
  exists req. apply do_sent in Hreq. split; [done|].
  by destruct (do_sets_the_headers _ _ _ _ _ _ Hreq) as (Hauth & _).
Defined.

(** X2. One call is at most one round trip: [do], [multipart] and
    [request] hand at most one request to the HTTP client; what the HTTP
    client answers is what [do] and [multipart] return, and when it fails
    [request] returns that failure without decoding anything. *)
Theorem one_call_is_at_most_one_round_trip `{Libraries} (c : Client) (ctx : Context) :
  (∀ method path data,
     (length (sent (do c ctx method path data)) ≤ 1)%nat
     ∧ ∀ req, req ∈ sent (do c ctx method path data) →
         result (do c ctx method path data) = HTTPClient (config c) req)
  ∧ (∀ boundary path fields files,
       (length (sent (multipart boundary c ctx path fields files)) ≤ 1)%nat
       ∧ ∀ req, req ∈ sent (multipart boundary c ctx path fields files) →
           result (multipart boundary c ctx path fields files) = HTTPClient (config c) req)
  ∧ (∀ T (U : json.Unmarshaler T) method path data,
       (length (sent (request T c ctx method path data)) ≤ 1)%nat
       ∧ ∀ req e, req ∈ sent (request T c ctx method path data) →
           HTTPClient (config c) req = Err e →
           result (request T c ctx method path data) = Err e).
Proof.
  assert (Hdo : ∀ method path data,
     (length (sent (do c ctx method path data)) ≤ 1)%nat
     ∧ ∀ req, req ∈ sent (do c ctx method path data) →
         result (do c ctx method path data) = HTTPClient (config c) req).
  { intros method path data. split.
    - rewrite do_unfold. destruct (do_request c ctx method path data); simpl; lia.
    - intros req Hreq%do_sent. by rewrite do_unfold, Hreq. }
  split_and!.
  - exact Hdo.
  - intros boundary path fields files. split.
    + rewrite multipart_unfold.
      destruct (multipart_request boundary c ctx path fields files); simpl; lia.
    + intros req Hreq%multipart_sent. by rewrite multipart_unfold, Hreq.
  - intros T U method path data. rewrite request_sent, request_result.
    destruct (Hdo method path data) as [Hlen Hres]. split; [done|].
    intros req e Hreq He. by rewrite (Hres req Hreq), He.
Qed.

Lemma one_call_is_at_most_one_round_trip_witness :
  result (request string (H0 := sample_libraries) unreachable_server (Ctx false) "GET"
            "/api/lists" None)
  = Err (foreign "dial tcp: connection refused").
Proof.
  destruct (one_call_is_at_most_one_round_trip (H := sample_libraries) unreachable_server
              (Ctx false)) as (_ & _ & Hrequest).
  destruct (Hrequest string _ "GET" "/api/lists" None) as [_ Herr].
  destruct (do_request (H := sample_libraries) unreachable_server (Ctx false) "GET"
              "/api/lists" None) as [req|e|p] eqn:Hreq; [|by vm_compute in Hreq..].
  apply (Herr req); [|done].
  rewrite request_sent. by apply do_sent.
Defined.

(** X3. A call that cannot be encoded is not sent. When the base URL and
    path do not join, when the data object is not a struct (the query
    encoder refuses it, whatever the method), when the context is nil, or
    when a POST or PUT body cannot be serialized, [do] fails with that
    error and hands no request to the HTTP client. *)
Theorem do_fails_before_sending `{Libraries} (c : Client) (ctx : Context)
  (method path : string) :
  (∀ data e, url_JoinPath (BaseURL (config c)) path = Err e →
     do c ctx method path data = mkIO [] (Err e))
  ∧ (∀ joined kind, url_JoinPath (BaseURL (config c)) path = Ok joined →
       do c ctx method path (Some (reflect.NonStruct kind))
       = mkIO [] (Err (errors_New ("query: Values() expects struct input. Got " +:+ kind))))
  ∧ (∀ data, ctx = nilContext →
       sent (do c ctx method path data) = []
       ∧ ∀ resp, result (do c ctx method path data) ≠ Ok resp)
  ∧ (∀ joined d s e,
       url_JoinPath (BaseURL (config c)) path = Ok joined →
       struct_of d = Some s →
       method = "POST" ∨ method = "PUT" →
       json_Marshal d = Err e →
       do c ctx method path (Some d) = mkIO [] (Err e)).
Proof.
  split_and!.
  - intros data e Hjoin. rewrite do_unfold. unfold do_request. by rewrite Hjoin.
  - intros joined kind Hjoin. rewrite do_unfold. unfold do_request. by rewrite Hjoin.
  - intros data ->.
    destruct (do_request c nilContext method path data) as [req|e|p] eqn:Hreq.
    + destruct (do_request_Ok _ _ _ _ _ _ Hreq) as (joined & _ & _ & _ & _ & _ & _).
      exfalso. unfold do_request in Hreq.
      apply outcome_bind_Ok in Hreq as (? & _ & Hreq).
      apply outcome_bind_Ok in Hreq as (? & _ & Hreq).
      apply outcome_bind_Ok in Hreq as (? & _ & Hreq).
      apply outcome_bind_Ok in Hreq as (? & Hnew & _).
      unfold NewRequestWithContext in Hnew. by destruct (negb _).
    + rewrite do_unfold, Hreq. by split.
    + rewrite do_unfold, Hreq. by split.
  - intros joined d s e Hjoin Hs Hm%is_POST_or_PUT_spec Hmarshal.
    rewrite do_unfold. unfold do_request. rewrite Hjoin.
    cbn [mbind outcome_bind]. rewrite (encoded_query_struct d s Hs).
    cbn [mbind outcome_bind]. unfold is_POST_or_PUT in Hm.
    destruct (0 <? _)%nat; cbn [mbind outcome_bind]; rewrite Hm;
      unfold Encoder_Encode; by rewrite Hmarshal.
Qed.

Lemma do_fails_before_sending_witness :
  do (H := sample_libraries) (answering 200 "{}") (Ctx false) "GET" "/api/lists"
    (Some (reflect.NonStruct "int"))
  = mkIO [] (Err (errors_New "query: Values() expects struct input. Got int")).
Proof.
  destruct (do_fails_before_sending (H := sample_libraries) (answering 200 "{}") (Ctx false)
              "GET" "/api/lists") as (_ & Hkind & _).
  exact (Hkind "http://localhost:9000/api/lists" "int" eq_refl).
Defined.

(** X4. On a POST or PUT, [do] sends a struct parameter object twice: as
    the JSON body, and as the query string of the URL, where a field that
    has no [url] tag stands under its Go field name. *)
Theorem do_sends_a_body_object_in_the_query_too `{Libraries} (c : Client) (ctx : Context)
  (method path : string) (d : reflect.dynamic) (s : reflect.Struct)
  (sf : reflect.StructField) (x : reflect.scalar) (req : http.Request) :
  method = "POST" ∨ method = "PUT" →
  struct_of d = Some s →
  sf ∈ reflect.Fields s →
  reflect.url sf = reflect.NoTag →
  reflect.Value sf = reflect.Scalar x →
  req ∈ sent (do c ctx method path (Some d)) →
  ∃ joined doc,
    url_JoinPath (BaseURL (config c)) path = Ok joined
    ∧ json_Marshal d = Ok doc
    ∧ http.ReqBody req = Some (doc +:+ String LF "")
    ∧ http.URL req = joined +:+ "?" +:+ url.Encode (query.reflectValue ∅ s)
    ∧ pair_text (reflect.Name sf, query.valueString x)
      ∈ url.pieces "&" (url.Encode (query.reflectValue ∅ s)).
Proof.
  intros Hm%is_POST_or_PUT_spec Hs Hin Htag Hx Hreq%do_sent.
  destruct (do_request_Ok _ _ _ _ _ _ Hreq) as (joined & Hjoin & Hurl & Hbody & _).
  rewrite Hm in Hbody. destruct Hbody as (doc & Hdoc & Hbody).
  destruct Hurl as (q & Hq & Hurl). rewrite (encoded_query_struct d s Hs) in Hq.
  injection Hq as <-.
  assert (Hpiece : pair_text (reflect.Name sf, query.valueString x)
                   ∈ url.pieces "&" (url.Encode (query.reflectValue ∅ s))).
  { apply pair_in_Encode. rewrite Get_all_reflectValue.
    apply list_elem_of_In, in_flat_map. exists sf. split; [by apply list_elem_of_In|].
    unfold renderings_under, field_key. rewrite Htag, decide_True by done.
    rewrite Hx. by left. }
  exists joined, doc. split_and!; try done.
  rewrite Hurl.
  assert (Hlen : (0 <? String.length (url.Encode (query.reflectValue ∅ s)))%nat = true).
  { rewrite Encode_joined_pairs, pieces_of_joined_pairs in Hpiece.
    rewrite Encode_joined_pairs.
    destruct (encoded_pairs (query.reflectValue ∅ s)) as [|p ps].
    - apply list_elem_of_singleton in Hpiece.
      pose proof (pair_text_length (reflect.Name sf, query.valueString x)) as Hlen.
      by rewrite Hpiece in Hlen.
    - clear. cbn [fmap list_fmap String.concat].
      destruct (pair_text <$> ps);
        [apply pair_text_length|apply length_app_pos, pair_text_length]. }
  by rewrite Hlen.
Qed.

Lemma do_sends_a_body_object_in_the_query_too_witness :
  ∃ req,
    req ∈ sent (do (H := sample_libraries) (answering 200 "{}") (Ctx false) "POST"
                  "/api/public/subscription"
                  (pointer_arg Subscription.Params_struct
                     (Some {| Subscription.Email := "a@b.com"; Subscription.Name := "Ann";
                              Subscription.ListUUIDs := [] |})))
    ∧ http.URL req = "http://localhost:9000/api/public/subscription?Email=a%40b.com&Name=Ann"
    ∧ http.ReqBody req = Some ("{}" +:+ String LF "").
Proof.
  set (p := {| Subscription.Email := "a@b.com"; Subscription.Name := "Ann";
               Subscription.ListUUIDs := [] |}).
  destruct (do_request (H := sample_libraries) (answering 200 "{}") (Ctx false) "POST"
              "/api/public/subscription" (pointer_arg Subscription.Params_struct (Some p)))
    as [req|e|pn] eqn:Hreq; [|by vm_compute in Hreq..].
  exists req. apply do_sent in Hreq. split; [done|].
  destruct (do_sends_a_body_object_in_the_query_too (H := sample_libraries)
    (answering 200 "{}") (Ctx false) "POST" "/api/public/subscription"
    (reflect.Pointer (Some (Subscription.Params_struct p))) (Subscription.Params_struct p)
    (untagged "Email" (reflect.Scalar (reflect.String_ "a@b.com")))
    (reflect.String_ "a@b.com") req (or_introl eq_refl) eq_refl)
    as (joined & doc & Hjoin & Hdoc & Hbody & Hurl & _); [by left|done|done|exact Hreq|].
  injection Hjoin as <-. injection Hdoc as <-.
  split; [|done]. rewrite Hurl. by vm_compute.
Defined.

(** ** Endpoints that send a list of ids *)

Lemma QueryEscape_unescaped (s : string) :
  http.all_chars unescaped s = true → url.QueryEscape s = s.
Proof.
  induction s as [|c s IH]; [done|]. cbn [http.all_chars url.QueryEscape].
  intros [Hc Hs]%andb_true_iff. unfold unescaped in Hc.
  apply andb_true_iff in Hc as [Hesc Hsp].
  apply negb_true_iff in Hesc. apply negb_true_iff in Hsp.
  by rewrite Hsp, Hesc, IH.
Qed.

Lemma string_of_uint_unescaped (d : Decimal.uint) :
  http.all_chars unescaped (NilEmpty.string_of_uint d) = true.
Proof. induction d; cbn [NilEmpty.string_of_uint http.all_chars]; by rewrite ?IHd. Qed.

Lemma Itoa_unescaped (n : Z) : http.all_chars unescaped (time.Itoa n) = true.
Proof.
  unfold time.Itoa.
  assert (Hu : ∀ d, http.all_chars unescaped (NilZero.string_of_uint d) = true).
  { intros d. unfold NilZero.string_of_uint.
    destruct d; try apply string_of_uint_unescaped. done. }
  destruct (Z.to_int n) as [d|d]; cbn [NilZero.string_of_int http.all_chars]; by rewrite ?Hu.
Qed.

Lemma add_all_nonempty (name : string) (values : list string) (m : url.Values) :
  values ≠ [] → add_all name values m = <[name := (url.Get_all m name ++ values)%list]> m.
Proof.
  unfold add_all. revert m. induction values as [|r values IH]; intros m Hne; [done|].
  cbn [fold_left]. destruct values as [|r' values]; [done|].
  rewrite IH by done. rewrite Get_all_Add, decide_True by done.
  unfold url.Add. rewrite insert_insert_eq. by rewrite <- app_assoc.
Qed.

(** The encoding of a map with one key. *)
Lemma Encode_one_key (key : string) (values : list string) :
  values ≠ [] →
  url.Encode (<[key := values]> ∅)
  = String.concat "&" ((fun x => pair_text (key, x)) <$> values).
Proof.
  intros Hne. rewrite Encode_joined_pairs. unfold encoded_pairs, url.sorted_keys.
  rewrite insert_empty, map_to_list_singleton. cbn [map fst].
  change (merge_sort String.le [key]) with [key]. cbn [flat_map].
  rewrite app_nil_r. unfold pairs_under, url.Get_all.
  rewrite lookup_singleton_eq. cbn [default]. by rewrite <- list_fmap_compose.
Qed.

(** The query string for a struct whose only field is a slice of
    integers under the key [key]. *)
Lemma Encode_one_slice (s : reflect.Struct) (name key : string) (tag : reflect.url_tag)
  (ids : list Z) :
  reflect.Fields s = [{| reflect.Name := name; reflect.url := tag;
                         reflect.Value := reflect.Slice (reflect.Int <$> ids) |}] →
  field_key {| reflect.Name := name; reflect.url := tag;
               reflect.Value := reflect.Slice (reflect.Int <$> ids) |} = Some key →
  http.all_chars unescaped key = true →
  url.Encode (query.reflectValue ∅ s)
  = String.concat "&" ((fun i => key +:+ "=" +:+ time.Itoa i) <$> ids).
Proof.
  intros Hfields Hkey Hsafe. unfold query.reflectValue. rewrite Hfields.
  cbn [fold_left]. rewrite reflectField_add_all, Hkey.
  cbn [renderings reflect.Value].
  destruct ids as [|i ids]; [done|].
  rewrite add_all_nonempty by done.
  unfold url.Get_all. rewrite lookup_empty. cbn [default app].
  rewrite Encode_one_key by done. rewrite <- !list_fmap_compose.
  f_equal. apply list_fmap_ext. intros _ j _. cbn.
  unfold pair_text. cbn [fst snd].
  by rewrite (QueryEscape_unescaped key Hsafe), (QueryEscape_unescaped _ (Itoa_unescaped j)).
Qed.

Lemma concat_length_pos (x : string) (l : list string) :
  (0 <? String.length x)%nat = true →
  (0 <? String.length (String.concat "&" (x :: l)))%nat = true.
Proof.
  intros Hx. cbn [String.concat]. destruct l; [done|]. by apply length_app_pos.
Qed.

Lemma concat_ids_length (key : string) (i : Z) (ids : list Z) :
  (0 <? String.length
          (String.concat "&" ((fun i => key +:+ "=" +:+ time.Itoa i) <$> i :: ids)))%nat
  = true.
Proof.
  cbn [fmap list_fmap]. apply concat_length_pos.
  generalize (time.Itoa i). intros tail.
  induction key as [|x key IH]; [done|]. by rewrite string_app_cons.
Qed.

(** The request of a call that sends [ids] in a one-field struct. *)
Lemma ids_request `{Libraries} (c : Client) (ctx : Context) (method path : string)
  (s : reflect.Struct) (name key : string) (tag : reflect.url_tag) (ids : list Z)
  (req : http.Request) :
  reflect.Fields s = [{| reflect.Name := name; reflect.url := tag;
                         reflect.Value := reflect.Slice (reflect.Int <$> ids) |}] →
  field_key {| reflect.Name := name; reflect.url := tag;
               reflect.Value := reflect.Slice (reflect.Int <$> ids) |} = Some key →
  http.all_chars unescaped key = true →
  do_request c ctx method path (Some (reflect.StructValue s)) = Ok req →
  ∃ joined,
    url_JoinPath (BaseURL (config c)) path = Ok joined
    ∧ http.URL req =
        match ids with
        | [] => joined
        | _ => joined +:+ "?"
               +:+ String.concat "&" ((fun i => key +:+ "=" +:+ time.Itoa i) <$> ids)
        end.
Proof.
  intros Hfields Hkey Hsafe Hreq.
  destruct (do_request_Ok _ _ _ _ _ _ Hreq) as (joined & Hjoin & Hurl & _).
  destruct Hurl as (q & [= <-] & Hurl). exists joined. split; [done|].
  rewrite Hurl, (Encode_one_slice s name key tag ids Hfields Hkey Hsafe).
  destruct ids as [|i ids]; [done|]. by rewrite concat_ids_length.
Qed.

(** X5. [DeleteSubscribers] and [DeleteBounces] issue a DELETE without a
    body whose query string repeats the key [id] once per id, in the order
    given. With an empty list of ids there is no query string at all: the
    request is a DELETE on the whole collection. *)
Theorem delete_calls_list_the_ids_in_the_query `{Libraries} (c : Client) (ctx : Context)
  (ids : list Z) :
  (∀ req, req ∈ sent (DeleteSubscribers c ctx ids) →
     ∃ joined,
       url_JoinPath (BaseURL (config c)) "/api/subscribers" = Ok joined
       ∧ http.Method req = "DELETE"
       ∧ http.ReqBody req = None
       ∧ http.URL req =
           match ids with
           | [] => joined
           | _ => joined +:+ "?"
                  +:+ String.concat "&" ((fun i => "id=" +:+ time.Itoa i) <$> ids)
           end)
  ∧ (∀ req, req ∈ sent (DeleteBounces c ctx ids) →
       ∃ joined,
         url_JoinPath (BaseURL (config c)) "/api/bounces" = Ok joined
         ∧ http.Method req = "DELETE"
         ∧ http.ReqBody req = None
         ∧ http.URL req =
             match ids with
             | [] => joined
             | _ => joined +:+ "?"
                    +:+ String.concat "&" ((fun i => "id=" +:+ time.Itoa i) <$> ids)
             end).
Proof.
  assert (Hdelete : ∀ path req,
    do_request c ctx "DELETE" path (Some (reflect.StructValue (id_params ids))) = Ok req →
    ∃ joined,
      url_JoinPath (BaseURL (config c)) path = Ok joined
      ∧ http.Method req = "DELETE"
      ∧ http.ReqBody req = None
      ∧ http.URL req =
          match ids with
          | [] => joined
          | _ => joined +:+ "?"
                 +:+ String.concat "&" ((fun i => "id=" +:+ time.Itoa i) <$> ids)
          end).
  { intros path req Hreq.
    destruct (ids_request c ctx "DELETE" path (id_params ids) "IDs" "id"
                (reflect.Named "id") ids req eq_refl eq_refl eq_refl Hreq)
      as (joined & Hjoin & Hurl).
    destruct (do_request_Ok _ _ _ _ _ _ Hreq) as (joined' & _ & _ & Hbody & Hm & _).
    exists joined. by split_and!. }
  split; intros req Hreq.
  - unfold DeleteSubscribers in Hreq. rewrite IO_bind_ret_sent, request_sent in Hreq.
    by apply Hdelete, do_sent.
  - unfold DeleteBounces in Hreq. rewrite IO_bind_ret_sent, request_sent in Hreq.
    by apply Hdelete, do_sent.
Qed.

Lemma delete_calls_list_the_ids_in_the_query_witness :
  ∃ req,
    req ∈ sent (DeleteSubscribers (H := sample_libraries) (answering 200 "{}") (Ctx false)
                  [7%Z; 3%Z; 12%Z])
    ∧ http.URL req = "http://localhost:9000/api/subscribers?id=7&id=3&id=12".
Proof.
  destruct (do_request (H := sample_libraries) (answering 200 "{}") (Ctx false) "DELETE"
              "/api/subscribers" (Some (reflect.StructValue (id_params [7%Z; 3%Z; 12%Z]))))
    as [req|e|p] eqn:Hreq; [|by vm_compute in Hreq..].
  exists req.
  assert (Hin : req ∈ sent (DeleteSubscribers (H := sample_libraries) (answering 200 "{}")
                              (Ctx false) [7%Z; 3%Z; 12%Z])).
  { unfold DeleteSubscribers. rewrite IO_bind_ret_sent, request_sent. by apply do_sent. }
  split; [done|].
  destruct (delete_calls_list_the_ids_in_the_query (H := sample_libraries)
              (answering 200 "{}") (Ctx false) [7%Z; 3%Z; 12%Z]) as [Hsub _].
  destruct (Hsub req Hin) as (joined & [= <-] & _ & _ & Hurl).
  rewrite Hurl. by vm_compute.
Defined.

(** X6. [BlocklistSubscribers] issues a PUT that carries the ids twice:
    in the JSON body, and in the query string, once per id under the key
    [IDs] (the Go field name, as the field has no [url] tag), in the order
    given. *)
Theorem BlocklistSubscribers_sends_the_ids_twice `{Libraries} (c : Client) (ctx : Context)
  (ids : list Z) (req : http.Request) :
  req ∈ sent (BlocklistSubscribers c ctx ids) →
  ∃ joined doc,
    url_JoinPath (BaseURL (config c)) "/api/subscribers/blocklist" = Ok joined
    ∧ http.Method req = "PUT"
    ∧ json_Marshal (reflect.StructValue (ids_body_params ids)) = Ok doc
    ∧ http.ReqBody req = Some (doc +:+ String LF "")
    ∧ http.URL req =
        match ids with
        | [] => joined
        | _ => joined +:+ "?"
               +:+ String.concat "&" ((fun i => "IDs=" +:+ time.Itoa i) <$> ids)
        end.
Proof.
  unfold BlocklistSubscribers. rewrite IO_bind_ret_sent, request_sent.
  intros Hreq%do_sent.
  destruct (ids_request c ctx "PUT" "/api/subscribers/blocklist" (ids_body_params ids)
              "IDs" "IDs" reflect.NoTag ids req eq_refl eq_refl eq_refl Hreq)
    as (joined & Hjoin & Hurl).
  destruct (do_request_Ok _ _ _ _ _ _ Hreq) as (joined' & _ & _ & Hbody & Hm & _).
  cbn in Hbody. destruct Hbody as (doc & Hdoc & Hbody).
  exists joined, doc. by split_and!.
Qed.

Lemma BlocklistSubscribers_sends_the_ids_twice_witness :
  ∃ req,
    req ∈ sent (BlocklistSubscribers (H := sample_libraries) (answering 200 "{}")
                  (Ctx false) [4%Z; 5%Z])
    ∧ http.URL req = "http://localhost:9000/api/subscribers/blocklist?IDs=4&IDs=5"
    ∧ http.ReqBody req = Some ("{}" +:+ String LF "").
Proof.
  destruct (do_request (H := sample_libraries) (answering 200 "{}") (Ctx false) "PUT"
              "/api/subscribers/blocklist"
              (Some (reflect.StructValue (ids_body_params [4%Z; 5%Z]))))
    as [req|e|p] eqn:Hreq; [|by vm_compute in Hreq..].
  exists req.
  assert (Hin : req ∈ sent (BlocklistSubscribers (H := sample_libraries)
                              (answering 200 "{}") (Ctx false) [4%Z; 5%Z])).
  { unfold BlocklistSubscribers. rewrite IO_bind_ret_sent, request_sent. by apply do_sent. }
  split; [done|].
  destruct (BlocklistSubscribers_sends_the_ids_twice _ _ _ _ Hin)
    as (joined & doc & [= <-] & _ & [= <-] & Hbody & Hurl).
  split; [|done]. rewrite Hurl. by vm_compute.
Defined.

(** ** What the decoder does with bodies at the edges *)

Lemma read_value_blank (body : string) :
  json.skip_space body = "" → json.read_value body = json.Truncated.
Proof. intros Hblank. unfold json.read_value. cbn [json.scan_value]. by rewrite Hblank. Qed.

(** X7. A response whose body is empty or only white space makes
    [decode] fail with [io.EOF], whatever the status: on an error status
    the error says nothing of the status or of a message. *)
Theorem decode_of_a_blank_body_is_EOF (T : Type) `{json.Unmarshaler T}
  (resp : http.Response) :
  json.skip_space (http.Body resp) = "" →
  decode T resp = Err io_EOF ∧ Error io_EOF = Some "EOF".
Proof.
  intros Hblank. split; [|done]. unfold decode, json.Decode.
  rewrite (read_value_blank _ Hblank), Hblank. by destruct (negb _).
Qed.

Lemma decode_of_a_blank_body_is_EOF_witness :
  decode string {| http.StatusCode := 502; http.Body := "" |} = Err io_EOF.
Proof.
  by destruct (decode_of_a_blank_body_is_EOF string
                 {| http.StatusCode := 502; http.Body := "" |} eq_refl).
Defined.

(** X8. On a success response whose body is a JSON object without a
    [data] member, or JSON null, an envelope endpoint succeeds with the
    zero value of its payload: [GetSubscriber] then returns a nil
    subscriber and no error. *)
Theorem a_body_without_data_gives_the_zero_value `{Libraries} `{Payloads} (T : Type)
  `{json.Unmarshaler T} (c : Client) (ctx : Context) (id : Z) (resp : http.Response)
  (j : json.Value) (rest : string) :
  http.StatusCode resp = http.StatusOK →
  json.read_value (http.Body resp) = json.Scanned j rest →
  (j = json.Null ∨ ∃ members, j = json.Object members ∧ no_member_named "data" members) →
  decode (Response T) resp = Ok {| Data := json.zero |}
  ∧ (result (do c ctx "GET" ("/api/subscribers/" +:+ time.Itoa id) None) = Ok resp →
     result (GetSubscriber c ctx id) = Ok None).
Proof.
  intros Hst Hj Hshape.
  assert (Hdec : ∀ A (U : json.Unmarshaler A),
            decode (Response A) resp = Ok {| Data := json.zero |}).
  { intros A U. rewrite (decode_OK_scanned _ resp j rest Hst Hj). unfold json.store.
    destruct Hshape as [->|(members & -> & Hno)]; [done|].
    change (json.unmarshal (json.Object members) (json.zero (T := Response A)) None)
      with (json.store_members Response_store members (json.zero (T := Response A)) None).
    by rewrite store_members_Response_no_data. }
  split; [apply Hdec|].
  intros Hdo. unfold GetSubscriber.
  rewrite IO_bind_result, request_result, Hdo. cbn [mbind outcome_bind].
  by rewrite Hdec.
Qed.

Lemma a_body_without_data_gives_the_zero_value_witness :
  result (GetSubscriber (H := sample_libraries) (H0 := sample_payloads)
            (answering 200 ("{" +:+ quoted "message" +:+ ": " +:+ quoted "gone" +:+ "}"))
            (Ctx false) 9)
  = Ok None.
Proof.
  set (body := "{" +:+ quoted "message" +:+ ": " +:+ quoted "gone" +:+ "}").
  destruct (a_body_without_data_gives_the_zero_value (H := sample_libraries)
    (H0 := sample_payloads) string (answering 200 body) (Ctx false) 9
    {| http.StatusCode := 200; http.Body := body |}
    (json.Object [("message", json.String_ "gone")]) "" eq_refl) as [_ Hget].
  - by vm_compute.
  - right. eexists. split; [done|]. by repeat constructor.
  - apply Hget. by vm_compute.
Defined.

Lemma store_members_ErrorResponse (members : list (string * json.Value))
  (old : ErrorResponse) (saved : option error) :
  json.store_members ErrorResponse_store members old saved
  = Ok ({| Message := stored_message members (Message old) |},
        match saved with
        | Some e => Some e
        | None => if message_of_wrong_kind members then Some UnmarshalTypeError else None
        end).
Proof.
  revert old saved. induction members as [|[key v] rest IH]; intros old saved.
  - cbn. destruct old, saved; done.
  - cbn [json.store_members]. unfold json.D_bind. unfold ErrorResponse_store at 1.
    cbn [stored_message fold_left message_of_wrong_kind existsb fst snd].
    destruct (json.EqualFold key "message").
    + unfold json.D_bind.
      destruct v; cbn; rewrite IH; cbn; destruct saved; try done.
    + cbn. rewrite IH. done.
Qed.

(** X9. On an error status with a JSON object as body, what [decode]
    fails with is decided by the members named [message] (in any letter
    case): if one of them holds a value that is neither a string nor null,
    the failure is an unmarshal type error and the service's message is
    lost; otherwise the description is the last string given, and the
    empty text when there is none. *)
Theorem error_envelope_members_decide_the_error (T : Type) `{json.Unmarshaler T}
  (resp : http.Response) (members : list (string * json.Value)) (rest : string) :
  http.StatusCode resp ≠ http.StatusOK →
  json.read_value (http.Body resp) = json.Scanned (json.Object members) rest →
  decode T resp =
    (if message_of_wrong_kind members then Err UnmarshalTypeError
     else Err (errors_New (stored_message members "")))
  ∧ (no_member_named "message" members → decode T resp = Err (errors_New "")).
Proof.
  intros Hst Hj.
  assert (Hdec : decode T resp =
    (if message_of_wrong_kind members then Err UnmarshalTypeError
     else Err (errors_New (stored_message members "")))).
  { rewrite (decode_not_OK T resp Hst). unfold json.Decode. rewrite Hj. unfold json.store.
    change (json.unmarshal (json.Object members) (json.zero (T := ErrorResponse)) None)
      with (json.store_members ErrorResponse_store members
              (json.zero (T := ErrorResponse)) None).
    rewrite store_members_ErrorResponse. by destruct (message_of_wrong_kind members). }
  split; [done|].
  intros Hno. rewrite Hdec.
  assert (Hboth : ∀ old, message_of_wrong_kind members = false
                          ∧ stored_message members old = old).
  { clear Hj Hdec. induction Hno as [|[key v] more Hkey _ IH]; intros old; [done|].
    cbn [message_of_wrong_kind existsb stored_message fold_left fst snd].
    cbn [fst] in Hkey. rewrite Hkey. cbn [andb orb]. exact (IH old). }
  destruct (Hboth "") as [-> ->]. done.
Qed.

Lemma error_envelope_members_decide_the_error_witness :
  decode string
    {| http.StatusCode := 500;
       http.Body := "{" +:+ quoted "Message" +:+ ": 17, " +:+ quoted "error" +:+ ": true}" |}
  = Err UnmarshalTypeError.
Proof.
  set (body := "{" +:+ quoted "Message" +:+ ": 17, " +:+ quoted "error" +:+ ": true}").
  destruct (error_envelope_members_decide_the_error string
    {| http.StatusCode := 500; http.Body := body |}
    [("Message", json.Number "17"); ("error", json.Bool true)] "") as [Hdec _].
  - by vm_compute.
  - by vm_compute.
  - rewrite Hdec. by vm_compute.
Defined.

(** ** More endpoints *)

Lemma noted_orb (a b : bool) (saved : option error) :
  noted (a || b) saved = noted b (noted a saved).
Proof. by destruct a, b, saved. Qed.

Lemma Value_nested_ind (P : json.Value → Prop) :
  P json.Null →
  (∀ b, P (json.Bool b)) →
  (∀ lit, P (json.Number lit)) →
  (∀ s, P (json.String_ s)) →
  (∀ js, Forall P js → P (json.Array js)) →
  (∀ members, Forall (fun member => P (snd member)) members → P (json.Object members)) →
  ∀ j, P j.
Proof.
  intros HNull HBool HNumber HString HArray HObject. fix IH 1.
  intros [|b|lit|s|js|members]; [done..| |].
  - apply HArray. induction js as [|j js IHjs]; constructor; [apply IH|apply IHjs].
  - apply HObject. induction members as [|[key v] members IHm]; constructor;
      [apply IH|apply IHm].
Qed.

Lemma D_map_noted {A B} (f : A → json.D B) (bad : A → bool) (l : list A) :
  Forall (fun x => ∀ saved, ∃ y, f x saved = Ok (y, noted (bad x) saved)) l →
  ∀ saved, ∃ ys, D_map f l saved = Ok (ys, noted (existsb bad l) saved).
Proof.
  induction 1 as [|x l Hx _ IH]; intros saved; [by eexists|].
  cbn [D_map existsb]. unfold json.D_bind at 1.
  destruct (Hx saved) as [y ->]. unfold json.D_bind at 1.
  destruct (IH (noted (bad x) saved)) as [ys ->].
  rewrite noted_orb. by eexists.
Qed.

(** Decoding into an [any] never stops; it saves an error exactly when
    the value holds a number out of range. *)
Lemma valueInterface_noted (j : json.Value) (saved : option error) :
  ∃ v, valueInterface j saved = Ok (v, noted (number_out_of_range j) saved).
Proof.
  revert saved. induction j as [|b|lit|s|js IH|members IH] using Value_nested_ind;
    intros saved; try (by eexists).
  - cbn [valueInterface number_out_of_range].
    destruct (ParseFloat_fails lit); [|by eexists]. destruct saved; by eexists.
  - cbn [valueInterface number_out_of_range]. unfold json.D_bind.
    destruct (D_map_noted valueInterface number_out_of_range js IH saved) as [vs ->].
    by eexists.
  - cbn [valueInterface number_out_of_range]. unfold json.D_bind at 1.
    destruct (D_map_noted
      (fun member => json.D_bind (valueInterface (snd member))
                       (fun v => json.D_ret (fst member, v)))
      (fun member => number_out_of_range (snd member)) members) with (saved := saved)
      as [vs ->]; [|by eexists].
    eapply Forall_impl; [exact IH|]. intros [key v] Hv saved'. cbn [fst snd] in *.
    unfold json.D_bind. destruct (Hv saved') as [v' ->]. by eexists.
Qed.

Lemma unmarshal_any_noted (j old : json.Value) (saved : option error) :
  ∃ v, json.unmarshal (Unmarshaler := any_Unmarshaler) j old saved
       = Ok (v, noted (number_out_of_range j) saved).
Proof.
  destruct j as [|b|lit|s|js|members];
    try exact (valueInterface_noted _ saved).
  cbn [json.unmarshal any_Unmarshaler number_out_of_range].
  destruct (ParseFloat_fails lit); [|by eexists]. destruct saved; by eexists.
Qed.

Lemma store_members_Response_any (members : list (string * json.Value))
  (old : Response json.Value) (saved : option error) :
  ∃ v, json.store_members (Response_store (H := any_Unmarshaler)) members old saved
       = Ok (v, noted (data_out_of_range members) saved).
Proof.
  revert old saved. induction members as [|[key v] rest IH]; intros old saved;
    [by exists old|].
  cbn [json.store_members data_out_of_range existsb fst snd].
  unfold json.D_bind at 1, Response_store at 1.
  destruct (json.EqualFold key "data"); cbn [andb].
  - unfold json.D_bind at 1.
    destruct (unmarshal_any_noted v (Data old) saved) as [d ->].
    cbn [json.D_ret]. rewrite noted_orb. apply IH.
  - cbn [json.D_ret orb]. apply IH.
Qed.

(** X10. [CreateSubscription] reports [true] for every success response
    whose body is JSON null or a JSON object, whatever the object holds
    (it does not look at the [data] member, so [{"data": false}] gives
    [true] too), with one exception: a number under [data] that is out of
    the range of a float64, as [1e400] is, makes it fail with an unmarshal
    type error. So does a body of another JSON kind. *)
Theorem CreateSubscription_reports_true_whatever_the_data `{Libraries} (c : Client)
  (ctx : Context) (params : option Subscription.Params) (resp : http.Response)
  (j : json.Value) (rest : string) :
  result (do c ctx "POST" "/api/public/subscription"
            (pointer_arg Subscription.Params_struct params)) = Ok resp →
  http.StatusCode resp = http.StatusOK →
  json.read_value (http.Body resp) = json.Scanned j rest →
  result (CreateSubscription c ctx params) =
    match j with
    | json.Null => Ok true
    | json.Object members =>
      if data_out_of_range members then Err UnmarshalTypeError else Ok true
    | _ => Err UnmarshalTypeError
    end.
Proof.
  intros Hdo Hst Hj. unfold CreateSubscription.
  rewrite IO_bind_result, request_result, Hdo. cbn [mbind outcome_bind].
  rewrite (decode_OK_scanned _ resp j rest Hst Hj). unfold json.store.
  destruct j as [|b|lit|s|elems|members]; try done.
  cbn [json.unmarshal Response_any_Unmarshaler Response_Unmarshaler json.unmarshal_struct].
  destruct (store_members_Response_any members
              (json.zero (Unmarshaler := Response_any_Unmarshaler)) None) as (v & ->).
  by destruct (data_out_of_range members).
Qed.

Lemma CreateSubscription_reports_true_whatever_the_data_witness :
  result (CreateSubscription (H := sample_libraries)
            (answering 200 ("{" +:+ quoted "data" +:+ ": false}")) (Ctx false) None)
  = Ok true
  ∧ result (CreateSubscription (H := sample_libraries)
              (answering 200 ("{" +:+ quoted "data" +:+ ": [1e400]}")) (Ctx false) None)
    = Err UnmarshalTypeError.
Proof.
  split.
  - set (body := "{" +:+ quoted "data" +:+ ": false}").
    rewrite (CreateSubscription_reports_true_whatever_the_data (H := sample_libraries)
      (answering 200 body) (Ctx false) None {| http.StatusCode := 200; http.Body := body |}
      (json.Object [("data", json.Bool false)]) ""); [done|by vm_compute..].
  - set (body := "{" +:+ quoted "data" +:+ ": [1e400]}").
    rewrite (CreateSubscription_reports_true_whatever_the_data (H := sample_libraries)
      (answering 200 body) (Ctx false) None {| http.StatusCode := 200; http.Body := body |}
      (json.Object [("data", json.Array [json.Number "1e400"])]) "");
      [by vm_compute|by vm_compute..].
Defined.

(** X11. [UpdateTemplate] takes no template: every request it issues is
    a PUT to the template's path with no query string and no body, so it
    transmits no change. *)
Theorem UpdateTemplate_sends_nothing_to_update `{Libraries} `{Payloads} (c : Client)
  (ctx : Context) (id : Z) (req : http.Request) :
  req ∈ sent (UpdateTemplate c ctx id) →
  http.Method req = "PUT"
  ∧ url_JoinPath (BaseURL (config c)) ("/api/templates/" +:+ time.Itoa id)
    = Ok (http.URL req)
  ∧ http.ReqBody req = None.
Proof.
  unfold UpdateTemplate. rewrite IO_bind_pure_sent, request_sent. intros Hreq%do_sent.
  destruct (do_request_Ok _ _ _ _ _ _ Hreq) as (joined & Hjoin & Hurl & Hbody & Hm & _).
  simpl in Hurl, Hbody, Hm. by rewrite Hurl.
Qed.

Lemma UpdateTemplate_sends_nothing_to_update_witness :
  ∃ req,
    req ∈ sent (UpdateTemplate (H := sample_libraries) (H0 := sample_payloads)
                  (answering 200 empty_data_body) (Ctx false) 12)
    ∧ http.URL req = "http://localhost:9000/api/templates/12"
    ∧ http.ReqBody req = None.
Proof.
  destruct (do_request (H := sample_libraries) (answering 200 empty_data_body) (Ctx false)
              "PUT" ("/api/templates/" +:+ time.Itoa 12) None) as [req|e|p] eqn:Hreq;
    [|by vm_compute in Hreq..].
  exists req.
  assert (Hin : req ∈ sent (UpdateTemplate (H := sample_libraries) (H0 := sample_payloads)
                              (answering 200 empty_data_body) (Ctx false) 12)).
  { unfold UpdateTemplate. rewrite IO_bind_pure_sent, request_sent. by apply do_sent. }
  split; [done|].
  destruct (UpdateTemplate_sends_nothing_to_update _ _ _ _ Hin) as (_ & Hjoin & Hbody).
  split; [|done]. by injection Hjoin as <-.
Defined.

(** ** Missing and failing arguments of the upload calls *)

Lemma write_files_first_bad_stream (w : multipart.Writer) (files : list (string * io.Reader)) :
  match first_bad_stream files with
  | None => ∃ w', write_files w files = Ok w'
  | Some (Err e) => write_files w files = Err e
  | Some (Panic p) => write_files w files = Panic p
  | Some (Ok _) => False
  end.
Proof.
  revert w. induction files as [|[key [s|]] rest IH]; intros w.
  - by exists w.
  - cbn [first_bad_stream write_files multipart.CreateFormFile multipart.CreatePart
         mbind outcome_bind multipart.Copy].
    destruct (io.failure s); [done|]. cbn [mbind outcome_bind]. apply IH.
  - done.
Qed.

(** X12. [multipart] reads the streams in order and stops at the first
    one that is missing or fails: a nil stream is a nil-dereference panic,
    a stream that fails with an error makes the call return that error,
    and in both cases nothing is handed to the HTTP client. When every
    stream can be read, the base URL and path join and parse and the
    context is not nil, one request is sent. *)
Theorem multipart_stops_at_the_first_bad_stream `{Libraries} (boundary : string)
  (c : Client) (ctx : Context) (path joined : string) (fields : list (string * string))
  (files : list (string * io.Reader)) :
  url_JoinPath (BaseURL (config c)) path = Ok joined →
  (∀ e, first_bad_stream files = Some (Err e) →
     multipart boundary c ctx path fields files = mkIO [] (Err e))
  ∧ (∀ p, first_bad_stream files = Some (Panic p) →
       p = nil_dereference
       ∧ multipart boundary c ctx path fields files = mkIO [] (Panic p))
  ∧ (first_bad_stream files = None → ctx ≠ nilContext → url_Parse_error joined = None →
       ∃ req, sent (multipart boundary c ctx path fields files) = [req]).
Proof.
  intros Hjoin.
  pose proof (write_files_first_bad_stream (multipart.NewWriter boundary) files) as Hfiles.
  split_and!.
  - intros e Hbad. rewrite Hbad in Hfiles.
    rewrite multipart_unfold. unfold multipart_request. by rewrite Hjoin, Hfiles.
  - intros p Hbad. rewrite Hbad in Hfiles. split.
    + clear -Hbad. induction files as [|[key [s|]] rest IH]; [done| |].
      * cbn [first_bad_stream] in Hbad. destruct (io.failure s); [done|]. by apply IH.
      * by injection Hbad as <-.
    + rewrite multipart_unfold. unfold multipart_request. by rewrite Hjoin, Hfiles.
  - intros Hbad Hctx Hparse. rewrite Hbad in Hfiles. destruct Hfiles as [w1 Hw1].
    rewrite multipart_unfold. unfold multipart_request. rewrite Hjoin, Hw1.
    cbn [mbind outcome_bind].
    assert (Hfields : ∀ w, ∃ w', write_fields w fields = Ok w').
    { clear. induction fields as [|[key value] more IH]; intros w; [by exists w|].
      cbn [write_fields multipart.WriteField multipart.CreateFormField
           multipart.CreatePart mbind outcome_bind]. apply IH. }
    destruct (Hfields w1) as [w2 ->]. cbn [mbind outcome_bind multipart.Close].
    unfold NewRequestWithContext. cbn [String.eqb].
    destruct ctx as [|cancelled]; [done|]. rewrite Hparse.
    change (negb (http.validMethod "POST")) with false. cbn. by eexists.
Qed.

Lemma multipart_stops_at_the_first_bad_stream_witness :
  multipart (H := sample_libraries) "B0UNDARY" (answering 200 "{}") (Ctx false) "/api/media"
    []
    [("a", io.reader_of "x");
     ("b", Some {| io.content := "y"; io.failure := Some (foreign "read: closed file") |});
     ("c", None)]
  = mkIO [] (Err (foreign "read: closed file")).
Proof.
  destruct (multipart_stops_at_the_first_bad_stream (H := sample_libraries) "B0UNDARY"
    (answering 200 "{}") (Ctx false) "/api/media" "http://localhost:9000/api/media" []
    [("a", io.reader_of "x");
     ("b", Some {| io.content := "y"; io.failure := Some (foreign "read: closed file") |});
     ("c", None)] eq_refl) as (Herr & _).
  by apply Herr.
Defined.

(** X13. The calls that dereference an argument panic when it is nil,
    before anything is sent: [ImportSubscribers] and [GetCampaignViews]
    with nil parameters; [ImportSubscribers] with a nil file and
    [UploadMedia] with a nil file, once the configuration is serialized
    and the URL joined. *)
Theorem nil_arguments_panic_before_sending `{Libraries} `{Payloads} (boundary : string)
  (c : Client) (ctx : Context) :
  ImportSubscribers boundary c ctx None = mkIO [] (Panic nil_dereference)
  ∧ GetCampaignViews c ctx None = mkIO [] (Panic nil_dereference)
  ∧ (∀ cfg serialized joined,
       json_Marshal (reflect.StructValue (ImportSubscribersConfig_struct cfg))
       = Ok serialized →
       url_JoinPath (BaseURL (config c)) "/api/import/subscribers" = Ok joined →
       ImportSubscribers boundary c ctx (Some {| Config := cfg; File := None |})
       = mkIO [] (Panic nil_dereference))
  ∧ (∀ joined,
       url_JoinPath (BaseURL (config c)) "/api/media" = Ok joined →
       UploadMedia boundary c ctx None = mkIO [] (Panic nil_dereference)).
Proof.
  split_and!; [done|done| |].
  - intros cfg serialized joined Hconfig Hjoin. unfold ImportSubscribers.
    cbn [Config File]. rewrite Hconfig, IO_bind_pure.
    rewrite multipart_unfold. unfold multipart_request. by rewrite Hjoin.
  - intros joined Hjoin. unfold UploadMedia.
    rewrite multipart_unfold. unfold multipart_request. by rewrite Hjoin.
Qed.

Lemma nil_arguments_panic_before_sending_witness :
  UploadMedia (H := sample_libraries) (H0 := sample_payloads) "B0UNDARY"
    (answering 200 "{}") (Ctx false) None
  = mkIO [] (Panic nil_dereference).
Proof.
  destruct (nil_arguments_panic_before_sending (H := sample_libraries)
    (H0 := sample_payloads) "B0UNDARY" (answering 200 "{}") (Ctx false))
    as (_ & _ & _ & Hupload).
  exact (Hupload "http://localhost:9000/api/media" eq_refl).
Defined.

(** ** Building a client *)

Lemma apply_options_settings (settings : list setting) (cc : ClientConfig) :
  apply_options (option_of <$> settings) cc
  = Ok {| BaseURL := last_setting base_url_of settings (BaseURL cc);
          APIUser := last_setting api_user_of settings (APIUser cc);
          Token := last_setting token_of settings (Token cc);
          HTTPClient := last_setting http_client_of settings (HTTPClient cc) |}.
Proof.
  revert cc. induction settings as [|s settings IH]; intros cc; [by destruct cc|].
  destruct s; cbn [fmap list_fmap option_of WithBaseURL WithAPIUser WithToken
                   WithHTTPClient apply_options]; by rewrite IH.
Qed.

Lemma apply_options_nil_option (options : list ConfigOption) (cc : ClientConfig) :
  None ∈ options → apply_options options cc = Panic nil_dereference.
Proof.
  revert cc. induction options as [|[option|] options IH]; intros cc Hin.
  - by apply elem_of_nil in Hin.
  - apply elem_of_cons in Hin as [?|Hin]; [done|]. by apply IH.
  - done.
Qed.

(** X14. [New] starts from an empty configuration with the default HTTP
    client and applies the options from left to right: each field of the
    client it returns holds what the last option for that field gave, and
    the default when no option names it. A nil option anywhere among the
    options makes [New] panic. *)
Theorem New_applies_the_options_in_order
  (DefaultClient : http.Request → outcome http.Response) :
  (∀ settings, ∃ c,
     New DefaultClient (option_of <$> settings) = Ok c
     ∧ BaseURL (config c) = last_setting base_url_of settings ""
     ∧ APIUser (config c) = last_setting api_user_of settings ""
     ∧ Token (config c) = last_setting token_of settings ""
     ∧ HTTPClient (config c) = last_setting http_client_of settings DefaultClient)
  ∧ (∀ options, None ∈ options → New DefaultClient options = Panic nil_dereference).
Proof.
  split_and!.
  - intros settings. unfold New. rewrite apply_options_settings.
    cbn [mbind outcome_bind NewWithConfig]. by eexists.
  - intros options Hin. unfold New. by rewrite apply_options_nil_option.
Qed.

Lemma New_applies_the_options_in_order_witness :
  New (fun _ => Err (foreign "no network")) [WithToken "secret"; None; WithAPIUser "api"]
  = Panic nil_dereference.
Proof.
  destruct (New_applies_the_options_in_order (fun _ => Err (foreign "no network")))
    as (_ & Hnil).
  apply Hnil. apply elem_of_cons. right. apply elem_of_cons. by left.
Defined.

(** ** GetCampaign *)

(** X15. [GetCampaign] always sends the [no_body] parameter: every
    request it issues is a GET without a body on the campaign's path with
    the query string [no_body=true] or [no_body=false]. *)
Theorem GetCampaign_always_sends_no_body {Campaign : Type} `{json.Unmarshaler Campaign}
  `{Libraries} (c : Client) (ctx : Context) (id : Z) (noBody : bool) (req : http.Request) :
  req ∈ sent (GetCampaign c ctx id noBody) →
  ∃ joined,
    url_JoinPath (BaseURL (config c)) ("/api/campaigns/" +:+ time.Itoa id) = Ok joined
    ∧ http.Method req = "GET"
    ∧ http.ReqBody req = None
    ∧ http.URL req = joined +:+ "?no_body=" +:+ (if noBody then "true" else "false").
Proof.
  unfold GetCampaign. rewrite IO_bind_ret_sent, request_sent. intros Hreq%do_sent.
  destruct (do_request_Ok _ _ _ _ _ _ Hreq) as (joined & Hjoin & Hurl & Hbody & Hm & _).
  destruct Hurl as (q & [= <-] & Hurl). exists joined. split_and!; [done..|].
  rewrite Hurl. by destruct noBody.
Qed.

Lemma GetCampaign_always_sends_no_body_witness :
  ∃ req,
    req ∈ sent (GetCampaign (Campaign := json.Value) (H := json.raw_Unmarshaler)
                  (H0 := sample_libraries) (answering 200 empty_data_body) (Ctx false)
                  7 false)
    ∧ http.URL req = "http://localhost:9000/api/campaigns/7?no_body=false".
Proof.
  destruct (do_request (H := sample_libraries) (answering 200 empty_data_body) (Ctx false)
              "GET" ("/api/campaigns/" +:+ time.Itoa 7)
              (Some (reflect.StructValue (no_body_params false)))) as [req|e|p] eqn:Hreq;
    [|by vm_compute in Hreq..].
  exists req.
  assert (Hin : req ∈ sent (GetCampaign (Campaign := json.Value)
                              (H := json.raw_Unmarshaler) (H0 := sample_libraries)
                              (answering 200 empty_data_body) (Ctx false) 7 false)).
  { unfold GetCampaign. rewrite IO_bind_ret_sent, request_sent. by apply do_sent. }
  split; [done|].
  destruct (GetCampaign_always_sends_no_body _ _ _ _ _ Hin) as (joined & Hjoin & _ & _ & ->).
  by injection Hjoin as <-.
Defined.

(** ** The headers of a transactional message *)

Lemma looks_like_key_token (a : string) (noCanon : bool) :
  http.all_chars http.is_token_char a = true →
  textproto.looks_like_key noCanon a = Some noCanon.
Proof.
  induction a as [|c a IH]; [done|]. cbn [http.all_chars textproto.looks_like_key].
  intros [Hc Ha]%andb_true_iff. unfold textproto.validHeaderFieldByte. rewrite Hc. by apply IH.
Qed.

Lemma upper_case_differs (c : ascii) :
  is_lower c = true → byte_of (code c - textproto.toLower) ≠ c.
Proof.
  intros Hl Heq. destruct c as [[] [] [] [] [] [] [] []];
    vm_compute in Hl; try discriminate Hl; vm_compute in Heq; discriminate Heq.
Qed.

(** A key of token characters that starts with a small letter is not in
    canonical form. *)
Lemma CanonicalMIMEHeaderKey_small_letter (c : ascii) (rest : string) :
  is_lower c = true →
  http.all_chars http.is_token_char (String c rest) = true →
  textproto.CanonicalMIMEHeaderKey (String c rest) ≠ String c rest.
Proof.
  intros Hl Htoken. unfold textproto.CanonicalMIMEHeaderKey, textproto.canonicalMIMEHeaderKey.
  rewrite (looks_like_key_token _ false Htoken).
  cbn [http.all_chars] in Htoken. apply andb_true_iff in Htoken as [Hc _].
  cbn [textproto.wrong_case textproto.canonicalize]. unfold textproto.validHeaderFieldByte.
  rewrite Hc, Hl. cbn [negb andb fst]. intros [= Heq _].
  by apply (upper_case_differs c Hl).
Qed.

Lemma looks_like_key_after_space (a : string) :
  textproto.looks_like_key true a = None ∨ textproto.looks_like_key true a = Some true.
Proof.
  induction a as [|c a IH]; [by right|]. cbn [textproto.looks_like_key].
  destruct (textproto.validHeaderFieldByte c); [done|]. by destruct (Ascii.eqb c " "); [|left].
Qed.

Lemma looks_like_key_other_byte (a : string) (noCanon : bool) :
  http.all_chars http.is_token_char a = false →
  textproto.looks_like_key noCanon a = None ∨ textproto.looks_like_key noCanon a = Some true.
Proof.
  induction a as [|c a IH]; [done|]. cbn [http.all_chars textproto.looks_like_key].
  unfold textproto.validHeaderFieldByte. destruct (http.is_token_char c); cbn [andb].
  - apply IH.
  - intros _. destruct (Ascii.eqb c " "); [apply looks_like_key_after_space|by left].
Qed.

(** A key with a byte that is not a token character is left as it is. *)
Lemma CanonicalMIMEHeaderKey_other_byte (key : string) :
  http.all_chars http.is_token_char key = false →
  textproto.CanonicalMIMEHeaderKey key = key.
Proof.
  intros Hother. unfold textproto.CanonicalMIMEHeaderKey, textproto.canonicalMIMEHeaderKey.
  destruct (textproto.wrong_case true key); [|done].
  by destruct (looks_like_key_other_byte key false Hother) as [-> | ->].
Qed.

(** X16. For each header of a transactional message, [MarshalJSON] puts
    one value into the list [headers], looked up under the canonical form
    of the key. A key that is in canonical form, and every key with a
    byte that is not a token character (a space, a byte of a non-ASCII
    letter), gives its first value; further values are dropped. A key
    made of token characters only that starts with a small letter, such
    as [x-trace], is not in canonical form: it gives the empty string
    when no header stands under its canonical form, as when it is the
    only header. *)
Theorem MarshalJSON_sends_one_value_per_header (Headers : gmap string (list string))
  (visited : list string) (key : string) (values : list string) :
  key ∈ visited →
  Headers !! key = Some values →
  ∃ v,
    (key, v) ∈ MarshalJSON_headers Headers visited
    ∧ (textproto.CanonicalMIMEHeaderKey key = key → v = hd "" values)
    ∧ (http.all_chars http.is_token_char key = false → v = hd "" values)
    ∧ (Headers !! textproto.CanonicalMIMEHeaderKey key = None → v = "")
    ∧ (∀ c rest, key = String c rest → is_lower c = true →
         http.all_chars http.is_token_char key = true →
         textproto.CanonicalMIMEHeaderKey key ≠ key
         ∧ (Headers = {[key := values]} → v = "")).
Proof.
  intros Hin Hvalues. exists (textproto.Get Headers key).
  assert (Hcanon : textproto.CanonicalMIMEHeaderKey key = key →
                   textproto.Get Headers key = hd "" values).
  { intros Hcanon. unfold textproto.Get. rewrite Hcanon, Hvalues. by destruct values. }
  split_and!.
  - unfold MarshalJSON_headers. apply list_elem_of_fmap. by exists key.
  - exact Hcanon.
  - intros Hother. by apply Hcanon, CanonicalMIMEHeaderKey_other_byte.
  - intros Hnone. unfold textproto.Get. by rewrite Hnone.
  - intros c rest -> Hl Htoken.
    pose proof (CanonicalMIMEHeaderKey_small_letter c rest Hl Htoken) as Hne.
    split; [exact Hne|]. intros ->. unfold textproto.Get.
    by rewrite lookup_singleton_ne.
Qed.

Lemma MarshalJSON_sends_one_value_per_header_witness :
  MarshalJSON_headers
    (<["x-trace" := ["1"]]> (<["Accept" := ["text/html"; "text/plain"]]> ∅))
    ["Accept"; "x-trace"]
  = [("Accept", "text/html"); ("x-trace", "")]
  ∧ (∃ v, ("x-trace", v) ∈ MarshalJSON_headers
            (<["x-trace" := ["1"]]> (<["Accept" := ["text/html"; "text/plain"]]> ∅))
            ["Accept"; "x-trace"]
          ∧ v = "")
  ∧ ∃ v, ("my key", v) ∈ MarshalJSON_headers {["my key" := ["sp"; "more"]]} ["my key"]
         ∧ v = "sp".
Proof.
  split_and!; [by vm_compute| |].
  - destruct (MarshalJSON_sends_one_value_per_header
      (<["x-trace" := ["1"]]> (<["Accept" := ["text/html"; "text/plain"]]> ∅))
      ["Accept"; "x-trace"] "x-trace" ["1"]) as (v & Hin & _ & _ & Hempty & _).
    + apply elem_of_cons. right. apply elem_of_cons. by left.
    + by vm_compute.
    + exists v. split; [done|]. apply Hempty. by vm_compute.
  - destruct (MarshalJSON_sends_one_value_per_header {["my key" := ["sp"; "more"]]}
      ["my key"] "my key" ["sp"; "more"]) as (v & Hin & _ & Hother & _).
    + apply elem_of_cons. by left.
    + by vm_compute.
    + exists v. split; [done|]. by apply Hother.
Defined.
